(** * Extractive summarizer: ranking, selection and transcript segmentation

    A shallow embedding of the extractive core of the summarizer:
    [backend_api.py] (length estimator, lexical similarity, position
    scores, redundancy-aware selection) and [video_summarizer_api.py]
    (topic-change detection, segment construction, timestamp formatting).

    Conventions of the embedding.
    - Python [str] is [string] (ASCII characters); Python [list] is [list].
    - Python [int] is [Z]; lengths and list indices are [nat].
    - Python [float] values that the code builds from integers with
      [+], [*], [/], [//], [%] and comparisons are exact rationals ([Q]);
      values that go through [sqrt] are real numbers ([R]).  Rounding of
      binary64 arithmetic is not modelled.
    - A Python exception is [None] in an [option] result.
    - Functions of NLTK, scikit-learn and [re] are parameters of the
      sections that use them. *)

From Stdlib Require Import List String Ascii ZArith QArith Qround Lia Bool.
From Stdlib Require Import Arith DecimalString Permutation Sorted Reals Lra.
Import ListNotations.

Open Scope string_scope.

(** ** Python built-ins used by the two modules *)

Module Py.

(** [int(x)] on a float: truncation toward zero. *)
Definition int_of_float (x : Q) : Z :=
  if Qle_bool 0 x then Qfloor x else Qceiling x.

(** [x // m] and [x % m] on floats, for a positive modulus. *)
Definition floordiv (x m : Q) : Q := inject_Z (Qfloor (x / m)).
Definition fmod (x m : Q) : Q := x - m * inject_Z (Qfloor (x / m)).

(** [str(n)] for an [int]. *)
Definition str (n : Z) : string := NilZero.string_of_int (Z.to_int n).

(** The format specification [{n:02d}]: the decimal numeral, padded on the
    left with zeros up to width two.  A numeral that already has two
    characters (among them every negative one) is left alone. *)
Definition format_02d (n : Z) : string :=
  let s := str n in
  if (String.length s <? 2)%nat then "0" ++ s else s.

(** [sep.join(parts)]. *)
Definition join (sep : string) (parts : list string) : string :=
  String.concat sep parts.

(** [c.isspace()] for an ASCII character: TAB, LF, VT, FF, CR, the four
    separators FS..US and the blank. *)
Definition isspace (c : ascii) : bool :=
  let n := nat_of_ascii c in
  ((9 <=? n) && (n <=? 13) || (28 <=? n) && (n <=? 32))%nat.

Fixpoint lstrip (s : string) : string :=
  match s with
  | EmptyString => EmptyString
  | String c s' => if isspace c then lstrip s' else s
  end.

Fixpoint rstrip (s : string) : string :=
  match s with
  | EmptyString => EmptyString
  | String c s' =>
      match rstrip s' with
      | EmptyString => if isspace c then EmptyString else String c EmptyString
      | r => String c r
      end
  end.

(** [s.strip()]. *)
Definition strip (s : string) : string := rstrip (lstrip s).

(** [s.split()]: the maximal runs of non-blank characters. *)
Fixpoint split_acc (acc : string) (s : string) : list string :=
  match s with
  | EmptyString =>
      match acc with EmptyString => [] | _ => [acc] end
  | String c s' =>
      if isspace c
      then match acc with
           | EmptyString => split_acc EmptyString s'
           | _ => acc :: split_acc EmptyString s'
           end
      else split_acc (acc ++ String c EmptyString) s'
  end.

Definition split (s : string) : list string := split_acc EmptyString s.

(** [a[lo:hi]] for indices that are not negative. *)
Definition slice {A : Type} (l : list A) (lo hi : nat) : list A :=
  firstn (hi - lo) (skipn lo l).

(** [range(lo, hi)]. *)
Definition range (lo hi : nat) : list nat := seq lo (hi - lo).

(** [s.lower()] on ASCII letters. *)
Definition lower_char (c : ascii) : ascii :=
  let n := nat_of_ascii c in
  if ((65 <=? n) && (n <=? 90))%nat then ascii_of_nat (n + 32) else c.

Fixpoint lower (s : string) : string :=
  match s with
  | EmptyString => EmptyString
  | String c s' => String (lower_char c) (lower s')
  end.

Definition is_upper_char (c : ascii) : bool :=
  let n := nat_of_ascii c in ((65 <=? n) && (n <=? 90))%nat.

Definition is_lower_char (c : ascii) : bool :=
  let n := nat_of_ascii c in ((97 <=? n) && (n <=? 122))%nat.

Fixpoint any_char (p : ascii -> bool) (s : string) : bool :=
  match s with
  | EmptyString => false
  | String c s' => p c || any_char p s'
  end.

(** [s.isupper()]: some cased character, and none of them lower-case. *)
Definition isupper (s : string) : bool :=
  any_char is_upper_char s && negb (any_char is_lower_char s).

(** [sub in s] for strings. *)
Fixpoint contains (sub s : string) : bool :=
  if String.prefix sub s then true
  else match s with
       | EmptyString => false
       | String _ s' => contains sub s'
       end.

(** [s.endswith(suffix)]. *)
Definition endswith (s suffix : string) : bool :=
  let n := String.length s in
  let m := String.length suffix in
  ((m <=? n)%nat && String.eqb (String.substring (n - m) m s) suffix).

(** [x in l] for a list (or set) of strings. *)
Definition mem (x : string) (l : list string) : bool :=
  existsb (String.eqb x) l.

(** [l.index(x)]; [None] is the [ValueError] of an absent element. *)
Fixpoint index (x : string) (l : list string) : option nat :=
  match l with
  | [] => None
  | y :: l' => if String.eqb x y then Some O else option_map S (index x l')
  end.

(** [l[i] = x] on a list; an index out of range leaves the list as it is
    (the callers below only write inside the list). *)
Fixpoint list_set {A : Type} (l : list A) (i : nat) (x : A) : list A :=
  match l, i with
  | [], _ => []
  | _ :: t, O => x :: t
  | h :: t, S i' => h :: list_set t i' x
  end.

(** [sorted(l, key=...)] as a stable insertion sort.  [before y x] says
    that [y] sorts strictly before [x]; an element is placed in front of the
    first one that does not sort strictly before it, so elements with
    equal keys keep their order ([reverse=True] keeps it as well). *)
Fixpoint insert_sorted {A : Type} (before : A -> A -> bool) (x : A) (l : list A) : list A :=
  match l with
  | [] => [x]
  | y :: l' => if before y x then y :: insert_sorted before x l' else x :: l
  end.

Definition sorted {A : Type} (before : A -> A -> bool) (l : list A) : list A :=
  fold_right (insert_sorted before) [] l.

(** The double-quote character, written by its code 34. *)
Definition dquote : string := String (ascii_of_nat 34) EmptyString.

(** [enumerate(l)]. *)
Definition enumerate {A : Type} (l : list A) : list (nat * A) :=
  combine (seq 0 (List.length l)) l.

(** [a < b] on floats. *)
Definition float_ltb (a b : Q) : bool := negb (Qle_bool b a).

(** [min(a, b)] on floats: the first argument unless the second is smaller. *)
Definition float_min (a b : Q) : Q := if float_ltb b a then b else a.

(** [set(l)] of strings, kept as a list without repetition; only the
    operations below are used on it, none depends on the order. *)
Definition set_of (l : list string) : list string := nodup string_dec l.

(** [a.intersection(b)] and [a.union(b)]. *)
Definition intersection (a b : list string) : list string :=
  filter (fun x => mem x b) a.

Definition union (a b : list string) : list string :=
  (a ++ filter (fun x => negb (mem x a)) b)%list.

(** [i in l] for a list of indices. *)
Definition mem_nat (i : nat) (l : list nat) : bool := existsb (Nat.eqb i) l.

(** [s.isalnum()] on ASCII: at least one character, all letters or digits. *)
Definition is_alnum_char (c : ascii) : bool :=
  let n := nat_of_ascii c in
  ((48 <=? n) && (n <=? 57) || (65 <=? n) && (n <=? 90)
   || (97 <=? n) && (n <=? 122))%nat.

Fixpoint all_chars (p : ascii -> bool) (s : string) : bool :=
  match s with
  | EmptyString => true
  | String c s' => p c && all_chars p s'
  end.

Definition isalnum (s : string) : bool :=
  negb (String.eqb s EmptyString) && all_chars is_alnum_char s.

(** [l[:k]] for an integer [k]: the first [k] elements, and for a negative
    [k] all but the last [-k]. *)
Definition slice_to {A : Type} (l : list A) (k : Z) : list A :=
  if (k <? 0)%Z then firstn (Z.to_nat (Z.of_nat (List.length l) + k)) l
  else firstn (Z.to_nat k) l.

(** The truth value of an optional string ([None] and the empty string
    are false). *)
Definition truthy (s : option string) : bool :=
  match s with
  | None => false
  | Some t => negb (String.eqb t EmptyString)
  end.

(** A word, as [split] returns it: not empty, without white space. *)
Definition is_word (w : string) : Prop :=
  w <> EmptyString /\ any_char isspace w = false.

End Py.

(** ** The libraries the program calls *)

Module Lib.

(** NLTK: [sent_tokenize], [word_tokenize] and
    [stopwords.words('english')]. *)
Class Nltk : Type := {
  sent_tokenize : string -> list string;
  word_tokenize : string -> list string;
  stopwords_english : list string
}.

(** The [re] module; a pattern is the text of its raw string.
    [re_search] tells whether [re.search] found a match. *)
Class Re : Type := {
  re_sub : string -> string -> string -> string;
  re_findall : string -> string -> list string;
  re_search : string -> string -> bool
}.

(** scikit-learn.
    [tfidf_sentence_sums sentences] is
    [TfidfVectorizer(stop_words='english', max_features=200,
    ngram_range=(1, 2), min_df=1, max_df=0.85).fit_transform(sentences)
    .sum(axis=1)], flattened, one number per sentence.
    [tfidf_cosine before after] is the cosine similarity of the two rows
    of [TfidfVectorizer(stop_words='english', max_features=50)
    .fit_transform([before, after])].
    [None] stands for an exception raised by the vectorizer. *)
Class Sklearn : Type := {
  tfidf_sentence_sums : list string -> option (list R);
  tfidf_cosine : string -> string -> option Q
}.

(** [list(set(l))]: the order in which CPython enumerates a set of strings
    depends on the hash seed of the process.  All the program may rely on
    is that every element of [l] is listed exactly once. *)
Class SetOrder : Type := {
  list_of_set : list string -> list string;
  list_of_set_NoDup : forall l, NoDup (list_of_set l);
  list_of_set_In : forall l x, In x (list_of_set l) <-> In x l
}.

(** [re.search(pattern, s)] followed by [match.group(1)]: the text of the
    first group of the leftmost match, [None] without a match. *)
Class ReGroup : Type := {
  re_search_group : string -> string -> option string
}.

(** What [YouTubeTranscriptApi.get_transcript(video_id)] does: it returns
    the list of entries or raises. *)
Inductive api_outcome (entry : Type) : Type :=
| Transcript (entries : list entry)
| TranscriptsDisabled
| NoTranscriptFound
| OtherException (message : string).

Arguments Transcript {entry} entries.
Arguments TranscriptsDisabled {entry}.
Arguments NoTranscriptFound {entry}.
Arguments OtherException {entry} message.

(** The Hugging Face summarization pipeline:
    [summarizer(text, max_length=.., min_length=.., do_sample=False,
    truncation=True, length_penalty=2.0, num_beams=4,
    early_stopping=True)[0]['summary_text']]; [None] is an exception. *)
Class Transformers : Type := {
  summarizer : string -> Z -> Z -> option string
}.

End Lib.

(** ** The NumPy operations the scorer uses *)

Module Np.

Local Open Scope R_scope.

Definition zeros (n : nat) : list R := repeat 0 n.
Definition ones (n : nat) : list R := repeat 1 n.
Definition zeros2 (n m : nat) : list (list R) := repeat (zeros m) n.

(** [a.sum()] of a vector. *)
Definition sum (v : list R) : R := fold_right Rplus 0 v.

(** [a.max()]; [None] is the [ValueError] numpy raises on an empty array. *)
Definition max (v : list R) : option R :=
  match v with
  | [] => None
  | x :: v' => Some (fold_left Rmax v' x)
  end.

(** [a > 0] as a truth value. *)
Definition positive (x : R) : bool := if Rlt_dec 0 x then true else false.

(** [a > b] on floats. *)
Definition gtb (a b : R) : bool := if Rlt_dec b a then true else false.

(** [numpy.dot(u, v)] of two integer vectors. *)
Fixpoint dot (u v : list nat) : nat :=
  match u, v with
  | x :: u', y :: v' => (x * y + dot u' v')%nat
  | _, _ => O
  end.

(** [m[i][j] = x]. *)
Definition set_cell (m : list (list R)) (i j : nat) (x : R) : list (list R) :=
  Py.list_set m i (Py.list_set (nth i m []) j x).

(** [m[i][j]]. *)
Definition cell (m : list (list R)) (i j : nat) : R := nth j (nth i m []) 0.

(** [m.T.dot(c)]: entry [j] is the sum over [i] of [m[i][j] * c[i]]. *)
Definition transpose_dot (n : nat) (m : list (list R)) (c : list R) : list R :=
  map (fun j => sum (map (fun i => cell m i j * nth i c 0) (seq 0 n))) (seq 0 n).

End Np.
(** * backend_api.py *)

Module backend_api.

Import Lib.

Local Open Scope Q_scope.

Section Backend.

Context {nltk : Nltk} {re : Re} {sklearn : Sklearn} {set_order : SetOrder}.

(** [clean_text(text)]. *)
Definition clean_text (text : string) : string :=
  let text := re_sub "\s+" " " text in
  let text := re_sub ("[^\w\s.,!?;:\'" ++ Py.dquote ++ "()\-]") "" text in
  let text := re_sub "\s+([.,!?;:])" "\1" text in
  Py.strip text.

(** [preprocess_text_for_sentences(text)]. *)
Definition preprocess_text_for_sentences (text : string) : string :=
  let text := re_sub ",\s+" ". " text in
  let text := if negb (Py.endswith text ".") then text ++ "." else text in
  let text := re_sub "\.+" "." text in
  let text := re_sub "\s+" " " text in
  Py.strip text.

(** The body of [calculate_optimal_summary_length] once the two counts
    are taken (lines 88 to 121). *)
Definition optimal_length (num_sentences num_words : Z) : Z :=
  let avg_sentence_length : Q :=
    if (num_sentences >? 0)%Z
    then inject_Z num_words / inject_Z num_sentences else 0 in
  let target_sentences : Z :=
    if (num_words <? 100)%Z then
      Z.max 2 (Py.int_of_float (inject_Z num_sentences * (7 # 10)))
    else if (num_words <? 300)%Z then
      Z.max 2 (Py.int_of_float (inject_Z num_sentences * (5 # 10)))
    else if (num_words <? 800)%Z then
      Z.max 3 (Py.int_of_float (inject_Z num_sentences * (35 # 100)))
    else if (num_words <? 2000)%Z then
      Z.max 4 (Py.int_of_float (inject_Z num_sentences * (25 # 100)))
    else
      Z.max 5 (Py.int_of_float (inject_Z num_sentences * (18 # 100))) in
  let target_sentences : Z :=
    if Py.float_ltb 25 avg_sentence_length then
      Z.max 2 (Py.int_of_float (inject_Z target_sentences * (8 # 10)))
    else if Py.float_ltb avg_sentence_length 10 then
      Py.int_of_float (inject_Z target_sentences * (12 # 10))
    else target_sentences in
  let target_sentences := Z.max 2 (Z.min target_sentences 12) in
  Z.min target_sentences num_sentences.

(** [calculate_optimal_summary_length(text)]. *)
Definition calculate_optimal_summary_length (text : string) : Z :=
  let sentences := sent_tokenize text in
  let words := Py.split text in
  let num_sentences := Z.of_nat (List.length sentences) in
  let num_words := Z.of_nat (List.length words) in
  optimal_length num_sentences num_words.

(** [nltk.cluster.util.cosine_distance(u, v)]:
    [1 - dot(u, v) / (sqrt(dot(u, u)) * sqrt(dot(v, v)))].  [None] is the
    arithmetic fault of a zero denominator. *)
Definition cosine_distance (u v : list nat) : option R :=
  let denominator := (sqrt (INR (Np.dot u u)) * sqrt (INR (Np.dot v v)))%R in
  if Req_dec_T denominator 0%R then None
  else Some (1 - INR (Np.dot u v) / denominator)%R.

(** The loop [for word in sent: if word in all_words:
    vector[all_words.index(word)] += 1]. *)
Definition count_words (all_words sent : list string) (vector : list nat) : list nat :=
  fold_left
    (fun vector word =>
       if Py.mem word all_words then
         match Py.index word all_words with
         | Some k => Py.list_set vector k (nth k vector O + 1)%nat
         | None => vector
         end
       else vector)
    sent vector.

(** [sentence_similarity(sent1, sent2, stopwords)]. *)
Definition sentence_similarity (sent1 sent2 stopwords : list string) : option R :=
  let sent1 := filter (fun word => negb (Py.mem word stopwords)) sent1 in
  let sent2 := filter (fun word => negb (Py.mem word stopwords)) sent2 in
  let all_words := list_of_set (sent1 ++ sent2)%list in
  let vector1 := count_words all_words sent1 (repeat O (List.length all_words)) in
  let vector2 := count_words all_words sent2 (repeat O (List.length all_words)) in
  if (list_sum vector1 =? 0)%nat || (list_sum vector2 =? 0)%nat then Some 0%R
  else option_map (fun d => (1 - d)%R) (cosine_distance vector1 vector2).

(** [build_similarity_matrix(sentences, stop_words)]: the two nested
    loops write the cells of a zero matrix; a fault in a cell aborts. *)
Definition build_similarity_matrix (sentences : list (list string))
    (stop_words : list string) : option (list (list R)) :=
  let n := List.length sentences in
  fold_left
    (fun acc i =>
       fold_left
         (fun acc j =>
            match acc with
            | None => None
            | Some similarity_matrix =>
                if negb (i =? j)%nat then
                  match sentence_similarity (nth i sentences []) (nth j sentences []) stop_words with
                  | Some x => Some (Np.set_cell similarity_matrix i j x)
                  | None => None
                  end
                else Some similarity_matrix
            end)
         (Py.range 0 n) acc)
    (Py.range 0 n) (Some (Np.zeros2 n n)).

(** The position sub-score of sentence [i] among [n_sentences]
    (lines 183 to 195). *)
Definition position_score (n_sentences i : nat) : Q :=
  if (i =? 0)%nat then 3
  else if (i =? 1)%nat then 2
  else if Py.float_ltb (inject_Z (Z.of_nat i))
            (Py.float_min 5 (inject_Z (Z.of_nat n_sentences) * (1 # 10))) then 15 # 10
  else if (Z.of_nat i >=? Z.of_nat n_sentences - 1)%Z then 18 # 10
  else if (Z.of_nat i >=? Z.of_nat n_sentences - 3)%Z then 13 # 10
  else 1.

Definition position_scores (n_sentences : nat) : list Q :=
  map (position_score n_sentences) (Py.range 0 n_sentences).

(** The List.length sub-score of one sentence (lines 199 to 209). *)
Definition length_score (sentence : string) : Q :=
  let words := word_tokenize sentence in
  let word_count := List.length words in
  if ((12 <=? word_count) && (word_count <=? 25))%nat then 2
  else if ((8 <=? word_count) && (word_count <=? 35))%nat then 15 # 10
  else if ((5 <=? word_count) && (word_count <=? 45))%nat then 1
  else 5 # 10.

Definition discourse_markers : list string :=
  [ "however"; "therefore"; "thus"; "consequently"; "moreover"; "furthermore";
    "importantly"; "significantly"; "notably"; "essentially"; "primarily";
    "specifically"; "particularly"; "especially"; "indeed"; "in fact";
    "for example"; "for instance"; "in conclusion"; "to summarize"; "overall" ].

Definition emphasis_words : list string :=
  [ "most"; "best"; "worst"; "largest"; "smallest"; "critical";
    "essential"; "key"; "main"; "major"; "significant"; "important" ].

(** The keyword and feature sub-score of one sentence (lines 220 to 256). *)
Definition keyword_score (sentence : string) : Q :=
  let score := 1 in
  let sentence_lower := Py.lower sentence in
  let num_count := List.length (re_findall "\d+" sentence) in
  let score :=
    if (0 <? num_count)%nat
    then score + Py.float_min (inject_Z (Z.of_nat num_count) * (3 # 10)) (9 # 10)
    else score in
  let capitals := List.length (re_findall "\b[A-Z][a-z]+" sentence) in
  let score :=
    if (0 <? capitals)%nat
    then score + Py.float_min (inject_Z (Z.of_nat capitals) * (15 # 100)) (6 # 10)
    else score in
  let score :=
    if Py.contains Py.dquote sentence || Py.contains Py.dquote sentence
       || Py.contains "'" sentence
    then score + (4 # 10) else score in
  let score :=
    if existsb (fun marker => Py.contains marker sentence_lower) discourse_markers
    then score + (5 # 10) else score in
  let score := if Py.contains "?" sentence then score + (3 # 10) else score in
  let score :=
    if existsb (fun word => re_search ("\b" ++ word ++ "\b") sentence_lower) emphasis_words
    then score + (2 # 10) else score in
  score.

(** The centrality sub-scores (lines 259 to 275).  [None] is an exception:
    a fault in the similarity matrix, or [max()] of an empty array. *)
Definition centrality_scores (sentences : list string) (stop_words : list string)
    : option (list R) :=
  let n_sentences := List.length sentences in
  let processed_sentences := map (fun s => word_tokenize (Py.lower s)) sentences in
  match build_similarity_matrix processed_sentences stop_words with
  | None => None
  | Some similarity_matrix =>
      match Np.max (List.concat similarity_matrix) with
      | None => None
      | Some largest =>
          if Np.positive largest then
            let row_sums := map Np.sum similarity_matrix in
            let row_sums := map (fun s => if Req_dec_T s 0%R then 1%R else s) row_sums in
            let norm_matrix :=
              map (fun row_sum => map (fun x => (x / snd row_sum)%R) (fst row_sum))
                  (combine similarity_matrix row_sums) in
            let centrality := map (fun x => (x / INR n_sentences)%R) (Np.ones n_sentences) in
            let centrality :=
              Nat.iter 10
                (fun centrality =>
                   map (fun x => (0.85 * x + 0.15 / INR n_sentences)%R)
                       (Np.transpose_dot n_sentences norm_matrix centrality))
                centrality in
            match Np.max centrality with
            | None => None
            | Some top =>
                Some (if Np.positive top
                      then map (fun x => (x / top)%R) centrality
                      else centrality)
            end
          else Some (Np.zeros n_sentences)
      end
  end.

(** The TF-IDF sub-scores (lines 165 to 179): any exception inside the
    [try] block gives the vector of ones. *)
Definition tfidf_scores (sentences : list string) : list R :=
  let n_sentences := List.length sentences in
  match tfidf_sentence_sums sentences with
  | None => Np.ones n_sentences
  | Some sums =>
      match Np.max sums with
      | None => Np.ones n_sentences
      | Some top =>
          if Np.positive top then map (fun x => (x / top)%R) sums else sums
      end
  end.

(** [calculate_sentence_importance(sentences, stop_words)].  The
    dictionary [scores] is the list of its items; its keys are written in
    the order [0 .. n_sentences - 1]. *)
Definition calculate_sentence_importance (sentences : list string)
    (stop_words : list string) : option (list (nat * R)) :=
  let n_sentences := List.length sentences in
  let tfidf_scores := tfidf_scores sentences in
  let position_scores := position_scores n_sentences in
  let length_scores := map length_score sentences in
  let keyword_scores := map keyword_score sentences in
  match centrality_scores sentences stop_words with
  | None => None
  | Some centrality_scores =>
      let diversity_scores := Np.ones n_sentences in
      Some (map
              (fun i =>
                 (i,
                  (nth i tfidf_scores 0 * 3.0
                   + nth i centrality_scores 0 * 2.5
                   + Q2R (nth i position_scores 0%Q) * 2.0
                   + Q2R (nth i keyword_scores 0%Q) * 1.5
                   + Q2R (nth i length_scores 0%Q) * 1.0
                   + nth i diversity_scores 0 * 0.5)%R))
              (Py.range 0 n_sentences))
  end.

(** [are_sentences_similar(sent1, sent2, threshold)]. *)
Definition are_sentences_similar (sent1 sent2 : string) (threshold : Q) : bool :=
  let words1 := Py.set_of (word_tokenize (Py.lower sent1)) in
  let words2 := Py.set_of (word_tokenize (Py.lower sent2)) in
  if (List.length words1 =? 0)%nat || (List.length words2 =? 0)%nat then false
  else
    let intersection := List.length (Py.intersection words1 words2) in
    let union := List.length (Py.union words1 words2) in
    let similarity :=
      if (0 <? union)%nat
      then inject_Z (Z.of_nat intersection) / inject_Z (Z.of_nat union)
      else 0 in
    Py.float_ltb threshold similarity.

(** The inner loop of the strict pass (lines 374 to 379): is [sentence]
    too close to one of the sentences selected so far? *)
Definition is_redundant (filtered_sentences : list string) (sentence : string)
    (selected_indices : list nat) : bool :=
  existsb
    (fun selected_idx =>
       are_sentences_similar sentence (nth selected_idx filtered_sentences "") (1 # 2))
    selected_indices.

(** The state of the selection loops: [selected_indices] and
    [selected_sentences], appended to together. *)
Definition selection : Type := (list nat * list string)%type.

(** The strict pass (lines 367 to 383). *)
Fixpoint strict_pass (filtered_sentences : list string) (max_sentences : Z)
    (ranked_items : list (nat * R)) (state : selection) : selection :=
  match ranked_items with
  | [] => state
  | (idx, score) :: rest =>
      let '(selected_indices, selected_sentences) := state in
      if (Z.of_nat (List.length selected_indices) >=? max_sentences)%Z then state
      else
        let sentence := nth idx filtered_sentences "" in
        if is_redundant filtered_sentences sentence selected_indices
        then strict_pass filtered_sentences max_sentences rest state
        else strict_pass filtered_sentences max_sentences rest
               ((selected_indices ++ [idx])%list, (selected_sentences ++ [sentence])%list)
  end.

(** The backfill pass (lines 387 to 392). *)
Fixpoint backfill (filtered_sentences : list string) (max_sentences : Z)
    (ranked_items : list (nat * R)) (state : selection) : selection :=
  match ranked_items with
  | [] => state
  | (idx, score) :: rest =>
      let '(selected_indices, selected_sentences) := state in
      if (Z.of_nat (List.length selected_indices) >=? max_sentences)%Z then state
      else if negb (Py.mem_nat idx selected_indices)
      then backfill filtered_sentences max_sentences rest
             ((selected_indices ++ [idx])%list,
              (selected_sentences ++ [nth idx filtered_sentences ""])%list)
      else backfill filtered_sentences max_sentences rest state
  end.

(** [sorted(sentence_scores.items(), key=lambda x: x[1], reverse=True)]. *)
Definition rank (sentence_scores : list (nat * R)) : list (nat * R) :=
  Py.sorted (fun y x => Np.gtb (snd y) (snd x)) sentence_scores.

(** Step 4 of [textrank_summarize] up to the re-ordering (lines 361 to
    392): the strict pass, then the backfill when it left the selection
    short. *)
Definition select (filtered_sentences : list string)
    (sentence_scores : list (nat * R)) (max_sentences : Z) : selection :=
  let ranked_items := rank sentence_scores in
  let state := strict_pass filtered_sentences max_sentences ranked_items ([], []) in
  if (Z.of_nat (List.length (fst state)) <? max_sentences)%Z
  then backfill filtered_sentences max_sentences ranked_items state
  else state.

(** [final_sentences] (lines 395 and 396): the selection in document order. *)
Definition final_sentences (state : selection) : list string :=
  let sorted_pairs :=
    Py.sorted (fun y x => (fst y <? fst x)%nat) (combine (fst state) (snd state)) in
  map snd sorted_pairs.

(** Step 1 of [textrank_summarize] (lines 332 to 338): the first
    occurrence of every sentence, compared stripped and lower-cased. *)
Definition unique_sentences (original_sentences : list string) : list string :=
  snd (fold_left
         (fun (state : list (string * nat) * list string) (item : nat * string) =>
            let '(seen_sentences, unique_sentences) := state in
            let '(idx, sentence) := item in
            let normalized := Py.lower (Py.strip sentence) in
            if negb (Py.mem normalized (map fst seen_sentences))
            then ((seen_sentences ++ [(normalized, idx)])%list,
                  (unique_sentences ++ [Py.strip sentence])%list)
            else state)
         (Py.enumerate original_sentences) ([], [])).

(** Step 2 of [textrank_summarize] (lines 341 to 348). *)
Definition filtered_sentences (unique_sentences : list string) : list string :=
  filter
    (fun sentence =>
       let words := word_tokenize sentence in
       ((3 <=? List.length words) && (List.length words <=? 50))%nat
       && negb (Py.isupper sentence && (List.length words <? 4)%nat))
    unique_sentences.

(** The length the summary is cut to (lines 324 and 325). *)
Definition effective_max_sentences (text : string) (max_sentences : option Z) : Z :=
  match max_sentences with
  | None => calculate_optimal_summary_length text
  | Some m => if (m =? 0)%Z then calculate_optimal_summary_length text else m
  end.

(** [textrank_summarize(text, max_sentences)]; [None] is an exception. *)
Definition textrank_summarize (text : string) (max_sentences : option Z)
    : option string :=
  let stop_words := Py.set_of stopwords_english in
  let text := preprocess_text_for_sentences text in
  let text := clean_text text in
  let max_sentences := effective_max_sentences text max_sentences in
  let original_sentences := sent_tokenize text in
  let unique_sentences := unique_sentences original_sentences in
  let filtered_sentences := filtered_sentences unique_sentences in
  if (List.length filtered_sentences =? 0)%nat
  then Some "Unable to generate summary."
  else if (Z.of_nat (List.length filtered_sentences) <=? max_sentences)%Z
  then Some (Py.join " " filtered_sentences)
  else
    match calculate_sentence_importance filtered_sentences stop_words with
    | None => None
    | Some sentence_scores =>
        let state := select filtered_sentences sentence_scores max_sentences in
        let final_sentences := final_sentences state in
        let summary := Py.join " " final_sentences in
        Some (Py.strip (re_sub "\s+" " " summary))
    end.

(** ** The vocabulary of the claims *)

(** The position weights as the specification lists them: first sentence,
    second sentence, the first tenth of the document (at most up to index
    5), the last sentence, the three sentences before the last, the rest. *)
Definition position_as_claimed (n_sentences i : nat) : Q :=
  if (i =? 0)%nat then 3
  else if (i =? 1)%nat then 2
  else if ((i <? 5) && (10 * i <? n_sentences))%nat then 15 # 10
  else if (i + 1 =? n_sentences)%nat then 18 # 10
  else if ((n_sentences <=? i + 4) && (i + 1 <? n_sentences))%nat then 13 # 10
  else 1.


(** The target of the length estimator in integer arithmetic: the
    bracket by word count, then the adjustment by average sentence
    length, for [S] sentences and [W] words. *)
Definition bracket_target (S W : Z) : Z :=
  if (W <? 100)%Z then Z.max 2 (7 * S / 10)
  else if (W <? 300)%Z then Z.max 2 (5 * S / 10)
  else if (W <? 800)%Z then Z.max 3 (35 * S / 100)
  else if (W <? 2000)%Z then Z.max 4 (25 * S / 100)
  else Z.max 5 (18 * S / 100).

Definition adjusted_target (S W : Z) : Z :=
  let target := bracket_target S W in
  if (0 <? S)%Z && (25 * S <? W)%Z then Z.max 2 (8 * target / 10)
  else if (S <=? 0)%Z || (W <? 10 * S)%Z then 12 * target / 10
  else target.


(** The candidate sentences of a text, and the target length of its
    summary, as [textrank_summarize] computes them (lines 318 to 348). *)
Definition candidates (text : string) : list string :=
  let text := clean_text (preprocess_text_for_sentences text) in
  filtered_sentences (unique_sentences (sent_tokenize text)).

Definition target_length (text : string) (max_sentences : option Z) : Z :=
  effective_max_sentences (clean_text (preprocess_text_for_sentences text)) max_sentences.

(** ** [transformer_summarize] *)

Context {transformers : Transformers}.

(** [scores[k]] for a key of the dictionary. *)
Definition score_of (scores : list (nat * R)) (k : nat) : R :=
  match find (fun item => (fst item =? k)%nat) scores with
  | Some item => snd item
  | None => 0%R
  end.

(** The two lengths handed to the model (lines 427 to 433). *)
Definition generation_lengths (max_sentences : Z) (input_length : nat) : Z * Z :=
  let target_words := (max_sentences * 20)%Z in
  let max_length :=
    Z.min (target_words + 20)
      (Py.int_of_float (inject_Z (Z.of_nat input_length) * (4 # 10))) in
  let min_length :=
    Z.min (target_words - 10)
      (Py.int_of_float (inject_Z (Z.of_nat input_length) * (1 # 10))) in
  let max_length := Z.max 50 (Z.min max_length 500) in
  let min_length := Z.max 30 (Z.min min_length (max_length - 20)) in
  (max_length, min_length).

(** The text handed to the model (lines 436 to 450): a text of more than
    1024 words is first cut down to its best sentences when it has more
    than [3 * max_sentences] of them, then to its first 1024 words.
    [None] is an exception of the scorer. *)
Definition model_input (text : string) (max_sentences : Z) : option string :=
  let words := Py.split text in
  let input_length := List.length words in
  let extracted : option (string * list string) :=
    if (1024 <? input_length)%nat then
      let sentences := sent_tokenize text in
      if (max_sentences * 3 <? Z.of_nat (List.length sentences))%Z then
        let stop_words := stopwords_english in
        match calculate_sentence_importance sentences stop_words with
        | None => None
        | Some scores =>
            let top_indices :=
              Py.slice_to
                (Py.sorted (fun y x => Np.gtb (score_of scores y) (score_of scores x))
                   (map fst scores))
                (max_sentences * 3) in
            let top_indices := Py.sorted Nat.ltb top_indices in
            let text := Py.join " " (map (fun i => nth i sentences "") top_indices) in
            Some (text, Py.split text)
        end
      else Some (text, words)
    else Some (text, words) in
  match extracted with
  | None => None
  | Some (text, words) =>
      Some (if (1024 <? List.length words)%nat
            then Py.join " " (firstn 1024 words)
            else text)
  end.

(** [transformer_summarize(text, max_sentences)]; [None] is the [None]
    the function returns when anything raised. *)
Definition transformer_summarize (text : string) (max_sentences : option Z)
    : option string :=
  let text := Py.strip text in
  let max_sentences := effective_max_sentences text max_sentences in
  let input_length := List.length (Py.split text) in
  let '(max_length, min_length) := generation_lengths max_sentences input_length in
  match model_input text max_sentences with
  | None => None
  | Some text =>
      match summarizer text max_length min_length with
      | None => None
      | Some result =>
          let result := Py.strip result in
          Some (if negb (Py.endswith result ".") then result ++ "." else result)
      end
  end.

End Backend.

End backend_api.
(** * video_summarizer_api.py *)

Module video_summarizer_api.

Import Lib.

Local Open Scope Q_scope.

(** A transcript entry, as [youtube_transcript_api] delivers it: a
    dictionary with the keys ['text'], ['start'] and ['duration']. *)
Record entry : Type := mk_entry {
  text : string;
  start : Q;
  duration : Q
}.

(** [format_timestamp(seconds)]. *)
Definition format_timestamp (seconds : Q) : string :=
  let hours := Py.int_of_float (Py.floordiv seconds 3600) in
  let minutes := Py.int_of_float (Py.floordiv (Py.fmod seconds 3600) 60) in
  let secs := Py.int_of_float (Py.fmod seconds 60) in
  if (hours >? 0)%Z
  then Py.format_02d hours ++ ":" ++ Py.format_02d minutes ++ ":" ++ Py.format_02d secs
  else Py.format_02d minutes ++ ":" ++ Py.format_02d secs.

(** The two-digit field of the specification: tens digit, units digit. *)
Definition digit (n : Z) : ascii := ascii_of_nat (48 + Z.to_nat n).

Definition two_digits (n : Z) : string :=
  String (digit (n / 10)) (String (digit (n mod 10)) EmptyString).

(** A segment, as [create_segments_with_topics] builds it: a dictionary
    with the keys ['timestamp'], ['start_seconds'] and ['text']. *)
Record segment : Type := mk_segment {
  timestamp : string;
  start_seconds : Q;
  seg_text : string
}.

Section Video.

Context {sklearn : Sklearn}.

(** The first loop of [detect_topic_changes] (lines 81 to 96): the
    boundaries whose two windows are less similar than [threshold]. *)
Definition topic_changes (texts : list string) (window_size : nat) (threshold : Q)
    : list nat :=
  fold_left
    (fun topic_changes i =>
       let before_text := Py.join " " (Py.slice texts (i - window_size) i) in
       let after_text := Py.join " " (Py.slice texts i (i + window_size)) in
       match tfidf_cosine before_text after_text with
       | Some similarity =>
           if Py.float_ltb similarity threshold
           then (topic_changes ++ [i])%list else topic_changes
       | None => topic_changes
       end)
    (Py.range window_size (List.length texts - window_size)) [].

(** The second loop (lines 99 to 105): a change is kept when it lies at
    least [window_size] after the last one kept. *)
Definition filter_changes (topic_changes : list nat) (window_size : nat) : list nat :=
  fst (fold_left
         (fun (state : list nat * Z) change =>
            let '(filtered_changes, last_change) := state in
            if (Z.of_nat change - last_change >=? Z.of_nat window_size)%Z
            then ((filtered_changes ++ [change])%list, Z.of_nat change)
            else state)
         topic_changes ([], (- Z.of_nat window_size * 2)%Z)).

(** [detect_topic_changes(transcript_segments, window_size, threshold)].
    [window_size] is a count; every call of the program passes 5. *)
Definition detect_topic_changes (transcript_segments : list entry)
    (window_size : nat) (threshold : Q) : list nat :=
  if (List.length transcript_segments <? window_size * 2)%nat then []
  else
    let texts := map text transcript_segments in
    filter_changes (topic_changes texts window_size threshold) window_size.

End Video.

(** The loop of [create_segments_with_topics] (lines 132 to 144);
    [None] is the [IndexError] of [transcript_segments[start_idx]]. *)
Fixpoint segments_loop (transcript_segments : list entry)
    (change_indices : list nat) (start_idx : nat) (segments : list segment)
    : option (list segment) :=
  match change_indices with
  | [] => Some segments
  | change_idx :: rest =>
      let segment_text :=
        Py.join " " (map text (Py.slice transcript_segments start_idx change_idx)) in
      match nth_error transcript_segments start_idx with
      | None => None
      | Some first =>
          let start_time := start first in
          let segments :=
            if negb (String.eqb (Py.strip segment_text) "")
            then (segments ++ [ {| timestamp := format_timestamp start_time;
                                   start_seconds := start_time;
                                   seg_text := Py.strip segment_text |} ])%list
            else segments in
          segments_loop transcript_segments rest change_idx segments
      end
  end.

(** [create_segments_with_topics(transcript_segments, topic_change_indices)]. *)
Definition create_segments_with_topics (transcript_segments : list entry)
    (topic_change_indices : list nat) : option (list segment) :=
  segments_loop transcript_segments
    (topic_change_indices ++ [List.length transcript_segments])%list 0%nat [].

(** The two calls of [summarize_video_with_timestamps] that cut the
    transcript (lines 193 and 196). *)
Definition segment_transcript {sklearn : Sklearn} (transcript : list entry)
    : option (list segment) :=
  create_segments_with_topics transcript
    (detect_topic_changes transcript 5 (35 # 100)).

(** ** The vocabulary of the segment properties *)

(** The consecutive slices [transcript_segments[start_idx:change_idx]]
    the loop goes through. *)
Fixpoint slices (transcript_segments : list entry) (change_indices : list nat)
    (start_idx : nat) : list (list entry) :=
  match change_indices with
  | [] => []
  | change_idx :: rest =>
      Py.slice transcript_segments start_idx change_idx
      :: slices transcript_segments rest change_idx
  end.

(** The segment a slice of entries stands for: none when its text is
    blank, else one that starts with the first entry of the slice. *)
Definition segment_of_slice (entries : list entry) : list segment :=
  match entries with
  | [] => []
  | first :: _ =>
      let segment_text := Py.strip (Py.join " " (map text entries)) in
      if String.eqb segment_text "" then []
      else [ {| timestamp := format_timestamp (start first);
                start_seconds := start first;
                seg_text := segment_text |} ]
  end.

(** The words of the segments, and of the whole transcript: two texts
    with the same words differ in white space only. *)
Definition segment_words (segments : list segment) : list string :=
  flat_map (fun s => Py.split (seg_text s)) segments.

Definition transcript_words (transcript_segments : list entry) : list string :=
  Py.split (Py.join " " (map text transcript_segments)).

Definition increasing (times : list Q) : Prop := StronglySorted Qlt times.

(** The property of the segments as the specification words it, for one
    transcript and one list of indices: the call returns segments, their
    texts give back the text of the transcript, and their start times
    increase strictly. *)
Definition segments_exhaustive (transcript_segments : list entry)
    (topic_change_indices : list nat) : Prop :=
  exists segments,
    create_segments_with_topics transcript_segments topic_change_indices = Some segments
    /\ segment_words segments = transcript_words transcript_segments
    /\ increasing (map start_seconds segments).

(** ** The rest of the module *)

(** [YouTubeTranscriptApi], on the entries of this module. *)
Class Youtube : Type := {
  get_transcript : string -> api_outcome entry
}.

Definition video_id_patterns : list string :=
  [ "(?:youtube\.com\/watch\?v=|youtu\.be\/)([^&\n?#]+)";
    "youtube\.com\/embed\/([^&\n?#]+)";
    "youtube\.com\/v\/([^&\n?#]+)" ].

(** [extract_video_id(url)]. *)
Definition extract_video_id {re_group : ReGroup} (url : string) : option string :=
  fold_right
    (fun pattern later =>
       match re_search_group pattern url with
       | Some id => Some id
       | None => later
       end)
    None video_id_patterns.

(** [get_youtube_transcript(video_url)]: the pair of the transcript and of
    the error message, one of them [None]. *)
Definition get_youtube_transcript {re_group : ReGroup} {youtube : Youtube}
    (video_url : string) : option (list entry) * option string :=
  let video_id := extract_video_id video_url in
  if negb (Py.truthy video_id) then (None, Some "Invalid YouTube URL")
  else
    match video_id with
    | None => (None, Some "Invalid YouTube URL")
    | Some video_id =>
        match get_transcript video_id with
        | Transcript transcript_list => (Some transcript_list, None)
        | TranscriptsDisabled => (None, Some "Transcripts are disabled for this video")
        | NoTranscriptFound => (None, Some "No transcript found for this video")
        | OtherException message =>
            (None, Some ("Error extracting transcript: " ++ message))
        end
    end.

Section Summaries.

Context {nltk : Nltk}.

(** The score of sentence [i] in [summarize_segment] (lines 162 to 169). *)
Definition segment_score (i : nat) (sentence : string) : Q :=
  let stop_words := Py.set_of stopwords_english in
  let words := word_tokenize (Py.lower sentence) in
  let words :=
    filter (fun w => Py.isalnum w && negb (Py.mem w stop_words)) words in
  let position_score := 1 / inject_Z (Z.of_nat i + 1) in
  let length_score :=
    Py.float_min (inject_Z (Z.of_nat (List.length words)) / 15) 1 in
  position_score * (6 # 10) + length_score * (4 # 10).

(** [top_indices] of [summarize_segment] (lines 172 and 173). *)
Definition top_indices (scores : list Q) (max_sentences : Z) : list nat :=
  let ranked :=
    Py.sorted (fun y x => Py.float_ltb (nth x scores 0) (nth y scores 0))
      (Py.range 0 (List.length scores)) in
  Py.sorted Nat.ltb (Py.slice_to ranked max_sentences).

(** [summarize_segment(text, max_sentences)]. *)
Definition summarize_segment (text : string) (max_sentences : Z) : string :=
  let sentences := sent_tokenize text in
  if (Z.of_nat (List.length sentences) <=? max_sentences)%Z then text
  else
    let scores := map (fun item => segment_score (fst item) (snd item))
                    (Py.enumerate sentences) in
    let top_indices := top_indices scores max_sentences in
    Py.join " " (map (fun i => nth i sentences "") top_indices).

End Summaries.

(** The dictionaries [summarize_video_with_timestamps] builds. *)
Record summarized_segment : Type := mk_summarized_segment {
  summary_timestamp : string;
  summary : string
}.

Record video_summary : Type := mk_video_summary {
  video_url : string;
  total_duration : string;
  total_segments : nat;
  segments : list summarized_segment;
  full_summary : string
}.

(** [summarize_video_with_timestamps(video_url)]: the pair of the result
    and of the error message; the outer [None] is an exception that the
    function lets through. *)
Definition summarize_video_with_timestamps {nltk : Nltk} {sklearn : Sklearn}
    {re_group : ReGroup} {youtube : Youtube} (url : string)
    : option (option video_summary * option string) :=
  let '(transcript, error) := get_youtube_transcript url in
  if Py.truthy error then Some (None, error)
  else
    match transcript with
    | None => Some (None, Some "Empty transcript")
    | Some transcript =>
        if (List.length transcript =? 0)%nat then Some (None, Some "Empty transcript")
        else
          let topic_changes := detect_topic_changes transcript 5 (35 # 100) in
          match create_segments_with_topics transcript topic_changes with
          | None => None
          | Some segments =>
              let summarized_segments :=
                map (fun segment =>
                       {| summary_timestamp := timestamp segment;
                          summary := summarize_segment (seg_text segment) 2 |})
                    segments in
              match nth_error transcript (List.length transcript - 1) with
              | None => None
              | Some last_entry =>
                  let total_duration := start last_entry + duration last_entry in
                  Some (Some {| video_url := url;
                                total_duration := format_timestamp total_duration;
                                total_segments := List.length summarized_segments;
                                segments := summarized_segments;
                                full_summary :=
                                  Py.join " " (map summary summarized_segments) |},
                        None)
              end
          end
    end.

(** The candidates [filter_changes] keeps, as a recursion on the list:
    [last_change] is the last candidate kept so far. *)
Fixpoint kept_changes (window_size : nat) (last_change : Z) (candidates : list nat)
    : list nat :=
  match candidates with
  | [] => []
  | change :: rest =>
      if (Z.of_nat change - last_change >=? Z.of_nat window_size)%Z
      then change :: kept_changes window_size (Z.of_nat change) rest
      else kept_changes window_size last_change rest
  end.

End video_summarizer_api.
(** * Stand-ins for the libraries, used by the examples

    Small executable tokenizers and a trivial vectorizer, so that the
    functions above can be run on concrete texts. *)

Module Examples.

Import Lib.

Definition is_terminator (c : ascii) : bool :=
  let n := nat_of_ascii c in ((n =? 46) || (n =? 33) || (n =? 63))%nat.

(** Sentences end at [.], [!] or [?] followed by white space or by the end
    of the text. *)
Fixpoint sentences_acc (acc : string) (s : string) : list string :=
  match s with
  | EmptyString => match acc with EmptyString => [] | _ => [acc] end
  | String c s' =>
      if is_terminator c then
        match s' with
        | EmptyString => [acc ++ String c EmptyString]
        | String c' s'' =>
            if Py.isspace c'
            then (acc ++ String c EmptyString) :: sentences_acc EmptyString s''
            else sentences_acc (acc ++ String c EmptyString) s'
        end
      else sentences_acc (acc ++ String c EmptyString) s'
  end.

Definition simple_nltk : Nltk := {|
  sent_tokenize := sentences_acc EmptyString;
  word_tokenize := Py.split;
  stopwords_english := ["the"; "a"; "an"; "is"; "of"; "and"; "on"]
|}.

(** A regular-expression engine that finds nothing and replaces nothing. *)
Definition simple_re : Re := {|
  re_sub := fun _ _ s => s;
  re_findall := fun _ _ => [];
  re_search := fun _ _ => false
|}.

(** A vectorizer that always raises on sentence lists, and finds any two
    windows unrelated. *)
Definition simple_sklearn : Sklearn := {|
  tfidf_sentence_sums := fun _ => None;
  tfidf_cosine := fun _ _ => Some 0%Q
|}.

(** Two enumeration orders of a set: the elements in the order of their
    last occurrences, and the same backwards. *)
Definition left_to_right : SetOrder := {|
  list_of_set := nodup string_dec;
  list_of_set_NoDup := NoDup_nodup string_dec;
  list_of_set_In := nodup_In string_dec
|}.

Definition right_to_left : SetOrder := {|
  list_of_set := fun l => rev (nodup string_dec l);
  list_of_set_NoDup := fun l => NoDup_rev (NoDup_nodup string_dec l);
  list_of_set_In := fun l x =>
    iff_trans (iff_sym (in_rev (nodup string_dec l) x)) (nodup_In string_dec l x)
|}.

(** Transcripts for the examples. *)
Definition three_entries : list video_summarizer_api.entry :=
  [ video_summarizer_api.mk_entry "alpha" 0 2;
    video_summarizer_api.mk_entry "beta" 2 2;
    video_summarizer_api.mk_entry "gamma" 4 2 ].

Definition same_start : list video_summarizer_api.entry :=
  [ video_summarizer_api.mk_entry "alpha" 0 2;
    video_summarizer_api.mk_entry "beta" 0 2 ].

Definition nine_blank : list video_summarizer_api.entry :=
  map (fun k => video_summarizer_api.mk_entry " " (inject_Z (Z.of_nat k)) 1) (seq 0 9).

Definition nine_entries : list video_summarizer_api.entry :=
  map (fun k => video_summarizer_api.mk_entry "word" (inject_Z (Z.of_nat k) + 7) 1) (seq 0 9).

End Examples.
(** * Facts about the Python built-ins *)

Module PyFacts.

Local Open Scope Q_scope.

(** The floor is the only integer within one below its argument. *)
Lemma Qfloor_unique (x : Q) (z : Z) :
  inject_Z z <= x -> x < inject_Z (z + 1) -> Qfloor x = z.
Proof.
  intros Hlo Hhi.
  assert (H1 : (z <= Qfloor x)%Z).
  { rewrite <- (Qfloor_Z z). now apply Qfloor_resp_le. }
  assert (H2 : (Qfloor x < z + 1)%Z).
  { rewrite Zlt_Qlt. eapply Qle_lt_trans; [apply Qfloor_le | exact Hhi]. }
  lia.
Qed.

Lemma Qfloor_div_pos (x : Q) (n : positive) :
  Qfloor (x / inject_Z (Z.pos n)) = (Qfloor x / Z.pos n)%Z.
Proof.
  destruct x as [a b]. unfold Qdiv, Qinv, Qmult, Qfloor, inject_Z. simpl.
  rewrite Z.mul_1_r, Pos2Z.inj_mul.
  symmetry. apply Z.div_div; lia.
Qed.

Lemma Qfloor_sub_Z (x : Q) (k : Z) :
  Qfloor (x - inject_Z k) = (Qfloor x - k)%Z.
Proof.
  apply Qfloor_unique.
  - unfold Z.sub. rewrite inject_Z_plus, inject_Z_opp.
    apply Qplus_le_compat; [apply Qfloor_le | apply Qle_refl].
  - replace (Qfloor x - k + 1)%Z with ((Qfloor x + 1) + - k)%Z by lia.
    rewrite inject_Z_plus, inject_Z_opp.
    apply Qplus_lt_le_compat; [apply Qlt_floor | apply Qle_refl].
Qed.

(** [int(x % m)] is the integer part of [x], reduced modulo [m]. *)
Lemma Qfloor_fmod (x : Q) (m : positive) :
  Qfloor (Py.fmod x (inject_Z (Z.pos m))) = (Qfloor x mod Z.pos m)%Z.
Proof.
  unfold Py.fmod. rewrite <- inject_Z_mult, Qfloor_sub_Z, Qfloor_div_pos.
  rewrite Z.mod_eq by lia. reflexivity.
Qed.

Lemma fmod_nonneg (x : Q) (m : positive) :
  0 <= Py.fmod x (inject_Z (Z.pos m)).
Proof.
  assert (H : inject_Z (Qfloor (Py.fmod x (inject_Z (Z.pos m))))
              <= Py.fmod x (inject_Z (Z.pos m))) by apply Qfloor_le.
  rewrite Qfloor_fmod in H.
  eapply Qle_trans; [| exact H].
  change 0 with (inject_Z 0). rewrite <- Zle_Qle.
  apply Z.mod_pos_bound. lia.
Qed.

Lemma int_of_float_Z (z : Z) : Py.int_of_float (inject_Z z) = z.
Proof.
  unfold Py.int_of_float. destruct (Qle_bool 0 (inject_Z z)).
  - apply Qfloor_Z.
  - apply Qceiling_Z.
Qed.

Lemma int_of_float_nonneg (x : Q) : 0 <= x -> Py.int_of_float x = Qfloor x.
Proof.
  intros H. unfold Py.int_of_float.
  apply Qle_bool_iff in H. now rewrite H.
Qed.

(** On the numbers below one hundred, [{:02d}] writes the tens digit and
    the units digit. *)
Lemma format_02d_two_digits (n : Z) :
  (0 <= n < 100)%Z -> Py.format_02d n = video_summarizer_api.two_digits n.
Proof.
  intros Hn.
  assert (Hall : forallb
            (fun k => String.eqb (Py.format_02d (Z.of_nat k))
                        (video_summarizer_api.two_digits (Z.of_nat k)))
            (seq 0 100) = true) by (vm_compute; reflexivity).
  rewrite forallb_forall in Hall.
  specialize (Hall (Z.to_nat n)).
  rewrite Z2Nat.id in Hall by lia.
  apply String.eqb_eq, Hall, in_seq. lia.
Qed.

(** The numeral of an integer has at least one character, so the padded
    field has at least two. *)
Lemma str_nonempty (n : Z) : (1 <= String.length (Py.str n))%nat.
Proof.
  unfold Py.str.
  assert (Hu : forall d, (1 <= String.length (NilZero.string_of_uint d))%nat).
  { intros d. unfold NilZero.string_of_uint. destruct d; simpl; lia. }
  unfold NilZero.string_of_int.
  destruct (Z.to_int n); [apply Hu | simpl; lia].
Qed.

Lemma format_02d_width (n : Z) : (2 <= String.length (Py.format_02d n))%nat.
Proof.
  unfold Py.format_02d.
  pose proof (str_nonempty n) as H.
  destruct (String.length (Py.str n) <? 2)%nat eqn:E.
  - simpl. lia.
  - apply Nat.ltb_ge in E. exact E.
Qed.

(** ** [split], [strip] and [join] *)

Example split_words : Py.split "  two   words " = ["two"; "words"].
Proof. reflexivity. Qed.

Example strip_both_ends : Py.strip "  a b  " = "a b".
Proof. reflexivity. Qed.

Example join_words : Py.join " " ["a"; "b"; "c"] = "a b c".
Proof. reflexivity. Qed.

Example format_02d_pads : Py.format_02d 5 = "05" /\ Py.format_02d 125 = "125".
Proof. split; reflexivity. Qed.

Lemma split_acc_app_space (a b : string) (c : ascii) (acc : string) :
  Py.isspace c = true ->
  Py.split_acc acc (a ++ String c b)
  = (Py.split_acc acc a ++ Py.split b)%list.
Proof.
  intros Hc. revert acc.
  induction a as [| x a IH]; intros acc; simpl.
  - rewrite Hc. destruct acc; reflexivity.
  - destruct (Py.isspace x).
    + destruct acc; simpl; now rewrite IH.
    + apply IH.
Qed.

Lemma split_app_space (a b : string) :
  Py.split (a ++ " " ++ b) = (Py.split a ++ Py.split b)%list.
Proof. apply split_acc_app_space. reflexivity. Qed.

Lemma split_lstrip (s : string) : Py.split (Py.lstrip s) = Py.split s.
Proof.
  induction s as [| c s IH]; simpl; [reflexivity |].
  destruct (Py.isspace c) eqn:E.
  - rewrite IH. unfold Py.split. simpl. now rewrite E.
  - reflexivity.
Qed.

Lemma split_acc_rstrip (s acc : string) :
  Py.split_acc acc (Py.rstrip s) = Py.split_acc acc s.
Proof.
  revert acc. induction s as [| c s IH]; intros acc; [reflexivity |].
  simpl Py.rstrip.
  destruct (Py.rstrip s) as [| r0 r] eqn:Er.
  - destruct (Py.isspace c) eqn:E; simpl; rewrite E.
    + rewrite <- (IH EmptyString). simpl. destruct acc; reflexivity.
    + rewrite <- IH. reflexivity.
  - simpl. destruct (Py.isspace c).
    + rewrite <- (IH EmptyString). reflexivity.
    + rewrite <- IH. reflexivity.
Qed.

(** Stripping a string does not change its words. *)
Lemma split_strip (s : string) : Py.split (Py.strip s) = Py.split s.
Proof.
  unfold Py.strip, Py.split at 1. rewrite split_acc_rstrip.
  apply split_lstrip.
Qed.

(** A string that strips to nothing has no word. *)
Lemma split_blank (s : string) : Py.strip s = "" -> Py.split s = [].
Proof. intros H. rewrite <- split_strip, H. reflexivity. Qed.

Lemma join_cons (sep x : string) (l : list string) :
  l <> [] -> Py.join sep (x :: l) = x ++ sep ++ Py.join sep l.
Proof. destruct l; [congruence | reflexivity]. Qed.

(** The words of a joined list are the words of its parts, in order. *)
Lemma split_join_app (l1 l2 : list string) :
  Py.split (Py.join " " (l1 ++ l2))
  = (Py.split (Py.join " " l1) ++ Py.split (Py.join " " l2))%list.
Proof.
  induction l1 as [| x l1 IH]; [reflexivity |].
  destruct l1 as [| y l1].
  - destruct l2 as [| z l2].
    + simpl. now rewrite app_nil_r.
    + change (([x] ++ z :: l2)%list) with (x :: z :: l2).
      rewrite join_cons by discriminate.
      apply split_app_space.
  - change (((x :: y :: l1) ++ l2)%list) with (x :: ((y :: l1) ++ l2)%list).
    rewrite join_cons by discriminate.
    rewrite (join_cons " " x (y :: l1)) by discriminate.
    rewrite !split_app_space, IH. now rewrite app_assoc.
Qed.

(** ** Slices *)

Lemma slice_app_skipn {A : Type} (l : list A) (lo hi : nat) :
  (lo <= hi)%nat -> (Py.slice l lo hi ++ skipn hi l)%list = skipn lo l.
Proof.
  intros H. unfold Py.slice.
  replace (skipn hi l) with (skipn (hi - lo) (skipn lo l)).
  - apply firstn_skipn.
  - rewrite skipn_skipn. f_equal. lia.
Qed.

Lemma slice_all {A : Type} (l : list A) : Py.slice l 0 (List.length l) = l.
Proof. unfold Py.slice. rewrite Nat.sub_0_r. simpl. apply firstn_all. Qed.

(** ** Writing into a list *)

Lemma list_set_length {A : Type} (l : list A) (i : nat) (x : A) :
  List.length (Py.list_set l i x) = List.length l.
Proof.
  revert i. induction l as [| h l IH]; intros [| i]; simpl; auto.
Qed.

Lemma nth_list_set_other {A : Type} (l : list A) (i k : nat) (x d : A) :
  k <> i -> nth k (Py.list_set l i x) d = nth k l d.
Proof.
  revert i k. induction l as [| h l IH]; intros [| i] [| k] H; simpl; auto.
  congruence.
Qed.

Lemma nth_list_set_same {A : Type} (l : list A) (i : nat) (x d : A) :
  (i < List.length l)%nat -> nth i (Py.list_set l i x) d = x.
Proof.
  revert i. induction l as [| h l IH]; intros [| i] H; simpl in *; try lia; auto.
  apply IH. lia.
Qed.

Lemma list_set_outside {A : Type} (l : list A) (i : nat) (x : A) :
  (List.length l <= i)%nat -> Py.list_set l i x = l.
Proof.
  revert i. induction l as [| h l IH]; intros [| i] H; simpl in *; try lia; auto.
  f_equal. apply IH. lia.
Qed.

Lemma list_sum_list_set (v : list nat) (k : nat) :
  (k < List.length v)%nat ->
  list_sum (Py.list_set v k (nth k v O + 1)%nat) = (list_sum v + 1)%nat.
Proof.
  revert k. induction v as [| h v IH]; intros [| k] H; simpl in *; try lia.
  rewrite IH by lia. lia.
Qed.

Lemma index_bound (x : string) (l : list string) (k : nat) :
  Py.index x l = Some k -> (k < List.length l)%nat.
Proof.
  revert k. induction l as [| y l IH]; intros k; simpl; [discriminate |].
  destruct (String.eqb x y).
  - intros [= <-]. lia.
  - destruct (Py.index x l) as [k' |]; simpl; [| discriminate].
    intros [= <-]. specialize (IH k' eq_refl). lia.
Qed.

(** ** Sorting *)

Lemma insert_sorted_perm {A : Type} (before : A -> A -> bool) (x : A) (l : list A) :
  Permutation (Py.insert_sorted before x l) (x :: l).
Proof.
  induction l as [| y l IH]; simpl; [reflexivity |].
  destruct (before y x); [| reflexivity].
  rewrite IH. apply perm_swap.
Qed.

Lemma sorted_perm {A : Type} (before : A -> A -> bool) (l : list A) :
  Permutation (Py.sorted before l) l.
Proof.
  induction l as [| x l IH]; simpl; [reflexivity |].
  rewrite insert_sorted_perm. now constructor.
Qed.

Lemma fold_left_ext {A B : Type} (f g : A -> B -> A) (l : list B) (a : A) :
  (forall x y, f x y = g x y) -> fold_left f l a = fold_left g l a.
Proof.
  intros H. revert a. induction l as [| y l IH]; intros a; simpl; [reflexivity |].
  now rewrite H, IH.
Qed.

Lemma list_sum_perm (l l' : list nat) :
  Permutation l l' -> list_sum l = list_sum l'.
Proof. induction 1; simpl; lia. Qed.

End PyFacts.
(** * Properties of backend_api.py *)

Module BackendSpec.

Import Lib backend_api.

Local Open Scope Q_scope.

(** ** Comparisons of floats *)

Lemma float_ltb_lt (a b : Q) : Py.float_ltb a b = true <-> a < b.
Proof.
  unfold Py.float_ltb. rewrite negb_true_iff.
  split; intros H.
  - apply Qnot_le_lt. intros Hle. apply Qle_bool_iff in Hle. congruence.
  - destruct (Qle_bool b a) eqn:E; [| reflexivity].
    apply Qle_bool_iff in E. exfalso. now apply (Qlt_not_le a b).
Qed.

Lemma float_ltb_ge (a b : Q) : Py.float_ltb a b = false <-> b <= a.
Proof.
  unfold Py.float_ltb. rewrite negb_false_iff. apply Qle_bool_iff.
Qed.

Lemma float_ltb_min (a b c : Q) :
  Py.float_ltb a (Py.float_min b c) = Py.float_ltb a b && Py.float_ltb a c.
Proof.
  apply eq_true_iff_eq. rewrite andb_true_iff, !float_ltb_lt.
  unfold Py.float_min. destruct (Py.float_ltb c b) eqn:E.
  - apply float_ltb_lt in E. split; [| tauto].
    intros H. split; [| exact H]. now apply Qlt_trans with c.
  - apply float_ltb_ge in E. split; [| tauto].
    intros H. split; [exact H |]. now apply Qlt_le_trans with b.
Qed.

(** [int(x * p / q)] for a count [x] is the integer quotient. *)
Lemma int_of_float_scale (x : Z) (p q : positive) :
  (0 <= x)%Z ->
  Py.int_of_float (inject_Z x * (Z.pos p # q)) = (Z.pos p * x / Z.pos q)%Z.
Proof.
  intros Hx. rewrite PyFacts.int_of_float_nonneg.
  - unfold Qfloor, Qmult, inject_Z. cbn [Qnum Qden].
    rewrite Pos.mul_1_l. f_equal. lia.
  - unfold Qle, Qmult, inject_Z. cbn [Qnum Qden]. nia.
Qed.

(** ** Position scores *)

Lemma early_bucket (n_sentences i : nat) :
  Py.float_ltb (inject_Z (Z.of_nat i))
    (Py.float_min 5 (inject_Z (Z.of_nat n_sentences) * (1 # 10)))
  = ((i <? 5) && (10 * i <? n_sentences))%nat.
Proof.
  rewrite float_ltb_min. f_equal.
  - apply eq_true_iff_eq. rewrite float_ltb_lt, Nat.ltb_lt.
    unfold Qlt, inject_Z. simpl. lia.
  - apply eq_true_iff_eq. rewrite float_ltb_lt, Nat.ltb_lt.
    unfold Qlt, Qmult, inject_Z. simpl. lia.
Qed.

(** C3, amended.  Among [n] sentences the position score of sentence [i]
    is 3.0 for the first, 2.0 for the second, 1.5 for an index from 2 to 4
    that lies in the first tenth of the document ([10 * i < n]), and for
    the others 1.8 for the last sentence, 1.3 for the two sentences before
    the last, 1.0 for the rest. *)
Theorem position_score_buckets (n i : nat) :
  (i < n)%nat ->
  let early := (i < 5 /\ 10 * i < n)%nat in
  (i = 0%nat -> position_score n i = 3)
  /\ (i = 1%nat -> position_score n i = 2)
  /\ ((2 <= i)%nat -> early -> position_score n i = 15 # 10)
  /\ ((2 <= i)%nat -> ~ early -> (i + 1 = n)%nat -> position_score n i = 18 # 10)
  /\ ((2 <= i)%nat -> ~ early -> (i + 2 = n \/ i + 3 = n)%nat ->
      position_score n i = 13 # 10)
  /\ ((2 <= i)%nat -> ~ early -> (i + 3 < n)%nat -> position_score n i = 1).
Proof.
  intros Hi early. unfold position_score. rewrite early_bucket.
  assert (Hearly : ((i <? 5) && (10 * i <? n))%nat = true <-> early).
  { unfold early. now rewrite andb_true_iff, !Nat.ltb_lt. }
  repeat split.
  - intros ->. reflexivity.
  - intros ->. reflexivity.
  - intros H2 He. apply Hearly in He. rewrite He.
    destruct i as [| [| i]]; [lia | lia | reflexivity].
  - intros H2 He Hn.
    rewrite (not_true_is_false _ (fun E => He (proj1 Hearly E))).
    destruct i as [| [| i]]; [lia | lia |]. cbn [Nat.eqb].
    rewrite !Z.geb_leb.
    now rewrite (proj2 (Z.leb_le _ _)) by lia.
  - intros H2 He Hn.
    rewrite (not_true_is_false _ (fun E => He (proj1 Hearly E))).
    destruct i as [| [| i]]; [lia | lia |]. cbn [Nat.eqb].
    rewrite !Z.geb_leb.
    rewrite (proj2 (Z.leb_gt _ _)) by lia.
    now rewrite (proj2 (Z.leb_le _ _)) by lia.
  - intros H2 He Hn.
    rewrite (not_true_is_false _ (fun E => He (proj1 Hearly E))).
    destruct i as [| [| i]]; [lia | lia |]. cbn [Nat.eqb].
    rewrite !Z.geb_leb.
    now rewrite !(proj2 (Z.leb_gt _ _)) by lia.
Qed.

Lemma position_score_buckets_witness :
  (17 < 20)%nat /\ position_score 20 17 = 13 # 10 /\ position_score 20 16 = 1.
Proof.
  split; [lia |].
  destruct (position_score_buckets 20 17 ltac:(lia)) as (_ & _ & _ & _ & H13 & _).
  destruct (position_score_buckets 20 16 ltac:(lia)) as (_ & _ & _ & _ & _ & H1).
  split; [apply H13 | apply H1]; lia.
Defined.

(** C3, as stated, fails: of twenty sentences, the one at index 16 is the
    third before the last, and its position score is 1.0, not 1.3. *)
Lemma position_score_counterexample :
  position_as_claimed 20 16 = 13 # 10
  /\ position_score 20 16 = 1
  /\ ~ position_score 20 16 == position_as_claimed 20 16.
Proof.
  split; [reflexivity |]. split; [reflexivity |].
  vm_compute. discriminate.
Qed.

(** ** The length estimator *)

Lemma average_above (S W : Z) :
  (0 <= S)%Z ->
  Py.float_ltb 25 (if (S >? 0)%Z then inject_Z W / inject_Z S else 0)
  = ((0 <? S)%Z && (25 * S <? W)%Z).
Proof.
  intros HS. destruct S as [| p | p]; [reflexivity | | lia].
  cbn [Z.gtb Z.compare Z.ltb andb].
  apply eq_true_iff_eq. rewrite float_ltb_lt, Z.ltb_lt.
  unfold Qlt, Qdiv, Qmult, Qinv, inject_Z. cbn [Qnum Qden]. lia.
Qed.

Lemma average_below (S W : Z) :
  (0 <= S)%Z ->
  Py.float_ltb (if (S >? 0)%Z then inject_Z W / inject_Z S else 0) 10
  = ((S <=? 0)%Z || (W <? 10 * S)%Z).
Proof.
  intros HS. destruct S as [| p | p]; [reflexivity | | lia].
  cbn [Z.gtb Z.leb Z.compare orb].
  apply eq_true_iff_eq. rewrite float_ltb_lt, Z.ltb_lt.
  unfold Qlt, Qdiv, Qmult, Qinv, inject_Z. cbn [Qnum Qden]. lia.
Qed.

Lemma bracket_target_ge_2 (S W : Z) : (2 <= bracket_target S W)%Z.
Proof.
  unfold bracket_target.
  repeat match goal with |- context [if ?b then _ else _] => destruct b end; lia.
Qed.

Lemma optimal_length_exact (S W : Z) :
  (0 <= S)%Z ->
  optimal_length S W = Z.min (Z.max 2 (Z.min (adjusted_target S W) 12)) S.
Proof.
  intros HS. unfold optimal_length.
  rewrite average_above, average_below by assumption.
  rewrite !(int_of_float_scale S) by assumption.
  fold (bracket_target S W).
  pose proof (bracket_target_ge_2 S W) as H2.
  rewrite !int_of_float_scale by lia.
  reflexivity.
Qed.

(** C4, amended.  For a text of [S] sentences and [W] words the estimator
    returns [min(max(2, min(t, 12)), S)], where [t] is the bracket target
    (W<100: max(2, floor(0.7*S)); W<300: max(2, floor(0.5*S)); W<800:
    max(3, floor(0.35*S)); W<2000: max(4, floor(0.25*S)); else max(5,
    floor(0.18*S))) shrunk to max(2, floor(0.8*t)) when the average
    sentence length exceeds 25 and grown to floor(1.2*t) when it is below
    10.  The value never exceeds 12 nor [S]; it is at least 2 when the
    text has at least two sentences, and it is [S] when it has fewer. *)
Theorem optimal_length_bounds {nltk : Nltk} (text : string) :
  let S := Z.of_nat (List.length (sent_tokenize text)) in
  let W := Z.of_nat (List.length (Py.split text)) in
  let result := calculate_optimal_summary_length text in
  (result = Z.min (Z.max 2 (Z.min (adjusted_target S W) 12)) S
   /\ result <= 12 /\ result <= S
   /\ (2 <= S -> 2 <= result)
   /\ (S < 2 -> result = S))%Z.
Proof.
  intros S W result.
  assert (Hres : result = Z.min (Z.max 2 (Z.min (adjusted_target S W) 12)) S).
  { unfold result, calculate_optimal_summary_length.
    apply optimal_length_exact. unfold S. lia. }
  split; [exact Hres |]. rewrite Hres. lia.
Qed.

(** C4, as stated, fails on a text of one sentence: the estimator
    returns 1, which is below 2. *)
Lemma optimal_length_counterexample :
  @sent_tokenize Examples.simple_nltk "Hello world." = ["Hello world."]
  /\ @calculate_optimal_summary_length Examples.simple_nltk "Hello world." = 1%Z
  /\ ~ (2 <= @calculate_optimal_summary_length Examples.simple_nltk "Hello world."
        <= 12)%Z.
Proof.
  split; [reflexivity |]. split; [reflexivity |].
  vm_compute. intros [H _]. now apply H.
Qed.

(** ** The redundancy check *)

Lemma mem_In (x : string) (l : list string) : Py.mem x l = true <-> In x l.
Proof.
  unfold Py.mem. rewrite existsb_exists. split.
  - intros (y & Hy & E). apply String.eqb_eq in E. now subst.
  - intros H. exists x. split; [exact H | apply String.eqb_refl].
Qed.

Lemma intersection_In (a b : list string) (x : string) :
  In x (Py.intersection a b) <-> In x a /\ In x b.
Proof. unfold Py.intersection. now rewrite filter_In, mem_In. Qed.

Lemma union_In (a b : list string) (x : string) :
  In x (Py.union a b) <-> In x a \/ In x b.
Proof.
  unfold Py.union. rewrite in_app_iff, filter_In, negb_true_iff.
  split; [tauto |]. intros [H | H]; [now left |].
  destruct (Py.mem x a) eqn:E; [left; now apply mem_In | now right].
Qed.

Lemma intersection_NoDup (a b : list string) :
  NoDup a -> NoDup (Py.intersection a b).
Proof. apply NoDup_filter. Qed.

Lemma union_NoDup (a b : list string) :
  NoDup a -> NoDup b -> NoDup (Py.union a b).
Proof.
  intros Ha Hb. apply NoDup_app; [exact Ha | now apply NoDup_filter |].
  intros x Hx Hf. apply filter_In in Hf. destruct Hf as [_ Hf].
  apply negb_true_iff in Hf. apply mem_In in Hx. congruence.
Qed.

Lemma intersection_length_comm (a b : list string) :
  NoDup a -> NoDup b ->
  List.length (Py.intersection a b) = List.length (Py.intersection b a).
Proof.
  intros Ha Hb. apply Permutation_length, NoDup_Permutation;
    try now apply intersection_NoDup.
  intros x. rewrite !intersection_In. tauto.
Qed.

Lemma union_length_comm (a b : list string) :
  NoDup a -> NoDup b ->
  List.length (Py.union a b) = List.length (Py.union b a).
Proof.
  intros Ha Hb. apply Permutation_length, NoDup_Permutation;
    try now apply union_NoDup.
  intros x. rewrite !union_In. tauto.
Qed.



Section Redundancy.

Context {nltk : Nltk}.




(** One turn of the strict pass, while the selection is short of the
    target. *)
Lemma strict_pass_step (filtered : list string) (max_sentences : Z)
    (idx : nat) (score : R) (rest : list (nat * R)) (state : selection) :
  (Z.of_nat (List.length (fst state)) < max_sentences)%Z ->
  strict_pass filtered max_sentences ((idx, score) :: rest) state
  = strict_pass filtered max_sentences rest
      (if is_redundant filtered (nth idx filtered "") (fst state)
       then state
       else ((fst state ++ [idx])%list, (snd state ++ [nth idx filtered ""])%list)).
Proof.
  intros Hshort. destruct state as [selected_indices selected_sentences].
  cbn [strict_pass fst snd].
  rewrite Z.geb_leb, (proj2 (Z.leb_gt _ _)) by exact Hshort.
  destruct (is_redundant _ _ _); reflexivity.
Qed.



(** The two lists of the state go together. *)
Lemma strict_pass_sentences (filtered : list string) (max_sentences : Z)
    (ranked : list (nat * R)) :
  forall state : selection,
  snd state = map (fun i => nth i filtered "") (fst state) ->
  snd (strict_pass filtered max_sentences ranked state)
  = map (fun i => nth i filtered "") (fst (strict_pass filtered max_sentences ranked state)).
Proof.
  induction ranked as [| [idx score] ranked IH]; intros state Hstate; [exact Hstate |].
  destruct state as [selected_indices selected_sentences].
  cbn [strict_pass].
  destruct (Z.of_nat (List.length selected_indices) >=? max_sentences)%Z; [exact Hstate |].
  destruct (is_redundant filtered (nth idx filtered "") selected_indices);
    [now apply IH |].
  apply IH. cbn [fst snd] in *. now rewrite map_app, Hstate.
Qed.


(** C10.  When the lower-cased token set of one of two sentences is
    empty, the check answers False at every threshold; a candidate whose
    token set is empty is never found redundant, and the strict pass,
    while short of the target, appends it. *)
Theorem empty_token_set_never_similar (sent1 sent2 : string) (threshold : Q) :
  Py.set_of (word_tokenize (Py.lower sent1)) = []
  \/ Py.set_of (word_tokenize (Py.lower sent2)) = [] ->
  are_sentences_similar sent1 sent2 threshold = false
  /\ (Py.set_of (word_tokenize (Py.lower sent1)) = [] ->
      forall (filtered : list string) (selected : list nat),
        is_redundant filtered sent1 selected = false)
  /\ (Py.set_of (word_tokenize (Py.lower sent1)) = [] ->
      forall (filtered : list string) (max_sentences : Z) (idx : nat) (score : R)
             (rest : list (nat * R)) (state : selection),
        nth idx filtered "" = sent1 ->
        (Z.of_nat (List.length (fst state)) < max_sentences)%Z ->
        strict_pass filtered max_sentences ((idx, score) :: rest) state
        = strict_pass filtered max_sentences rest
            ((fst state ++ [idx])%list, (snd state ++ [sent1])%list)).
Proof.
  intros Hempty.
  assert (Hfalse : forall s1 s2 t,
             Py.set_of (word_tokenize (Py.lower s1)) = []
             \/ Py.set_of (word_tokenize (Py.lower s2)) = [] ->
             are_sentences_similar s1 s2 t = false).
  { intros s1 s2 t [H | H]; unfold are_sentences_similar; rewrite H.
    - reflexivity.
    - cbn [List.length Nat.eqb]. now rewrite orb_true_r. }
  assert (Hred : Py.set_of (word_tokenize (Py.lower sent1)) = [] ->
                 forall filtered selected, is_redundant filtered sent1 selected = false).
  { intros H filtered selected. unfold is_redundant.
    induction selected as [| j selected IH]; [reflexivity |].
    cbn [existsb]. rewrite IH, orb_false_r. apply Hfalse. now left. }
  split; [now apply Hfalse |]. split; [exact Hred |].
  intros H filtered max_sentences idx score rest state Hidx Hshort.
  rewrite strict_pass_step by exact Hshort.
  now rewrite Hidx, (Hred H).
Qed.

End Redundancy.


Lemma empty_token_set_never_similar_witness :
  @are_sentences_similar Examples.simple_nltk "   " "dogs bark loudly" (-1) = false.
Proof.
  refine (proj1 (@empty_token_set_never_similar Examples.simple_nltk
                   "   " "dogs bark loudly" (-1) _)).
  left. reflexivity.
Defined.

(** ** The similarity matrix *)

Lemma index_In (x : string) (l : list string) :
  In x l -> exists k, Py.index x l = Some k.
Proof.
  induction l as [| y l IH]; [intros [] |].
  intros H. simpl. destruct (String.eqb x y) eqn:E; [now exists 0%nat |].
  destruct H as [-> | H]; [rewrite String.eqb_refl in E; discriminate |].
  destruct (IH H) as (k & ->). now exists (S k).
Qed.

Lemma count_words_sum (all_words sent : list string) :
  forall vector : list nat,
  incl sent all_words ->
  List.length vector = List.length all_words ->
  list_sum (count_words all_words sent vector) = (list_sum vector + List.length sent)%nat.
Proof.
  unfold count_words.
  induction sent as [| w sent IH]; intros vector Hincl Hlen; simpl; [lia |].
  assert (Hw : In w all_words) by (apply Hincl; now left).
  rewrite (proj2 (mem_In w all_words) Hw).
  destruct (index_In w all_words Hw) as (k & Hk). rewrite Hk.
  pose proof (PyFacts.index_bound _ _ _ Hk) as Hbound.
  rewrite IH.
  - rewrite PyFacts.list_sum_list_set by lia. lia.
  - intros x Hx. apply Hincl. now right.
  - now rewrite PyFacts.list_set_length.
Qed.

Lemma dot_self_zero (v : list nat) : Np.dot v v = 0%nat -> list_sum v = 0%nat.
Proof.
  induction v as [| x v IH]; simpl; [reflexivity |].
  intros H. assert (x = 0%nat) by nia. subst. simpl in *. now apply IH.
Qed.

Lemma list_sum_repeat_zero (n : nat) : list_sum (repeat 0%nat n) = 0%nat.
Proof. induction n; simpl; auto. Qed.

(** The denominator of the cosine distance vanishes only for a vector of
    zeros. *)
Lemma cosine_distance_defined (u v : list nat) :
  list_sum u <> 0%nat -> list_sum v <> 0%nat ->
  exists d, cosine_distance u v = Some d.
Proof.
  intros Hu Hv. unfold cosine_distance.
  destruct (Req_dec_T _ 0%R) as [Hzero | _]; [| eauto].
  exfalso.
  assert (Hpos : forall w, list_sum w <> 0%nat -> sqrt (INR (Np.dot w w)) <> 0%R).
  { intros w Hw Hs. apply sqrt_eq_0 in Hs; [| apply pos_INR].
    apply Hw, dot_self_zero. now apply INR_eq. }
  apply Rmult_integral in Hzero. destruct Hzero as [H | H].
  - now apply (Hpos u).
  - now apply (Hpos v).
Qed.

Lemma fold_left_invariant {A B : Type} (P : A -> Prop) (f : A -> B -> A)
    (l : list B) (a : A) :
  (forall a x, P a -> P (f a x)) -> P a -> P (fold_left f l a).
Proof.
  intros Hstep. revert a. induction l as [| x l IH]; intros a Ha; simpl; auto.
Qed.

Lemma Forall_list_set {A : Type} (P : A -> Prop) (l : list A) (i : nat) (x : A) :
  Forall P l -> P x -> Forall P (Py.list_set l i x).
Proof.
  intros Hl Hx. revert i. induction Hl as [| h l Hh Hl IH]; intros [| i]; simpl;
    constructor; auto.
Qed.

Lemma cell_set_cell_other (m : list (list R)) (i j a b : nat) (x : R) :
  a <> i \/ b <> j -> Np.cell (Np.set_cell m i j x) a b = Np.cell m a b.
Proof.
  intros H. unfold Np.cell, Np.set_cell.
  destruct (Nat.eq_dec a i) as [-> | Ha].
  - destruct H as [H | H]; [congruence |].
    destruct (Nat.lt_ge_cases i (List.length m)) as [Hi | Hi].
    + rewrite PyFacts.nth_list_set_same by exact Hi.
      now apply PyFacts.nth_list_set_other.
    + now rewrite PyFacts.list_set_outside by exact Hi.
  - now rewrite PyFacts.nth_list_set_other by exact Ha.
Qed.

Lemma set_cell_shape (n : nat) (m : list (list R)) (i j : nat) (x : R) :
  List.length m = n /\ Forall (fun row => List.length row = n) m ->
  List.length (Np.set_cell m i j x) = n
  /\ Forall (fun row => List.length row = n) (Np.set_cell m i j x).
Proof.
  intros [Hlen Hrows]. unfold Np.set_cell.
  split; [now rewrite PyFacts.list_set_length |].
  destruct (Nat.lt_ge_cases i (List.length m)) as [Hi | Hi].
  - apply Forall_list_set; [exact Hrows |].
    rewrite PyFacts.list_set_length.
    rewrite Forall_forall in Hrows. apply Hrows, nth_In, Hi.
  - now rewrite PyFacts.list_set_outside by exact Hi.
Qed.

Lemma zeros2_shape (n : nat) :
  List.length (Np.zeros2 n n) = n
  /\ Forall (fun row => List.length row = n) (Np.zeros2 n n).
Proof.
  unfold Np.zeros2, Np.zeros. split; [apply repeat_length |].
  apply Forall_forall. intros row Hrow.
  apply repeat_spec in Hrow. subst. apply repeat_length.
Qed.

Lemma zeros2_cell (n a b : nat) : Np.cell (Np.zeros2 n n) a b = 0%R.
Proof.
  unfold Np.cell, Np.zeros2, Np.zeros.
  destruct (Nat.lt_ge_cases a n) as [Ha | Ha].
  - rewrite (nth_indep _ [] (repeat 0%R n)) by now rewrite repeat_length.
    rewrite nth_repeat. apply nth_repeat.
  - rewrite (nth_overflow (repeat (repeat 0%R n) n) [])
      by now rewrite repeat_length.
    now destruct b.
Qed.

Section Similarity.

Context {set_order : SetOrder}.

Lemma sentence_similarity_defined (sent1 sent2 stopwords : list string) :
  exists r, sentence_similarity sent1 sent2 stopwords = Some r.
Proof.
  unfold sentence_similarity.
  match goal with |- context [if ?b then _ else _] => destruct b eqn:E end;
    [eauto |].
  apply orb_false_iff in E. destruct E as [E1 E2].
  apply Nat.eqb_neq in E1, E2.
  destruct (cosine_distance_defined _ _ E1 E2) as (d & ->). simpl. eauto.
Qed.

(** The matrix keeps its shape and its zero diagonal through both loops. *)
Lemma build_similarity_matrix_shape (sentences : list (list string))
    (stop_words : list string) :
  exists m,
    build_similarity_matrix sentences stop_words = Some m
    /\ List.length m = List.length sentences
    /\ Forall (fun row => List.length row = List.length sentences) m
    /\ forall k, Np.cell m k k = 0%R.
Proof.
  unfold build_similarity_matrix.
  set (n := List.length sentences).
  apply (fold_left_invariant
           (fun acc : option (list (list R)) =>
              exists m, acc = Some m /\ List.length m = n
                        /\ Forall (fun row => List.length row = n) m
                        /\ forall k, Np.cell m k k = 0%R)).
  - intros acc i Hacc.
    apply fold_left_invariant; [| exact Hacc].
    clear acc Hacc. intros acc j (m & -> & Hlen & Hrows & Hdiag).
    destruct (i =? j)%nat eqn:Eij; cbn [negb]; [now exists m |].
    apply Nat.eqb_neq in Eij.
    destruct (sentence_similarity_defined (nth i sentences []) (nth j sentences [])
                stop_words) as (x & ->).
    exists (Np.set_cell m i j x).
    destruct (set_cell_shape n m i j x (conj Hlen Hrows)) as [Hlen' Hrows'].
    repeat split; try assumption.
    intros k. rewrite cell_set_cell_other; [apply Hdiag |].
    destruct (Nat.eq_dec k i); [right; congruence | now left].
  - exists (Np.zeros2 n n).
    destruct (zeros2_shape n) as [Hlen Hrows].
    repeat split; try assumption. intros k. apply zeros2_cell.
Qed.

(** C5.  The term-frequency vector of a filtered sentence sums to the
    number of its words; when one of the two vectors sums to zero,
    [sentence_similarity] returns 0; otherwise the denominator of
    [cosine_distance] is not zero, so that no call faults; and the matrix
    [build_similarity_matrix] returns is square with a zero diagonal. *)
Theorem similarity_matrix_well_defined (sent1 sent2 stopwords : list string) :
  let words1 := filter (fun word => negb (Py.mem word stopwords)) sent1 in
  let words2 := filter (fun word => negb (Py.mem word stopwords)) sent2 in
  let all_words := list_of_set (words1 ++ words2)%list in
  let vector1 := count_words all_words words1 (repeat 0%nat (List.length all_words)) in
  let vector2 := count_words all_words words2 (repeat 0%nat (List.length all_words)) in
  (list_sum vector1 = List.length words1 /\ list_sum vector2 = List.length words2)
  /\ (list_sum vector1 = 0%nat \/ list_sum vector2 = 0%nat ->
      sentence_similarity sent1 sent2 stopwords = Some 0%R)
  /\ (list_sum vector1 <> 0%nat -> list_sum vector2 <> 0%nat ->
      exists d, cosine_distance vector1 vector2 = Some d
                /\ sentence_similarity sent1 sent2 stopwords = Some (1 - d)%R)
  /\ (exists r, sentence_similarity sent1 sent2 stopwords = Some r)
  /\ (forall (sentences : list (list string)) (stop_words : list string),
        exists m,
          build_similarity_matrix sentences stop_words = Some m
          /\ List.length m = List.length sentences
          /\ Forall (fun row => List.length row = List.length sentences) m
          /\ forall i, (i < List.length sentences)%nat -> Np.cell m i i = 0%R).
Proof.
  intros words1 words2 all_words vector1 vector2.
  assert (Hsum1 : list_sum vector1 = List.length words1).
  { unfold vector1. rewrite count_words_sum.
    - now rewrite list_sum_repeat_zero.
    - intros x Hx. apply list_of_set_In, in_or_app. now left.
    - apply repeat_length. }
  assert (Hsum2 : list_sum vector2 = List.length words2).
  { unfold vector2. rewrite count_words_sum.
    - now rewrite list_sum_repeat_zero.
    - intros x Hx. apply list_of_set_In, in_or_app. now right.
    - apply repeat_length. }
  split; [now split |].
  split.
  { intros Hzero. unfold sentence_similarity.
    fold words1 words2 all_words vector1 vector2.
    replace ((list_sum vector1 =? 0) || (list_sum vector2 =? 0))%nat with true;
      [reflexivity |].
    symmetry. apply orb_true_iff.
    destruct Hzero as [H | H]; [left | right]; now apply Nat.eqb_eq. }
  split.
  { intros H1 H2.
    destruct (cosine_distance_defined _ _ H1 H2) as (d & Hd).
    exists d. split; [exact Hd |].
    unfold sentence_similarity.
    fold words1 words2 all_words vector1 vector2.
    apply Nat.eqb_neq in H1, H2. now rewrite H1, H2, Hd. }
  split; [apply sentence_similarity_defined |].
  intros sentences stop_words.
  destruct (build_similarity_matrix_shape sentences stop_words)
    as (m & Hm & Hlen & Hrows & Hdiag).
  exists m. repeat split; try assumption. intros i _. apply Hdiag.
Qed.

End Similarity.

Lemma similarity_matrix_well_defined_witness :
  @sentence_similarity Examples.left_to_right ["the"; "a"] ["cat"; "sat"] ["the"; "a"]
  = Some 0%R.
Proof.
  refine (proj1 (proj2 (@similarity_matrix_well_defined Examples.left_to_right
                          ["the"; "a"] ["cat"; "sat"] ["the"; "a"])) _).
  left. reflexivity.
Defined.

(** ** The selection *)

Lemma mem_nat_In (i : nat) (l : list nat) : Py.mem_nat i l = true <-> In i l.
Proof.
  unfold Py.mem_nat. rewrite existsb_exists. split.
  - intros (j & Hj & E). apply Nat.eqb_eq in E. now subst.
  - intros H. exists i. split; [exact H | apply Nat.eqb_refl].
Qed.

Section Selection.

Context {nltk : Nltk}.

(** The strict pass selects each index at most once and never more than
    the target. *)
Lemma strict_pass_bounded (filtered : list string) (max_sentences : Z)
    (ranked : list (nat * R)) :
  forall state : selection,
  NoDup (fst state ++ map fst ranked) ->
  (Z.of_nat (List.length (fst state)) <= max_sentences)%Z ->
  let result := strict_pass filtered max_sentences ranked state in
  NoDup (fst result)
  /\ incl (fst result) (fst state ++ map fst ranked)
  /\ (Z.of_nat (List.length (fst result)) <= max_sentences)%Z.
Proof.
  induction ranked as [| [idx score] ranked IH]; intros state Hnodup Hlen.
  - cbn [strict_pass map] in *. rewrite app_nil_r in *.
    repeat split; [assumption | apply incl_refl | assumption].
  - destruct state as [selected_indices selected_sentences].
    cbn [strict_pass map fst] in *.
    destruct (Z.of_nat (List.length selected_indices) >=? max_sentences)%Z eqn:Efull.
    { cbn [fst]. repeat split;
        [now apply NoDup_app_remove_r in Hnodup | now apply incl_appl | assumption]. }
    rewrite Z.geb_leb in Efull. apply Z.leb_gt in Efull.
    destruct (is_redundant filtered (nth idx filtered "") selected_indices).
    + destruct (IH (selected_indices, selected_sentences)) as (H1 & H2 & H3).
      * now apply NoDup_remove_1 in Hnodup.
      * exact Hlen.
      * repeat split; [exact H1 | | exact H3].
        intros x Hx. apply H2 in Hx. cbn [fst] in Hx.
        apply in_app_or in Hx. apply in_or_app.
        destruct Hx as [Hx | Hx]; [now left | right; now right].
    + destruct (IH ((selected_indices ++ [idx])%list,
                    (selected_sentences ++ [nth idx filtered ""])%list))
        as (H1 & H2 & H3).
      * cbn [fst]. now rewrite <- app_assoc.
      * cbn [fst]. rewrite length_app. simpl. lia.
      * repeat split; [exact H1 | | exact H3].
        intros x Hx. apply H2 in Hx. cbn [fst] in Hx.
        now rewrite <- app_assoc in Hx.
Qed.

(** The backfill adds indices not yet selected, up to the target; if it
    ends short of the target, it has taken every ranked index. *)
Lemma backfill_bounded (filtered : list string) (max_sentences : Z)
    (ranked : list (nat * R)) :
  forall state : selection,
  NoDup (fst state) ->
  (Z.of_nat (List.length (fst state)) <= max_sentences)%Z ->
  snd state = map (fun i => nth i filtered "") (fst state) ->
  let result := backfill filtered max_sentences ranked state in
  NoDup (fst result)
  /\ (Z.of_nat (List.length (fst result)) <= max_sentences)%Z
  /\ incl (fst state) (fst result)
  /\ ((Z.of_nat (List.length (fst result)) < max_sentences)%Z ->
      incl (map fst ranked) (fst result))
  /\ snd result = map (fun i => nth i filtered "") (fst result)
  /\ incl (fst result) (fst state ++ map fst ranked).
Proof.
  induction ranked as [| [idx score] ranked IH]; intros state Hnodup Hlen Hsnd.
  - cbn [backfill map]. rewrite app_nil_r.
    repeat split;
      [assumption | assumption | apply incl_refl | | assumption | apply incl_refl].
    intros _ x [].
  - destruct state as [selected_indices selected_sentences].
    cbn [backfill map fst snd] in *.
    destruct (Z.of_nat (List.length selected_indices) >=? max_sentences)%Z eqn:Efull.
    { cbn [fst snd].
      repeat split;
        [assumption | assumption | apply incl_refl | | assumption | now apply incl_appl].
      rewrite Z.geb_leb in Efull. apply Z.leb_le in Efull. lia. }
    rewrite Z.geb_leb in Efull. apply Z.leb_gt in Efull.
    destruct (Py.mem_nat idx selected_indices) eqn:Emem; cbn [negb].
    + apply mem_nat_In in Emem.
      destruct (IH (selected_indices, selected_sentences) Hnodup Hlen Hsnd)
        as (H1 & H2 & H3 & H4 & H5 & H6).
      repeat split; try assumption.
      * intros Hshort x [<- | Hx]; [now apply H3 | now apply H4].
      * intros x Hx. apply H6 in Hx. cbn [fst] in Hx.
        apply in_app_or in Hx. apply in_or_app.
        destruct Hx as [Hx | Hx]; [now left | right; now right].
    + assert (Hnot : ~ In idx selected_indices).
      { intros H. apply mem_nat_In in H. congruence. }
      destruct (IH ((selected_indices ++ [idx])%list,
                    (selected_sentences ++ [nth idx filtered ""])%list))
        as (H1 & H2 & H3 & H4 & H5 & H6).
      * cbn [fst]. apply NoDup_app; [assumption | repeat constructor; intros [] |].
        intros x Hx [<- | []]. contradiction.
      * cbn [fst]. rewrite length_app. simpl. lia.
      * cbn [fst snd]. now rewrite map_app, Hsnd.
      * cbn [fst] in H3, H6.
        repeat split; try assumption.
        -- intros x Hx. apply H3, in_or_app. now left.
        -- intros Hshort x [<- | Hx]; [| now apply H4].
           apply H3, in_or_app. right. now left.
        -- intros x Hx. apply H6 in Hx. now rewrite <- app_assoc in Hx.
Qed.

Lemma rank_keys (sentence_scores : list (nat * R)) :
  Permutation (map fst (rank sentence_scores)) (map fst sentence_scores).
Proof. apply Permutation_map, PyFacts.sorted_perm. Qed.

(** With more candidates than the target, the two passes select exactly
    the target number of distinct indices. *)
Lemma select_count (filtered : list string) (sentence_scores : list (nat * R))
    (max_sentences : Z) :
  map fst sentence_scores = seq 0 (List.length filtered) ->
  (0 <= max_sentences < Z.of_nat (List.length filtered))%Z ->
  let state := select filtered sentence_scores max_sentences in
  List.length (fst state) = Z.to_nat max_sentences
  /\ NoDup (fst state)
  /\ snd state = map (fun i => nth i filtered "") (fst state)
  /\ Forall (fun i => (i < List.length filtered)%nat) (fst state).
Proof.
  intros Hkeys Hmax. unfold select.
  pose proof (rank_keys sentence_scores) as Hperm. rewrite Hkeys in Hperm.
  set (ranked := rank sentence_scores) in *.
  assert (Hnodup : NoDup (map fst ranked)).
  { apply (Permutation_NoDup (Permutation_sym Hperm)), seq_NoDup. }
  assert (Hcount : List.length (map fst ranked) = List.length filtered).
  { rewrite (Permutation_length Hperm). apply length_seq. }
  assert (Hbound : forall l, incl l (map fst ranked) ->
                     Forall (fun i => (i < List.length filtered)%nat) l).
  { intros l Hl. apply Forall_forall. intros i Hi. apply Hl in Hi.
    apply (Permutation_in _ Hperm), in_seq in Hi. lia. }
  destruct (strict_pass_bounded filtered max_sentences ranked ([], []))
    as (S1 & S2 & S3); [exact Hnodup | simpl; lia |].
  cbn [fst app] in S2.
  pose proof (strict_pass_sentences filtered max_sentences ranked ([], []) eq_refl)
    as S4.
  set (strict := strict_pass filtered max_sentences ranked ([], [])) in *.
  destruct (Z.of_nat (List.length (fst strict)) <? max_sentences)%Z eqn:Eshort.
  - destruct (backfill_bounded filtered max_sentences ranked strict S1 S3 S4)
      as (B1 & B2 & _ & B4 & B5 & B6).
    cbv zeta. repeat split; [| exact B1 | exact B5 |].
    2:{ apply Hbound. intros x Hx. apply B6, in_app_or in Hx.
        destruct Hx as [Hx | Hx]; [now apply S2 | exact Hx]. }
    destruct (Z.lt_ge_cases
                (Z.of_nat (List.length (fst (backfill filtered max_sentences ranked strict))))
                max_sentences) as [Hlt | Hge]; [| lia].
    specialize (B4 Hlt).
    pose proof (NoDup_incl_length Hnodup B4) as Hle. lia.
  - apply Z.ltb_ge in Eshort. cbv zeta.
    repeat split; [lia | exact S1 | exact S4 | now apply Hbound].
Qed.

Lemma insert_by_index_sorted (x : nat * string) (l : list (nat * string)) :
  StronglySorted le (map fst l) ->
  StronglySorted le
    (map fst (Py.insert_sorted (fun y x => (fst y <? fst x)%nat) x l)).
Proof.
  induction l as [| y l IH]; intros Hsorted; cbn [Py.insert_sorted map].
  - repeat constructor.
  - inversion Hsorted as [| ? ? Hrest Hall]; subst.
    destruct (fst y <? fst x)%nat eqn:E; cbn [map].
    + apply Nat.ltb_lt in E. constructor; [now apply IH |].
      apply (Permutation_Forall
               (Permutation_sym
                  (Permutation_map fst (PyFacts.insert_sorted_perm _ x l)))).
      constructor; [lia | exact Hall].
    + apply Nat.ltb_ge in E. constructor; [exact Hsorted |].
      constructor; [exact E |].
      eapply Forall_impl; [| exact Hall]. intros; lia.
Qed.

Lemma sorted_by_index (l : list (nat * string)) :
  StronglySorted le (map fst (Py.sorted (fun y x => (fst y <? fst x)%nat) l)).
Proof.
  induction l as [| x l IH]; [constructor |].
  cbn [Py.sorted fold_right]. now apply insert_by_index_sorted.
Qed.

Lemma increasing_of_distinct (l : list nat) :
  StronglySorted le l -> NoDup l -> StronglySorted lt l.
Proof.
  induction 1 as [| a l Hs IH Hall]; intros Hnodup; constructor;
    inversion Hnodup as [| ? ? Ha Hrest]; subst.
  - now apply IH.
  - rewrite Forall_forall in *. intros x Hx.
    specialize (Hall x Hx). assert (a <> x) by congruence. lia.
Qed.

Lemma combine_map (f : nat -> string) (l : list nat) :
  combine l (map f l) = map (fun i => (i, f i)) l.
Proof. induction l; simpl; congruence. Qed.

(** The final sentences are the selected sentences in document order. *)
Lemma final_sentences_in_order (filtered : list string) (state : selection) :
  NoDup (fst state) ->
  snd state = map (fun i => nth i filtered "") (fst state) ->
  exists indices,
    Permutation indices (fst state)
    /\ StronglySorted lt indices
    /\ final_sentences state = map (fun i => nth i filtered "") indices.
Proof.
  intros Hnodup Hsnd. unfold final_sentences. rewrite Hsnd, combine_map.
  set (pairs := map (fun i => (i, nth i filtered "")) (fst state)).
  set (sorted_pairs := Py.sorted (fun y x => (fst y <? fst x)%nat) pairs).
  pose proof (PyFacts.sorted_perm (fun y x => (fst y <? fst x)%nat) pairs) as Hperm.
  fold sorted_pairs in Hperm.
  assert (Hkeys : map fst pairs = fst state).
  { unfold pairs. rewrite map_map. apply map_id. }
  exists (map fst sorted_pairs). split; [| split].
  - rewrite <- Hkeys. now apply Permutation_map.
  - apply increasing_of_distinct; [apply sorted_by_index |].
    apply (Permutation_NoDup (Permutation_sym (Permutation_map fst Hperm))).
    now rewrite Hkeys.
  - rewrite map_map. apply map_ext_in. intros p Hp.
    apply (Permutation_in _ Hperm) in Hp. unfold pairs in Hp.
    apply in_map_iff in Hp. destruct Hp as (i & <- & _). reflexivity.
Qed.

(** A target that is not positive selects nothing. *)
Lemma select_nothing (filtered : list string) (sentence_scores : list (nat * R))
    (max_sentences : Z) :
  (max_sentences <= 0)%Z ->
  select filtered sentence_scores max_sentences = ([], []).
Proof.
  intros Hmax. unfold select.
  assert (Hstrict : forall ranked,
             strict_pass filtered max_sentences ranked ([], []) = ([], [])).
  { intros [| [idx score] ranked]; [reflexivity |]. cbn [strict_pass List.length].
    now rewrite Z.geb_leb, (proj2 (Z.leb_le _ _)) by (simpl; lia). }
  rewrite Hstrict. cbn [fst List.length].
  now rewrite (proj2 (Z.ltb_ge _ _)) by (simpl; lia).
Qed.

End Selection.

(** ** The scorer and the summarizer *)

Lemma max_defined (v : list R) : v <> [] -> exists top, Np.max v = Some top.
Proof. destruct v; [congruence | simpl; eauto]. Qed.

Section Pipeline.

Context {nltk : Nltk} {re : Re} {sklearn : Sklearn} {set_order : SetOrder}.

Lemma centrality_scores_defined (sentences stop_words : list string) :
  sentences <> [] -> exists c, centrality_scores sentences stop_words = Some c.
Proof.
  intros Hne. unfold centrality_scores.
  destruct (build_similarity_matrix_shape
              (map (fun s => word_tokenize (Py.lower s)) sentences) stop_words)
    as (m & -> & Hlen & Hrows & _).
  rewrite length_map in Hlen, Hrows.
  assert (Hn : (0 < List.length sentences)%nat).
  { destruct sentences; [congruence | simpl; lia]. }
  destruct (max_defined (List.concat m)) as (largest & ->).
  { destruct m as [| row m]; [simpl in Hlen; lia |].
    inversion Hrows as [| ? ? Hrow _]; subst.
    destruct row; [simpl in Hrow; lia | discriminate]. }
  destruct (Np.positive largest); [| eauto].
  match goal with
  | |- context [Np.max (Nat.iter 10 ?f ?c)] =>
      destruct (max_defined (Nat.iter 10 f c)) as (top & ->); [| eauto]
  end.
  cbn [Nat.iter nat_rect]. unfold Np.transpose_dot.
  destruct (List.length sentences); [lia | discriminate].
Qed.

(** On a list of sentences that is not empty the scorer returns one score
    per sentence, under the keys [0 .. n - 1] in this order. *)
Lemma calculate_sentence_importance_keys (sentences stop_words : list string) :
  sentences <> [] ->
  exists scores,
    calculate_sentence_importance sentences stop_words = Some scores
    /\ map fst scores = seq 0 (List.length sentences).
Proof.
  intros Hne. unfold calculate_sentence_importance.
  destruct (centrality_scores_defined sentences stop_words Hne) as (c & ->).
  eexists. split; [reflexivity |].
  rewrite map_map. cbn [fst]. rewrite map_id.
  unfold Py.range. now rewrite Nat.sub_0_r.
Qed.

Lemma unique_sentences_length (original_sentences : list string) :
  (List.length (unique_sentences original_sentences)
   <= List.length original_sentences)%nat.
Proof.
  unfold unique_sentences.
  assert (H : forall items state,
             (List.length (snd (fold_left
                (fun (state : list (string * nat) * list string) (item : nat * string) =>
                   let '(seen_sentences, unique_sentences) := state in
                   let '(idx, sentence) := item in
                   let normalized := Py.lower (Py.strip sentence) in
                   if negb (Py.mem normalized (map fst seen_sentences))
                   then ((seen_sentences ++ [(normalized, idx)])%list,
                         (unique_sentences ++ [Py.strip sentence])%list)
                   else state) items state))
              <= List.length (snd state) + List.length items)%nat).
  { induction items as [| [idx sentence] items IH]; intros [seen unique]; simpl; [lia |].
    destruct (negb _).
    - etransitivity; [apply IH |]. cbn [snd]. rewrite length_app. simpl. lia.
    - etransitivity; [apply IH |]. cbn [snd]. lia. }
  etransitivity; [apply H |].
  unfold Py.enumerate. rewrite length_combine, length_seq. simpl. lia.
Qed.

Lemma candidates_length (text : string) :
  (List.length (candidates text)
   <= List.length (sent_tokenize (clean_text (preprocess_text_for_sentences text))))%nat.
Proof.
  unfold candidates, filtered_sentences.
  etransitivity; [apply filter_length_le | apply unique_sentences_length].
Qed.

(** When the target is computed, a text with a candidate sentence gets a
    target of at least one. *)
Lemma computed_target_positive (text : string) :
  candidates text <> [] ->
  (1 <= calculate_optimal_summary_length
          (clean_text (preprocess_text_for_sentences text)))%Z.
Proof.
  intros Hne. pose proof (candidates_length text) as Hlen.
  assert (Hpos : (0 < List.length (candidates text))%nat).
  { destruct (candidates text); [congruence | simpl; lia]. }
  unfold calculate_optimal_summary_length.
  rewrite optimal_length_exact by lia. lia.
Qed.

(** C1, amended.  Let [max_sentences] be absent, zero or positive, and let
    the text have at least one candidate sentence.  Then the target is at
    least one; when there are more candidates than the target, the scorer
    and the two selection passes succeed and the summary is made of
    exactly [min(target, filtered_count)] sentences, at least one, which
    are distinct candidates in document order; when there are at most as
    many candidates as the target, the summary is all of them, joined in
    document order. *)
Theorem selection_returns_target (text : string) (max_sentences : option Z) :
  let filtered := candidates text in
  let target := target_length text max_sentences in
  (forall m, max_sentences = Some m -> 0 <= m)%Z ->
  filtered <> [] ->
  (1 <= target)%Z
  /\ ((target < Z.of_nat (List.length filtered))%Z ->
      exists scores,
        calculate_sentence_importance filtered (Py.set_of stopwords_english) = Some scores
        /\ let final := final_sentences (select filtered scores target) in
           textrank_summarize text max_sentences
           = Some (Py.strip (re_sub "\s+" " " (Py.join " " final)))
           /\ List.length final
              = Z.to_nat (Z.min target (Z.of_nat (List.length filtered)))
           /\ (1 <= List.length final)%nat
           /\ exists indices,
                StronglySorted lt indices
                /\ Forall (fun i => (i < List.length filtered)%nat) indices
                /\ final = map (fun i => nth i filtered "") indices)
  /\ ((Z.of_nat (List.length filtered) <= target)%Z ->
      textrank_summarize text max_sentences = Some (Py.join " " filtered)).
Proof.
  intros filtered target Hmax Hne.
  assert (Htarget : (1 <= target)%Z).
  { unfold target, target_length, effective_max_sentences.
    pose proof (computed_target_positive text Hne) as Hauto.
    destruct max_sentences as [m |]; [| exact Hauto].
    specialize (Hmax m eq_refl).
    destruct (m =? 0)%Z eqn:E; [exact Hauto |].
    apply Z.eqb_neq in E. lia. }
  assert (Hlen : (List.length filtered =? 0)%nat = false).
  { apply Nat.eqb_neq. destruct filtered; [congruence | discriminate]. }
  split; [exact Htarget |]. split.
  - intros Hmore.
    destruct (calculate_sentence_importance_keys filtered
                (Py.set_of stopwords_english) Hne) as (scores & Hscores & Hkeys).
    exists scores. split; [exact Hscores |].
    destruct (select_count filtered scores target Hkeys ltac:(lia))
      as (Hcount & Hdistinct & Hsnd & Hbound).
    destruct (final_sentences_in_order filtered _ Hdistinct Hsnd)
      as (indices & Hperm & Hsorted & Horder).
    assert (Hfinal : List.length (final_sentences (select filtered scores target))
                     = Z.to_nat target).
    { now rewrite Horder, length_map, (Permutation_length Hperm). }
    cbv zeta. split; [| split; [| split]].
    + unfold textrank_summarize.
      fold (target_length text max_sentences). fold target.
      fold (candidates text). fold filtered.
      rewrite Hlen, (proj2 (Z.leb_gt _ _)) by lia.
      now rewrite Hscores.
    + rewrite Hfinal. f_equal. lia.
    + rewrite Hfinal. lia.
    + exists indices. split; [exact Hsorted |]. split; [| exact Horder].
      now apply (Permutation_Forall (Permutation_sym Hperm)).
  - intros Hfew. unfold textrank_summarize.
    fold (target_length text max_sentences). fold target.
    fold (candidates text). fold filtered.
    now rewrite Hlen, (proj2 (Z.leb_le _ _)) by lia.
Qed.

End Pipeline.

Lemma selection_returns_target_witness :
  let text := "The cat sat on the mat. Dogs bark loudly at night. Birds sing every morning." in
  @textrank_summarize Examples.simple_nltk Examples.simple_re Examples.simple_sklearn
    Examples.left_to_right text (Some 3%Z)
  = Some "The cat sat on the mat. Dogs bark loudly at night. Birds sing every morning."
  /\ exists final,
       @textrank_summarize Examples.simple_nltk Examples.simple_re Examples.simple_sklearn
         Examples.left_to_right text (Some 2%Z)
       = Some (Py.strip (Py.join " " final))
       /\ List.length final = 2%nat.
Proof.
  intros text. split.
  - refine (proj2 (proj2 (@selection_returns_target Examples.simple_nltk Examples.simple_re
                     Examples.simple_sklearn Examples.left_to_right text (Some 3%Z) _ _)) _).
    + intros m [= <-]. lia.
    + vm_compute. discriminate.
    + vm_compute. discriminate.
  - destruct (proj1 (proj2 (@selection_returns_target Examples.simple_nltk Examples.simple_re
                     Examples.simple_sklearn Examples.left_to_right text (Some 2%Z)
                     ltac:(intros m [= <-]; lia) ltac:(vm_compute; discriminate)))
                ltac:(vm_compute; reflexivity))
      as (scores & _ & Hsummary & Hcount & _ & _).
    eexists. split; [exact Hsummary | exact Hcount].
Defined.

(** C1, as stated, fails for a negative target, which the request handler
    passes on as it is: of two candidate sentences none is selected, and
    the summary is empty. *)
Lemma negative_target_counterexample :
  let text := "The cat sat on the mat. Dogs bark loudly at night." in
  @candidates Examples.simple_nltk Examples.simple_re text
  = ["The cat sat on the mat."; "Dogs bark loudly at night."]
  /\ @target_length Examples.simple_nltk Examples.simple_re text (Some (-1)%Z) = (-1)%Z
  /\ @final_sentences
       (@select Examples.simple_nltk (@candidates Examples.simple_nltk Examples.simple_re text)
          [(0%nat, 2%R); (1%nat, 1%R)] (-1)) = []
  /\ @textrank_summarize Examples.simple_nltk Examples.simple_re Examples.simple_sklearn
       Examples.left_to_right text (Some (-1)%Z) = Some "".
Proof.
  intros text.
  split; [reflexivity |]. split; [reflexivity |].
  split; [now rewrite select_nothing by lia |].
  unfold textrank_summarize.
  fold (@target_length Examples.simple_nltk Examples.simple_re text (Some (-1)%Z)).
  fold (@candidates Examples.simple_nltk Examples.simple_re text).
  change (@target_length Examples.simple_nltk Examples.simple_re text (Some (-1)%Z))
    with (-1)%Z.
  destruct (@calculate_sentence_importance_keys Examples.simple_nltk Examples.simple_re
              Examples.simple_sklearn Examples.left_to_right
              (@candidates Examples.simple_nltk Examples.simple_re text)
              (Py.set_of (@stopwords_english Examples.simple_nltk)))
    as (scores & Hscores & _); [vm_compute; discriminate |].
  replace (List.length (@candidates Examples.simple_nltk Examples.simple_re text) =? 0)%nat
    with false by reflexivity.
  replace (Z.of_nat (List.length (@candidates Examples.simple_nltk Examples.simple_re text))
           <=? -1)%Z with false by reflexivity.
  rewrite Hscores, select_nothing by lia.
  reflexivity.
Qed.

(** ** Independence of the enumeration order of sets *)

Lemma count_step (all_words : list string) (w : string) (f : string -> nat) :
  NoDup all_words -> In w all_words ->
  exists k,
    Py.index w all_words = Some k
    /\ Py.list_set (map f all_words) k (nth k (map f all_words) O + 1)%nat
       = map (fun x => (f x + if string_dec w x then 1 else 0)%nat) all_words.
Proof.
  induction all_words as [| y all_words IH]; intros Hnodup Hin; [destruct Hin |].
  inversion Hnodup as [| ? ? Hy Hrest]; subst.
  cbn [Py.index map].
  destruct (String.eqb w y) eqn:E.
  - apply String.eqb_eq in E. subst y. exists 0%nat. split; [reflexivity |].
    cbn [Py.list_set nth].
    destruct (string_dec w w) as [_ | Hneq]; [| congruence].
    f_equal. apply map_ext_in. intros x Hx.
    destruct (string_dec w x) as [-> | _]; [contradiction | lia].
  - apply String.eqb_neq in E.
    destruct Hin as [Hin | Hin]; [congruence |].
    destruct (IH Hrest Hin) as (k & Hk & Hset).
    exists (S k). rewrite Hk. split; [reflexivity |].
    cbn [Py.list_set nth]. rewrite Hset.
    destruct (string_dec w y) as [Heq | _]; [congruence |].
    f_equal. lia.
Qed.

(** The loop that fills a term-frequency vector leaves, at the place of
    every word of the vocabulary, the number of its occurrences. *)
Lemma count_words_counts (all_words sent : list string) :
  NoDup all_words ->
  forall f : string -> nat,
  incl sent all_words ->
  count_words all_words sent (map f all_words)
  = map (fun x => (f x + count_occ string_dec sent x)%nat) all_words.
Proof.
  intros Hnodup. unfold count_words.
  induction sent as [| w sent IH]; intros f Hincl.
  - simpl. apply map_ext. intros x. lia.
  - assert (Hw : In w all_words) by (apply Hincl; now left).
    cbn [fold_left]. rewrite (proj2 (mem_In w all_words) Hw).
    destruct (count_step all_words w f Hnodup Hw) as (k & -> & ->).
    rewrite IH by (intros x Hx; apply Hincl; now right).
    apply map_ext. intros x. cbn [count_occ].
    destruct (string_dec w x); lia.
Qed.

Lemma repeat_map_const (l : list string) :
  repeat 0%nat (List.length l) = map (fun _ => 0%nat) l.
Proof. induction l; simpl; congruence. Qed.

Lemma dot_map (f g : string -> nat) (l : list string) :
  Np.dot (map f l) (map g l) = list_sum (map (fun x => (f x * g x)%nat) l).
Proof. induction l; simpl; congruence. Qed.

Lemma list_sum_map_perm (f : string -> nat) (l l' : list string) :
  Permutation l l' -> list_sum (map f l) = list_sum (map f l').
Proof. intros H. now apply PyFacts.list_sum_perm, Permutation_map. Qed.

(** The two enumeration orders of the examples do differ. *)
Example set_orders_differ :
  @list_of_set Examples.left_to_right ["cat"; "sat"; "cat"] = ["sat"; "cat"]
  /\ @list_of_set Examples.right_to_left ["cat"; "sat"; "cat"] = ["cat"; "sat"].
Proof. split; reflexivity. Qed.

Section Determinism.

Context {nltk : Nltk} {re : Re} {sklearn : Sklearn}.

Variables order1 order2 : SetOrder.

Lemma set_orders_permutation (l : list string) :
  Permutation (@list_of_set order1 l) (@list_of_set order2 l).
Proof.
  apply NoDup_Permutation; try apply list_of_set_NoDup.
  intros x. now rewrite !list_of_set_In.
Qed.

Lemma sentence_similarity_order (sent1 sent2 stopwords : list string) :
  @sentence_similarity order1 sent1 sent2 stopwords
  = @sentence_similarity order2 sent1 sent2 stopwords.
Proof.
  unfold sentence_similarity.
  set (words1 := filter (fun word => negb (Py.mem word stopwords)) sent1).
  set (words2 := filter (fun word => negb (Py.mem word stopwords)) sent2).
  pose proof (set_orders_permutation (words1 ++ words2)) as Hperm.
  assert (Hvec : forall (order : SetOrder) (words : list string),
             incl words (words1 ++ words2) ->
             count_words (@list_of_set order (words1 ++ words2)) words
               (repeat 0%nat (List.length (@list_of_set order (words1 ++ words2))))
             = map (fun x => (0 + count_occ string_dec words x)%nat)
                 (@list_of_set order (words1 ++ words2))).
  { intros order words Hincl. rewrite repeat_map_const.
    apply count_words_counts; [apply list_of_set_NoDup |].
    intros x Hx. apply list_of_set_In. now apply Hincl. }
  rewrite (Hvec order1 words1), (Hvec order2 words1)
    by (apply incl_appl, incl_refl).
  rewrite (Hvec order1 words2), (Hvec order2 words2)
    by (apply incl_appr, incl_refl).
  unfold cosine_distance. rewrite !dot_map.
  now rewrite !(list_sum_map_perm _ _ _ Hperm).
Qed.

Lemma build_similarity_matrix_order (sentences : list (list string))
    (stop_words : list string) :
  @build_similarity_matrix order1 sentences stop_words
  = @build_similarity_matrix order2 sentences stop_words.
Proof.
  unfold build_similarity_matrix.
  apply PyFacts.fold_left_ext. intros acc i.
  apply PyFacts.fold_left_ext. intros acc' j.
  now rewrite sentence_similarity_order.
Qed.

Lemma calculate_sentence_importance_order (sentences stop_words : list string) :
  @calculate_sentence_importance nltk re sklearn order1 sentences stop_words
  = @calculate_sentence_importance nltk re sklearn order2 sentences stop_words.
Proof.
  unfold calculate_sentence_importance, centrality_scores.
  now rewrite build_similarity_matrix_order.
Qed.

(** C8.  The summary is a function of the text and of [max_sentences]: the
    one thing that may differ between two calls, the order in which the
    sets of words are enumerated, has no effect on the returned string. *)
Theorem textrank_summarize_deterministic (text : string) (max_sentences : option Z) :
  @textrank_summarize nltk re sklearn order1 text max_sentences
  = @textrank_summarize nltk re sklearn order2 text max_sentences.
Proof.
  unfold textrank_summarize.
  now rewrite calculate_sentence_importance_order.
Qed.

End Determinism.

End BackendSpec.
(** * Properties of video_summarizer_api.py *)

Module VideoSpec.

Import Lib video_summarizer_api.

Local Open Scope Q_scope.

(** ** Timestamps *)

Lemma hours_floor (seconds : Q) :
  Py.int_of_float (Py.floordiv seconds 3600) = (Qfloor seconds / 3600)%Z.
Proof.
  unfold Py.floordiv. rewrite PyFacts.int_of_float_Z.
  apply (PyFacts.Qfloor_div_pos seconds 3600).
Qed.

Lemma minutes_floor (seconds : Q) :
  Py.int_of_float (Py.floordiv (Py.fmod seconds 3600) 60)
  = (Qfloor seconds mod 3600 / 60)%Z.
Proof.
  unfold Py.floordiv. rewrite PyFacts.int_of_float_Z.
  change (60 : Q) with (inject_Z 60). change (3600 : Q) with (inject_Z 3600).
  rewrite (PyFacts.Qfloor_div_pos _ 60).
  now rewrite (PyFacts.Qfloor_fmod seconds 3600).
Qed.

Lemma secs_floor (seconds : Q) :
  Py.int_of_float (Py.fmod seconds 60) = (Qfloor seconds mod 60)%Z.
Proof.
  rewrite PyFacts.int_of_float_nonneg by apply (PyFacts.fmod_nonneg seconds 60).
  apply (PyFacts.Qfloor_fmod seconds 60).
Qed.

Lemma floor_below (seconds : Q) (k : Z) :
  seconds < inject_Z k <-> (Qfloor seconds < k)%Z.
Proof.
  split; intros H.
  - rewrite Zlt_Qlt. eapply Qle_lt_trans; [apply Qfloor_le | exact H].
  - eapply Qlt_le_trans; [apply Qlt_floor |].
    rewrite <- Zle_Qle. lia.
Qed.

(** C9.  For a number of seconds that is not negative, [format_timestamp]
    writes [MM:SS] below one hour and [HH:MM:SS] from one hour on; the
    minutes and seconds fields are the two digits of a number below 60, the
    hours field is the numeral of the hours padded with a zero to two
    characters (two digits exactly below 100 hours).  In particular 3725
    gives 01:02:05 and 125 gives 02:05. *)
Theorem format_timestamp_fields (seconds : Q) :
  0 <= seconds ->
  let t := Qfloor seconds in
  (seconds < 3600 ->
     format_timestamp seconds
     = two_digits (t / 60) ++ ":" ++ two_digits (t mod 60)
     /\ (0 <= t / 60 < 60)%Z /\ (0 <= t mod 60 < 60)%Z)
  /\ (~ seconds < 3600 ->
        format_timestamp seconds
        = Py.format_02d (t / 3600) ++ ":" ++ two_digits (t mod 3600 / 60)
          ++ ":" ++ two_digits (t mod 60)
        /\ (2 <= String.length (Py.format_02d (t / 3600)))%nat
        /\ ((t / 3600 < 100)%Z -> Py.format_02d (t / 3600) = two_digits (t / 3600))
        /\ (0 <= t mod 3600 / 60 < 60)%Z /\ (0 <= t mod 60 < 60)%Z)
  /\ format_timestamp 3725 = "01:02:05"
  /\ format_timestamp 125 = "02:05".
Proof.
  intros Hpos t.
  assert (Ht : (0 <= t)%Z).
  { unfold t. rewrite <- (Qfloor_Z 0). now apply Qfloor_resp_le. }
  assert (Hm : (0 <= t mod 3600 / 60 < 60)%Z).
  { pose proof (Z.mod_pos_bound t 3600 ltac:(lia)).
    split; [apply Z.div_pos; lia | apply Z.div_lt_upper_bound; lia]. }
  assert (Hs : (0 <= t mod 60 < 60)%Z) by (apply Z.mod_pos_bound; lia).
  unfold format_timestamp.
  rewrite hours_floor, minutes_floor, secs_floor. fold t.
  rewrite (PyFacts.format_02d_two_digits (t mod 3600 / 60)) by lia.
  rewrite (PyFacts.format_02d_two_digits (t mod 60)) by lia.
  split; [| split; [| split; vm_compute; reflexivity]].
  - intros Hlt. apply (floor_below seconds 3600) in Hlt. fold t in Hlt.
    assert (Hh : (t / 3600 = 0)%Z) by (apply Z.div_small; lia).
    rewrite Hh. simpl (0 >? 0)%Z. cbv iota.
    rewrite Z.mod_small by lia.
    split; [reflexivity | split; [| exact Hs]].
    split; [apply Z.div_pos; lia | apply Z.div_lt_upper_bound; lia].
  - intros Hge.
    assert (Hge' : (3600 <= t)%Z).
    { destruct (Z_lt_le_dec t 3600) as [Hlt | Hle]; [| exact Hle].
      exfalso. apply Hge. now apply (floor_below seconds 3600). }
    assert (Hh : (0 < t / 3600)%Z) by (apply Z.div_str_pos; lia).
    replace (t / 3600 >? 0)%Z with true by (symmetry; apply Z.gtb_lt; lia).
    split; [reflexivity |].
    split; [apply PyFacts.format_02d_width |].
    split; [| split; assumption].
    intros Hlt. apply PyFacts.format_02d_two_digits. lia.
Qed.

Lemma format_timestamp_fields_witness :
  0 <= 3725 /\ format_timestamp 3725 = "01:02:05".
Proof.
  split; [discriminate |].
  exact (proj1 (proj2 (proj2 (format_timestamp_fields 3725 ltac:(discriminate))))).
Defined.

(** ** Segments *)

Lemma skipn_nth_error {A : Type} (l : list A) (i : nat) (x : A) :
  nth_error l i = Some x -> skipn i l = x :: skipn (S i) l.
Proof.
  revert i. induction l as [| y l IH]; intros [| i] H; simpl in *; try discriminate.
  - congruence.
  - now apply IH.
Qed.

(** What the body of the loop appends is the segment of the slice. *)
Lemma loop_body_segment (transcript : list entry) (start_idx change_idx : nat)
    (first : entry) :
  nth_error transcript start_idx = Some first ->
  let segment_text :=
    Py.join " " (map text (Py.slice transcript start_idx change_idx)) in
  (if negb (String.eqb (Py.strip segment_text) "")
   then [ {| timestamp := format_timestamp (start first);
             start_seconds := start first;
             seg_text := Py.strip segment_text |} ]
   else [])
  = segment_of_slice (Py.slice transcript start_idx change_idx).
Proof.
  intros Hnth. unfold Py.slice.
  rewrite (skipn_nth_error _ _ _ Hnth).
  destruct (change_idx - start_idx)%nat as [| k]; [reflexivity |].
  cbn [firstn segment_of_slice].
  destruct (String.eqb _ ""); reflexivity.
Qed.

Lemma segments_loop_slices (transcript : list entry) (indices : list nat) :
  forall (start_idx : nat) (segments : list segment),
  (start_idx < List.length transcript)%nat ->
  Forall (fun i => (i < List.length transcript)%nat) indices ->
  segments_loop transcript (indices ++ [List.length transcript]) start_idx segments
  = Some (segments
          ++ flat_map segment_of_slice
               (slices transcript (indices ++ [List.length transcript]) start_idx))%list.
Proof.
  induction indices as [| c indices IH]; intros start_idx segments Hs Hall.
  - destruct (nth_error transcript start_idx) as [first |] eqn:Hnth.
    2:{ apply nth_error_None in Hnth. lia. }
    cbn [app segments_loop slices flat_map]. rewrite Hnth.
    rewrite <- (loop_body_segment _ _ _ _ Hnth). rewrite app_nil_r.
    destruct (negb _); [reflexivity | now rewrite app_nil_r].
  - destruct (nth_error transcript start_idx) as [first |] eqn:Hnth.
    2:{ apply nth_error_None in Hnth. lia. }
    inversion Hall as [| ? ? Hc Hrest]; subst.
    cbn [app segments_loop slices flat_map]. rewrite Hnth.
    rewrite IH by assumption.
    rewrite <- (loop_body_segment _ _ _ _ Hnth).
    destruct (negb _); [now rewrite <- app_assoc | reflexivity].
Qed.

(** Cuts at indices that do not decrease tile the rest of the transcript. *)
Lemma slices_tile (transcript : list entry) (indices : list nat) :
  forall start_idx : nat,
  Sorted le (start_idx :: indices) ->
  Forall (fun i => (i < List.length transcript)%nat) (start_idx :: indices) ->
  List.concat (slices transcript (indices ++ [List.length transcript]) start_idx)
  = skipn start_idx transcript.
Proof.
  induction indices as [| c indices IH]; intros start_idx Hsorted Hall.
  - cbn [app slices List.concat]. rewrite app_nil_r.
    inversion Hall; subst.
    rewrite <- (PyFacts.slice_app_skipn transcript start_idx (List.length transcript)) by lia.
    now rewrite skipn_all, app_nil_r.
  - cbn [app slices List.concat].
    inversion Hsorted as [| ? ? Hs Hhd]; subst.
    inversion Hhd; subst.
    inversion Hall; subst.
    rewrite IH by assumption.
    now apply PyFacts.slice_app_skipn.
Qed.

Lemma segment_of_slice_words (entries : list entry) :
  segment_words (segment_of_slice entries)
  = Py.split (Py.join " " (map text entries)).
Proof.
  destruct entries as [| first entries]; [reflexivity |].
  cbn [segment_of_slice].
  destruct (String.eqb _ "") eqn:E.
  - apply String.eqb_eq in E. symmetry. now apply PyFacts.split_blank.
  - unfold segment_words. cbn [flat_map seg_text].
    now rewrite app_nil_r, PyFacts.split_strip.
Qed.

Lemma segment_words_app (s1 s2 : list segment) :
  segment_words (s1 ++ s2) = (segment_words s1 ++ segment_words s2)%list.
Proof. unfold segment_words. apply flat_map_app. Qed.

Lemma slices_words (cuts : list (list entry)) :
  segment_words (flat_map segment_of_slice cuts)
  = transcript_words (List.concat cuts).
Proof.
  unfold transcript_words.
  induction cuts as [| sl cuts IH]; [reflexivity |].
  cbn [flat_map List.concat].
  rewrite segment_words_app, map_app, PyFacts.split_join_app.
  now rewrite segment_of_slice_words, IH.
Qed.

(** Every segment of a list of slices starts at the start time of one of
    their entries. *)
Lemma segment_start_in (cuts : list (list entry)) (s : segment) :
  In s (flat_map segment_of_slice cuts) ->
  In (start_seconds s) (map start (List.concat cuts)).
Proof.
  induction cuts as [| sl cuts IH]; [intros [] |].
  cbn [flat_map List.concat]. rewrite map_app.
  intros H. apply in_app_or in H. apply in_or_app.
  destruct H as [H | H]; [left | right; now apply IH].
  destruct sl as [| first sl]; [destruct H |].
  cbn [segment_of_slice] in H.
  destruct (String.eqb _ ""); [destruct H |].
  destruct H as [<- | []]. now left.
Qed.

Lemma StronglySorted_app_inv {A : Type} (R : A -> A -> Prop) (l1 l2 : list A) :
  StronglySorted R (l1 ++ l2) ->
  StronglySorted R l1 /\ StronglySorted R l2
  /\ forall x y, In x l1 -> In y l2 -> R x y.
Proof.
  induction l1 as [| a l1 IH]; simpl; intros H.
  - repeat split; [constructor | assumption | intros ? ? []].
  - inversion H as [| ? ? Hs Hall]; subst.
    destruct (IH Hs) as (H1 & H2 & H12).
    rewrite Forall_app in Hall. destruct Hall as [Ha1 Ha2].
    repeat split; [now constructor | assumption |].
    intros x y [<- | Hx] Hy; [| now apply H12].
    rewrite Forall_forall in Ha2. now apply Ha2.
Qed.

Lemma slices_increasing (cuts : list (list entry)) :
  increasing (map start (List.concat cuts)) ->
  increasing (map start_seconds (flat_map segment_of_slice cuts)).
Proof.
  unfold increasing.
  induction cuts as [| sl cuts IH]; [constructor |].
  cbn [flat_map List.concat]. rewrite !map_app. intros H.
  apply StronglySorted_app_inv in H. destruct H as (H1 & H2 & H12).
  specialize (IH H2).
  destruct sl as [| first sl]; [exact IH |].
  cbn [segment_of_slice].
  destruct (String.eqb _ ""); [exact IH |].
  cbn [map app start_seconds]. constructor; [exact IH |].
  apply Forall_forall. intros t Ht.
  apply in_map_iff in Ht. destruct Ht as (s & <- & Hs).
  apply H12; [now left | now apply segment_start_in].
Qed.

(** A property of lists that survives the removal of one element
    survives both loops of [detect_topic_changes], which only drop
    candidates. *)
Section Dropping.

Variable P : list nat -> Prop.
Hypothesis P_drop : forall l1 x l2, P (l1 ++ x :: l2) -> P (l1 ++ l2).

Lemma keep_some_fold (keep : list nat -> nat -> bool) (l : list nat) :
  forall acc : list nat,
  P (acc ++ l) ->
  P (fold_left (fun acc i => if keep acc i then (acc ++ [i])%list else acc) l acc).
Proof.
  induction l as [| x l IH]; intros acc H; simpl.
  - now rewrite app_nil_r in H.
  - destruct (keep acc x).
    + apply IH. now rewrite <- app_assoc.
    + apply IH. now apply P_drop in H.
Qed.

Lemma filter_changes_fold (window_size : nat) (l : list nat) :
  forall (acc : list nat) (last_change : Z),
  P (acc ++ l) ->
  P (fst (fold_left
            (fun (state : list nat * Z) change =>
               let '(filtered_changes, last_change) := state in
               if (Z.of_nat change - last_change >=? Z.of_nat window_size)%Z
               then ((filtered_changes ++ [change])%list, Z.of_nat change)
               else state)
            l (acc, last_change))).
Proof.
  induction l as [| x l IH]; intros acc last_change H; simpl.
  - now rewrite app_nil_r in H.
  - destruct (Z.of_nat x - last_change >=? Z.of_nat window_size)%Z.
    + apply IH. now rewrite <- app_assoc.
    + apply IH. now apply P_drop in H.
Qed.

Lemma detect_topic_changes_keeps {sklearn : Sklearn} (transcript : list entry)
    (window_size : nat) (threshold : Q) :
  P [] ->
  P (Py.range window_size (List.length (map text transcript) - window_size)) ->
  P (detect_topic_changes transcript window_size threshold).
Proof.
  intros Hnil Hrange. unfold detect_topic_changes.
  destruct (List.length transcript <? window_size * 2)%nat; [exact Hnil |].
  unfold filter_changes. apply filter_changes_fold. cbn [app].
  unfold topic_changes.
  set (keep := fun (_ : list nat) (i : nat) =>
                 match tfidf_cosine
                         (Py.join " " (Py.slice (map text transcript) (i - window_size) i))
                         (Py.join " " (Py.slice (map text transcript) i (i + window_size)))
                 with
                 | Some similarity => Py.float_ltb similarity threshold
                 | None => false
                 end).
  rewrite (PyFacts.fold_left_ext _
             (fun acc i => if keep acc i then (acc ++ [i])%list else acc)).
  - now apply keep_some_fold.
  - intros acc i. unfold keep. destruct (tfidf_cosine _ _); reflexivity.
Qed.

End Dropping.

Lemma StronglySorted_drop {A : Type} (R : A -> A -> Prop) (l1 : list A) (x : A)
    (l2 : list A) :
  StronglySorted R (l1 ++ x :: l2) -> StronglySorted R (l1 ++ l2).
Proof.
  induction l1 as [| a l1 IH]; simpl; intros H.
  - now inversion H.
  - inversion H as [| ? ? Hs Hall]; subst. constructor; [now apply IH |].
    rewrite Forall_app in *. destruct Hall as [H1 H2].
    split; [exact H1 | now inversion H2].
Qed.

Lemma Forall_drop {A : Type} (P : A -> Prop) (l1 : list A) (x : A) (l2 : list A) :
  Forall P (l1 ++ x :: l2) -> Forall P (l1 ++ l2).
Proof.
  rewrite !Forall_app. intros [H1 H2]. split; [exact H1 | now inversion H2].
Qed.

Lemma seq_increasing (lo len : nat) : StronglySorted lt (seq lo len).
Proof.
  revert lo. induction len as [| len IH]; intros lo; simpl; constructor.
  - apply IH.
  - apply Forall_forall. intros x Hx. apply in_seq in Hx. lia.
Qed.

(** The indices [detect_topic_changes] returns increase strictly and lie
    below the length of the transcript. *)
Lemma detect_topic_changes_indices {sklearn : Sklearn} (transcript : list entry)
    (window_size : nat) (threshold : Q) :
  Sorted le (detect_topic_changes transcript window_size threshold)
  /\ Forall (fun i => (i < List.length transcript)%nat)
       (detect_topic_changes transcript window_size threshold).
Proof.
  split.
  - apply StronglySorted_Sorted.
    apply (detect_topic_changes_keeps (StronglySorted le)).
    + intros l1 x l2. apply StronglySorted_drop.
    + constructor.
    + unfold Py.range.
      eapply StronglySorted_ind with (R := lt); [constructor | | apply seq_increasing].
      intros a l _ IH Hall. constructor; [exact IH |].
      eapply Forall_impl; [| exact Hall]. intros; lia.
  - apply (detect_topic_changes_keeps
             (Forall (fun i => (i < List.length transcript)%nat))).
    + intros l1 x l2. apply Forall_drop.
    + constructor.
    + unfold Py.range. apply Forall_forall. intros i Hi.
      apply in_seq in Hi. rewrite length_map in Hi. lia.
Qed.

(** C6, amended.  For a transcript that is not empty and cut indices that
    do not decrease and lie below its length, the slices the loop cuts tile
    the transcript, the call returns the segments of these slices (a slice
    whose text is blank gives none), the words of the segment texts are
    the words of the transcript text, and the start times of the segments
    increase strictly when those of the entries do.  The indices
    [detect_topic_changes] returns are of this kind. *)
Theorem segments_partition (transcript : list entry) (indices : list nat) :
  transcript <> [] ->
  Sorted le indices ->
  Forall (fun i => (i < List.length transcript)%nat) indices ->
  let cuts := slices transcript (indices ++ [List.length transcript]) 0 in
  List.concat cuts = transcript
  /\ create_segments_with_topics transcript indices
     = Some (flat_map segment_of_slice cuts)
  /\ segment_words (flat_map segment_of_slice cuts) = transcript_words transcript
  /\ (increasing (map start transcript) ->
      increasing (map start_seconds (flat_map segment_of_slice cuts)))
  /\ (forall (sklearn : Sklearn) (window_size : nat) (threshold : Q),
        let detected := detect_topic_changes transcript window_size threshold in
        Sorted le detected
        /\ Forall (fun i => (i < List.length transcript)%nat) detected).
Proof.
  intros Hne Hsorted Hall cuts.
  assert (Hlen : (0 < List.length transcript)%nat).
  { destruct transcript; [congruence | simpl; lia]. }
  assert (Htile : List.concat cuts = transcript).
  { unfold cuts. rewrite slices_tile; [reflexivity | |].
    - constructor; [assumption |]. destruct indices; constructor; lia.
    - now constructor. }
  split; [exact Htile |].
  split.
  { unfold create_segments_with_topics.
    now rewrite segments_loop_slices by assumption. }
  split.
  { now rewrite slices_words, Htile. }
  split.
  { intros Hinc. apply slices_increasing. now rewrite Htile. }
  intros sklearn window_size threshold. apply detect_topic_changes_indices.
Qed.

Lemma segments_partition_witness :
  segments_exhaustive Examples.three_entries [1%nat; 2%nat].
Proof.
  destruct (segments_partition Examples.three_entries [1%nat; 2%nat])
    as (_ & Hcall & Hwords & Hinc & _).
  - discriminate.
  - repeat constructor.
  - repeat constructor.
  - eexists. split; [exact Hcall |]. split; [exact Hwords |].
    apply Hinc. repeat constructor.
Defined.

(** C6, as stated, fails: with indices out of order an entry lands in two
    segments; with equal start times the segments do not start strictly
    later and later; on an empty transcript, and with an index at the
    length of the transcript, the call raises [IndexError]. *)
Lemma segments_counterexample :
  ~ segments_exhaustive Examples.three_entries [2%nat; 1%nat]
  /\ ~ segments_exhaustive Examples.same_start [1%nat]
  /\ create_segments_with_topics [] [] = None
  /\ create_segments_with_topics Examples.three_entries [3%nat] = None.
Proof.
  split; [| split; [| split; reflexivity]].
  - intros (segments & Hcall & Hwords & _).
    vm_compute in Hcall. injection Hcall as <-.
    vm_compute in Hwords. discriminate.
  - intros (segments & Hcall & _ & Hinc).
    vm_compute in Hcall. injection Hcall as <-.
    cbn [map start_seconds] in Hinc.
    inversion Hinc as [| ? ? _ Hall]; subst.
    inversion Hall as [| ? ? Hlt _]; subst.
    revert Hlt. unfold Qlt. simpl. lia.
Qed.

(** ** Short transcripts *)

(** With no topic change the whole transcript is the only slice. *)
Lemma create_segments_no_change (transcript : list entry) :
  transcript <> [] ->
  create_segments_with_topics transcript [] = Some (segment_of_slice transcript).
Proof.
  intros Hne.
  assert (Hlen : (0 < List.length transcript)%nat).
  { destruct transcript; [congruence | simpl; lia]. }
  unfold create_segments_with_topics.
  rewrite (segments_loop_slices transcript [] 0 [] Hlen) by constructor.
  cbn [app slices flat_map].
  now rewrite PyFacts.slice_all, app_nil_r.
Qed.

(** C7, amended.  A transcript with fewer than [2 * window_size] entries
    has no topic change.  In particular, for nine entries and a window of
    five, [detect_topic_changes] returns the empty list and the segments
    are those of the single slice that is the whole transcript: one
    segment, starting at the start time of the first entry, when the
    joined text is not blank, and no segment when it is blank. *)
Theorem short_transcript_single_segment {sklearn : Sklearn}
    (transcript : list entry) (window_size : nat) (threshold : Q) :
  (List.length transcript < 2 * window_size)%nat ->
  detect_topic_changes transcript window_size threshold = []
  /\ (List.length transcript = 9%nat -> window_size = 5%nat ->
      create_segments_with_topics transcript
        (detect_topic_changes transcript window_size threshold)
      = Some (segment_of_slice transcript)
      /\ (Py.strip (Py.join " " (map text transcript)) <> "" ->
          exists first rest,
            transcript = first :: rest
            /\ segment_of_slice transcript
               = [ {| timestamp := format_timestamp (start first);
                      start_seconds := start first;
                      seg_text := Py.strip (Py.join " " (map text transcript)) |} ])
      /\ (Py.strip (Py.join " " (map text transcript)) = "" ->
          segment_of_slice transcript = [])).
Proof.
  intros Hshort.
  assert (Hdetect : detect_topic_changes transcript window_size threshold = []).
  { unfold detect_topic_changes.
    replace (List.length transcript <? window_size * 2)%nat with true; [reflexivity |].
    symmetry. apply Nat.ltb_lt. lia. }
  split; [exact Hdetect |].
  intros Hnine _. rewrite Hdetect.
  destruct transcript as [| first rest]; [discriminate |].
  split; [now apply create_segments_no_change |].
  cbn [segment_of_slice].
  split.
  - intros Htext. exists first, rest. split; [reflexivity |].
    destruct (String.eqb _ "") eqn:E; [| reflexivity].
    apply String.eqb_eq in E. contradiction.
  - intros Htext. rewrite Htext. reflexivity.
Qed.

Lemma short_transcript_single_segment_witness :
  @segment_transcript Examples.simple_sklearn Examples.nine_entries
  = Some (segment_of_slice Examples.nine_entries)
  /\ List.length (segment_of_slice Examples.nine_entries) = 1%nat.
Proof.
  split; [| reflexivity].
  refine (proj1 (proj2 (@short_transcript_single_segment Examples.simple_sklearn
            Examples.nine_entries 5 (35 # 100) _) _ _)).
  - simpl. lia.
  - reflexivity.
  - reflexivity.
Defined.

(** C7, as stated, fails on nine entries of blank text: there is no topic
    change, and no segment either. *)
Lemma short_transcript_counterexample :
  List.length Examples.nine_blank = 9%nat
  /\ @detect_topic_changes Examples.simple_sklearn Examples.nine_blank 5 (35 # 100) = []
  /\ @segment_transcript Examples.simple_sklearn Examples.nine_blank = Some []
  /\ ~ (exists s, @segment_transcript Examples.simple_sklearn Examples.nine_blank
                  = Some [s]).
Proof.
  split; [reflexivity |]. split; [reflexivity |]. split; [reflexivity |].
  intros (s & H). vm_compute in H. discriminate.
Qed.

End VideoSpec.
(** * More facts about the Python built-ins *)

Module PyMore.

Lemma rstrip_head (c : ascii) (s : string) :
  Py.isspace c = false -> exists r, Py.rstrip (String c s) = String c r.
Proof.
  intros Hc. simpl. destruct (Py.rstrip s); [rewrite Hc |]; eauto.
Qed.

Lemma lstrip_head (s : string) :
  Py.lstrip s = EmptyString
  \/ exists c r, Py.lstrip s = String c r /\ Py.isspace c = false.
Proof.
  induction s as [| c s IH]; simpl; [now left |].
  destruct (Py.isspace c) eqn:E; [exact IH |].
  right. now exists c, s.
Qed.

Lemma rstrip_idempotent (s : string) : Py.rstrip (Py.rstrip s) = Py.rstrip s.
Proof.
  induction s as [| c s IH]; [reflexivity |].
  simpl. destruct (Py.rstrip s) as [| r0 r] eqn:Er.
  - destruct (Py.isspace c) eqn:E; [reflexivity |].
    simpl. now rewrite E.
  - change (Py.rstrip (String c (String r0 r))) with
      (match Py.rstrip (String r0 r) with
       | EmptyString => if Py.isspace c then EmptyString else String c EmptyString
       | r' => String c r'
       end).
    now rewrite IH.
Qed.

(** A stripped string is either empty or begins with a character that is
    not white space. *)
Lemma strip_head (s : string) :
  Py.strip s = EmptyString
  \/ exists c r, Py.strip s = String c r /\ Py.isspace c = false.
Proof.
  unfold Py.strip.
  destruct (lstrip_head s) as [-> | (c & r & -> & Hc)]; [now left |].
  right. destruct (rstrip_head c r Hc) as (r' & ->). now exists c, r'.
Qed.

(** Stripping twice is stripping once. *)
Lemma strip_idempotent (s : string) : Py.strip (Py.strip s) = Py.strip s.
Proof.
  destruct (strip_head s) as [H | (c & r & H & Hc)].
  - now rewrite H.
  - unfold Py.strip at 1. rewrite H. simpl Py.lstrip. rewrite Hc.
    rewrite <- H. unfold Py.strip. apply rstrip_idempotent.
Qed.

Example strip_twice : Py.strip (Py.strip "  a  b ") = "a  b".
Proof. reflexivity. Qed.

(** ** Words *)

Lemma any_char_app (p : ascii -> bool) (a b : string) :
  Py.any_char p (a ++ b) = Py.any_char p a || Py.any_char p b.
Proof.
  induction a as [| c a IH]; [reflexivity |].
  simpl. now rewrite IH, orb_assoc.
Qed.

Lemma split_acc_words (s acc : string) :
  Py.any_char Py.isspace acc = false ->
  Forall Py.is_word (Py.split_acc acc s).
Proof.
  revert acc. induction s as [| c s IH]; intros acc Hacc; simpl.
  - destruct acc; [constructor |]. repeat constructor; [discriminate | exact Hacc].
  - destruct (Py.isspace c) eqn:E.
    + destruct acc as [| a acc]; [now apply IH |].
      constructor; [split; [discriminate | exact Hacc] | now apply IH].
    + apply IH. rewrite any_char_app, Hacc. simpl. now rewrite E.
Qed.

Lemma split_gives_words (s : string) : Forall Py.is_word (Py.split s).
Proof. now apply split_acc_words. Qed.

Lemma split_acc_word (w acc : string) :
  Py.any_char Py.isspace w = false ->
  Py.split_acc acc w = match (acc ++ w)%string with
                       | EmptyString => []
                       | _ => [(acc ++ w)%string]
                       end.
Proof.
  revert acc. induction w as [| c w IH]; intros acc Hw; simpl.
  - assert (H : (acc ++ "")%string = acc) by (induction acc; simpl; congruence).
    rewrite H. reflexivity.
  - simpl in Hw. apply orb_false_iff in Hw. destruct Hw as [Hc Hw].
    rewrite Hc, IH by exact Hw.
    assert (H : ((acc ++ String c "") ++ w)%string = (acc ++ String c w)%string).
    { clear. induction acc; simpl; congruence. }
    now rewrite H.
Qed.

Lemma split_word (w : string) : Py.is_word w -> Py.split w = [w].
Proof.
  intros [Hne Hw]. unfold Py.split. rewrite split_acc_word by exact Hw.
  simpl. destruct w; [congruence | reflexivity].
Qed.

(** Joining words with blanks and splitting again gives the words back. *)
Lemma split_join_words (ws : list string) :
  Forall Py.is_word ws -> Py.split (Py.join " " ws) = ws.
Proof.
  induction 1 as [| w ws Hw Hws IH]; [reflexivity |].
  destruct ws as [| w' ws].
  - simpl. now apply split_word.
  - rewrite PyFacts.join_cons by discriminate.
    rewrite PyFacts.split_app_space, IH. now rewrite split_word.
Qed.

Example split_join_round_trip :
  Py.split (Py.join " " (Py.split " to  be or not ")) = ["to"; "be"; "or"; "not"].
Proof. reflexivity. Qed.

(** A text that is not blank has a word. *)
Lemma split_acc_nonempty (s acc : string) :
  acc <> EmptyString -> Py.split_acc acc s <> [].
Proof.
  revert acc. induction s as [| c s IH]; intros acc Hacc; simpl.
  - destruct acc; [congruence | discriminate].
  - destruct (Py.isspace c).
    + destruct acc; [congruence | discriminate].
    + apply IH. destruct acc; discriminate.
Qed.

Lemma split_not_blank (s : string) : Py.strip s <> EmptyString -> Py.split s <> [].
Proof.
  intros H. rewrite <- PyFacts.split_strip.
  destruct (strip_head s) as [E | (c & r & E & Hc)]; [congruence |].
  rewrite E. unfold Py.split. simpl. rewrite Hc.
  apply split_acc_nonempty. discriminate.
Qed.

(** ** Sorting by a key *)

Lemma insert_by_key_sorted {A : Type} (key : A -> nat) (x : A) (l : list A) :
  StronglySorted le (map key l) ->
  StronglySorted le
    (map key (Py.insert_sorted (fun y x => (key y <? key x)%nat) x l)).
Proof.
  induction l as [| y l IH]; intros Hsorted; cbn [Py.insert_sorted map].
  - repeat constructor.
  - inversion Hsorted as [| ? ? Hrest Hall]; subst.
    destruct (key y <? key x)%nat eqn:E; cbn [map].
    + apply Nat.ltb_lt in E. constructor; [now apply IH |].
      apply (Permutation_Forall
               (Permutation_sym
                  (Permutation_map key (PyFacts.insert_sorted_perm _ x l)))).
      constructor; [lia | exact Hall].
    + apply Nat.ltb_ge in E. constructor; [exact Hsorted |].
      constructor; [exact E |].
      eapply Forall_impl; [| exact Hall]. intros; lia.
Qed.

Lemma sorted_ascending (l : list nat) : StronglySorted le (Py.sorted Nat.ltb l).
Proof.
  induction l as [| x l IH]; [constructor |].
  cbn [Py.sorted fold_right].
  pose proof (insert_by_key_sorted (fun i => i) x (Py.sorted Nat.ltb l)) as H.
  rewrite !map_id in H. apply H. exact IH.
Qed.

(** Where the insertion puts an element: behind the elements that sort
    strictly before it. *)
Lemma insert_sorted_split {A : Type} (before : A -> A -> bool) (x : A) (l : list A) :
  exists front back,
    Py.insert_sorted before x l = (front ++ x :: back)%list
    /\ l = (front ++ back)%list
    /\ Forall (fun y => before y x = true) front.
Proof.
  induction l as [| y l IH]; simpl.
  - exists [], []. repeat split. constructor.
  - destruct (before y x) eqn:E.
    + destruct IH as (front & back & -> & -> & Hfront).
      exists (y :: front), back. repeat split. now constructor.
    + exists [], (y :: l). repeat split. constructor.
Qed.

Lemma slice_to_firstn {A : Type} (l : list A) (k : Z) :
  (0 <= k)%Z -> Py.slice_to l k = firstn (Z.to_nat k) l.
Proof.
  intros H. unfold Py.slice_to.
  now rewrite (proj2 (Z.ltb_ge _ _)) by lia.
Qed.

End PyMore.
(** * More properties of video_summarizer_api.py *)

Module VideoExtra.

Import Lib video_summarizer_api.

Local Open Scope Q_scope.

(** ** Topic changes *)

Lemma filter_changes_kept (window_size : nat) (candidates : list nat) :
  forall (acc : list nat) (last_change : Z),
  fst (fold_left
         (fun (state : list nat * Z) change =>
            let '(filtered_changes, last_change) := state in
            if (Z.of_nat change - last_change >=? Z.of_nat window_size)%Z
            then ((filtered_changes ++ [change])%list, Z.of_nat change)
            else state)
         candidates (acc, last_change))
  = (acc ++ kept_changes window_size last_change candidates)%list.
Proof.
  induction candidates as [| c candidates IH]; intros acc last_change; simpl.
  - now rewrite app_nil_r.
  - destruct (Z.of_nat c - last_change >=? Z.of_nat window_size)%Z.
    + rewrite IH, <- app_assoc. reflexivity.
    + apply IH.
Qed.

Lemma filter_changes_eq (candidates : list nat) (window_size : nat) :
  filter_changes candidates window_size
  = kept_changes window_size (- Z.of_nat window_size * 2) candidates.
Proof. unfold filter_changes. now rewrite filter_changes_kept. Qed.

(** The guard of [detect_topic_changes] only spares work: on a short
    transcript the first loop has no boundary to look at. *)
Lemma detect_topic_changes_eq {sklearn : Sklearn} (transcript : list entry)
    (window_size : nat) (threshold : Q) :
  detect_topic_changes transcript window_size threshold
  = filter_changes (topic_changes (map text transcript) window_size threshold)
      window_size.
Proof.
  unfold detect_topic_changes.
  destruct (List.length transcript <? window_size * 2)%nat eqn:E; [| reflexivity].
  apply Nat.ltb_lt in E. unfold topic_changes, Py.range.
  rewrite length_map.
  replace (List.length transcript - window_size - window_size)%nat with 0%nat by lia.
  reflexivity.
Qed.

Lemma kept_changes_after (window_size : nat) (candidates : list nat) :
  forall last_change : Z,
  Forall (fun k => (last_change + Z.of_nat window_size <= Z.of_nat k)%Z)
    (kept_changes window_size last_change candidates).
Proof.
  induction candidates as [| c candidates IH]; intros last_change; simpl;
    [constructor |].
  destruct (Z.of_nat c - last_change >=? Z.of_nat window_size)%Z eqn:E; [| apply IH].
  rewrite Z.geb_leb in E. apply Z.leb_le in E.
  constructor; [lia |].
  eapply Forall_impl; [| apply (IH (Z.of_nat c))]. simpl. intros; lia.
Qed.

Lemma kept_changes_spaced (window_size : nat) (candidates : list nat) :
  forall last_change : Z,
  StronglySorted (fun a b => (a + window_size <= b)%nat)
    (kept_changes window_size last_change candidates).
Proof.
  induction candidates as [| c candidates IH]; intros last_change; simpl;
    [constructor |].
  destruct (Z.of_nat c - last_change >=? Z.of_nat window_size)%Z; [| apply IH].
  constructor; [apply IH |].
  eapply Forall_impl; [| apply (kept_changes_after window_size candidates (Z.of_nat c))].
  simpl. intros; lia.
Qed.

Lemma kept_changes_incl (window_size : nat) (candidates : list nat) :
  forall last_change : Z,
  incl (kept_changes window_size last_change candidates) candidates.
Proof.
  induction candidates as [| c candidates IH]; intros last_change; simpl;
    [apply incl_refl |].
  destruct (Z.of_nat c - last_change >=? Z.of_nat window_size)%Z.
  - intros x [<- | Hx]; [now left | right; now apply (IH (Z.of_nat c))].
  - intros x Hx. right. now apply (IH last_change).
Qed.

Lemma kept_changes_cover (window_size : nat) (candidates : list nat) :
  forall last_change : Z,
  StronglySorted lt candidates ->
  forall c, In c candidates ->
  (Z.of_nat c - last_change < Z.of_nat window_size)%Z
  \/ exists k, In k (kept_changes window_size last_change candidates)
               /\ (k <= c)%nat /\ (c = k \/ c < k + window_size)%nat.
Proof.
  induction candidates as [| x candidates IH]; intros last_change Hsorted c Hc;
    [destruct Hc |].
  inversion Hsorted as [| ? ? Hrest Hall]; subst.
  simpl. destruct (Z.of_nat x - last_change >=? Z.of_nat window_size)%Z eqn:E.
  - right. destruct Hc as [<- | Hc].
    + exists x. split; [now left |]. split; [lia | now left].
    + rewrite Forall_forall in Hall. specialize (Hall c Hc).
      destruct (IH (Z.of_nat x) Hrest c Hc) as [Hclose | (k & Hk & Hle & Hnear)].
      * exists x. split; [now left |]. split; [lia | right; lia].
      * exists k. split; [now right |]. now split.
  - rewrite Z.geb_leb in E. apply Z.leb_gt in E.
    destruct Hc as [<- | Hc]; [now left |].
    apply (IH last_change Hrest c Hc).
Qed.

Lemma topic_changes_keeps {sklearn : Sklearn} (P : list nat -> Prop)
    (texts : list string) (window_size : nat) (threshold : Q) :
  (forall l1 x l2, P (l1 ++ x :: l2)%list -> P (l1 ++ l2)%list) ->
  P (Py.range window_size (List.length texts - window_size)) ->
  P (topic_changes texts window_size threshold).
Proof.
  intros Hdrop Hrange. unfold topic_changes.
  set (keep := fun (_ : list nat) (i : nat) =>
                 match tfidf_cosine
                         (Py.join " " (Py.slice texts (i - window_size) i))
                         (Py.join " " (Py.slice texts i (i + window_size)))
                 with
                 | Some similarity => Py.float_ltb similarity threshold
                 | None => false
                 end).
  rewrite (PyFacts.fold_left_ext _
             (fun acc i => if keep acc i then (acc ++ [i])%list else acc)).
  - now apply (VideoSpec.keep_some_fold P Hdrop).
  - intros acc i. unfold keep. destruct (tfidf_cosine _ _); reflexivity.
Qed.

Lemma StronglySorted_both {A : Type} (R1 R2 : A -> A -> Prop) (l : list A) :
  StronglySorted R1 l -> StronglySorted R2 l ->
  StronglySorted (fun a b => R1 a b /\ R2 a b) l.
Proof.
  induction 1 as [| a l H1 IH Hall1]; intros H2; [constructor |].
  inversion H2 as [| ? ? H2' Hall2]; subst.
  constructor; [now apply IH |].
  rewrite Forall_forall in *. intros x Hx. split; auto.
Qed.

(** X1.  The boundaries [detect_topic_changes] returns increase
    strictly, any two of them lie at least [window_size] apart, and each
    has a full window of entries before it and after it. *)
Theorem detected_changes_spaced {sklearn : Sklearn} (transcript : list entry)
    (window_size : nat) (threshold : Q) :
  let changes := detect_topic_changes transcript window_size threshold in
  StronglySorted (fun a b => (a < b /\ a + window_size <= b)%nat) changes
  /\ Forall (fun i => (window_size <= i /\ i + window_size < List.length transcript)%nat)
       changes.
Proof.
  intros changes. split.
  - apply StronglySorted_both.
    + apply (VideoSpec.detect_topic_changes_keeps (StronglySorted lt)).
      * intros l1 x l2. apply VideoSpec.StronglySorted_drop.
      * constructor.
      * apply VideoSpec.seq_increasing.
    + unfold changes. rewrite detect_topic_changes_eq, filter_changes_eq.
      apply kept_changes_spaced.
  - apply (VideoSpec.detect_topic_changes_keeps
             (Forall (fun i => (window_size <= i
                                /\ i + window_size < List.length transcript)%nat))).
    + intros l1 x l2. apply VideoSpec.Forall_drop.
    + constructor.
    + unfold Py.range. apply Forall_forall. intros i Hi.
      apply in_seq in Hi. rewrite length_map in Hi. lia.
Qed.

(** X2.  Of the candidate boundaries the first loop finds, the second loop
    keeps the earliest one, and drops a candidate only when it lies less
    than [window_size] after a boundary it has kept. *)
Theorem dropped_changes_are_close {sklearn : Sklearn} (transcript : list entry)
    (window_size : nat) (threshold : Q) :
  let candidates := topic_changes (map text transcript) window_size threshold in
  let changes := detect_topic_changes transcript window_size threshold in
  hd_error changes = hd_error candidates
  /\ incl changes candidates
  /\ forall c, In c candidates ->
       exists k, In k changes /\ (k <= c)%nat /\ (c = k \/ c < k + window_size)%nat.
Proof.
  intros candidates changes.
  assert (Hchanges : changes
                     = kept_changes window_size (- Z.of_nat window_size * 2) candidates).
  { unfold changes. now rewrite detect_topic_changes_eq, filter_changes_eq. }
  rewrite Hchanges. split; [| split].
  - destruct candidates as [| c rest]; [reflexivity |]. simpl.
    replace (Z.of_nat c - - Z.of_nat window_size * 2 >=? Z.of_nat window_size)%Z
      with true; [reflexivity |].
    symmetry. rewrite Z.geb_leb. apply Z.leb_le. lia.
  - apply kept_changes_incl.
  - intros c Hc.
    assert (Hsorted : StronglySorted lt candidates).
    { apply (topic_changes_keeps (StronglySorted lt)).
      - intros l1 x l2. apply VideoSpec.StronglySorted_drop.
      - apply VideoSpec.seq_increasing. }
    destruct (kept_changes_cover window_size candidates
                (- Z.of_nat window_size * 2) Hsorted c Hc) as [Hclose | H];
      [lia | exact H].
Qed.

(** ** Segments *)

Lemma segments_loop_well_formed (P : segment -> Prop) (transcript : list entry) :
  (forall first text,
     In first transcript -> Py.strip text <> "" ->
     P {| timestamp := format_timestamp (start first);
          start_seconds := start first;
          seg_text := Py.strip text |}) ->
  forall (indices : list nat) (start_idx : nat) (acc segments : list segment),
  Forall P acc ->
  segments_loop transcript indices start_idx acc = Some segments ->
  Forall P segments
  /\ (List.length segments <= List.length acc + List.length indices)%nat.
Proof.
  intros Hbody.
  induction indices as [| c indices IH]; intros start_idx acc segments Hacc Hrun.
  - simpl in Hrun. injection Hrun as <-. split; [exact Hacc | lia].
  - cbn [segments_loop] in Hrun.
    destruct (nth_error transcript start_idx) as [first |] eqn:Hnth; [| discriminate].
    apply nth_error_In in Hnth.
    destruct (String.eqb (Py.strip _) "") eqn:E; cbn [negb] in Hrun.
    + destruct (IH _ _ _ Hacc Hrun) as [H1 H2]. split; [exact H1 | simpl; lia].
    + apply String.eqb_neq in E.
      destruct (IH _ _ _ (proj2 (Forall_app _ _ _)
                            (conj Hacc (Forall_cons _ (Hbody first _ Hnth E)
                                          (Forall_nil _)))) Hrun) as [H1 H2].
      split; [exact H1 |]. rewrite length_app in H2. simpl in *. lia.
Qed.

(** X3.  Whatever the indices, every segment [create_segments_with_topics]
    returns has a text that is not empty and is stripped, starts at the
    start time of an entry of the transcript, and carries the formatted
    start time as its timestamp; there is at most one segment more than
    there are indices. *)
Theorem segments_well_formed (transcript : list entry) (indices : list nat)
    (segments : list segment) :
  create_segments_with_topics transcript indices = Some segments ->
  Forall (fun s =>
            seg_text s <> ""
            /\ Py.strip (seg_text s) = seg_text s
            /\ timestamp s = format_timestamp (start_seconds s)
            /\ In (start_seconds s) (map start transcript))
    segments
  /\ (List.length segments <= List.length indices + 1)%nat.
Proof.
  intros Hrun. unfold create_segments_with_topics in Hrun.
  set (P := fun s =>
              seg_text s <> ""
              /\ Py.strip (seg_text s) = seg_text s
              /\ timestamp s = format_timestamp (start_seconds s)
              /\ In (start_seconds s) (map start transcript)).
  assert (Hbody : forall first text,
             In first transcript -> Py.strip text <> "" ->
             P {| timestamp := format_timestamp (start first);
                  start_seconds := start first;
                  seg_text := Py.strip text |}).
  { intros first text Hfirst Htext. unfold P. cbn [seg_text timestamp start_seconds].
    repeat split; [exact Htext | apply PyMore.strip_idempotent |].
    now apply in_map. }
  destruct (segments_loop_well_formed P transcript Hbody _ _ _ _ (Forall_nil P) Hrun)
    as [H1 H2].
  split; [exact H1 |]. rewrite length_app in H2. simpl in H2. lia.
Qed.

Lemma segments_well_formed_witness :
  exists segments,
    create_segments_with_topics Examples.three_entries [2%nat; 1%nat] = Some segments
    /\ (List.length segments <= 3)%nat.
Proof.
  eexists. split; [reflexivity |].
  exact (proj2 (segments_well_formed Examples.three_entries [2%nat; 1%nat] _ eq_refl)).
Defined.

(** ** Segment summaries *)

Lemma firstn_NoDup {A : Type} (k : nat) (l : list A) : NoDup l -> NoDup (firstn k l).
Proof.
  intros H. rewrite <- (firstn_skipn k l) in H. now apply NoDup_app_remove_r in H.
Qed.

Lemma firstn_In {A : Type} (k : nat) (l : list A) (x : A) :
  In x (firstn k l) -> In x l.
Proof.
  intros H. rewrite <- (firstn_skipn k l). apply in_or_app. now left.
Qed.

Section Summaries.

Context {nltk : Nltk}.

(** The indices [summarize_segment] keeps: as many as asked for, in
    increasing order. *)
Lemma top_indices_increasing (scores : list Q) (max_sentences : Z) :
  (0 <= max_sentences)%Z ->
  let indices := top_indices scores max_sentences in
  StronglySorted lt indices
  /\ Forall (fun i => (i < List.length scores)%nat) indices
  /\ List.length indices = Nat.min (Z.to_nat max_sentences) (List.length scores).
Proof.
  intros Hmax. unfold top_indices.
  set (ranked := Py.sorted _ (Py.range 0 (List.length scores))).
  assert (Hperm : Permutation ranked (seq 0 (List.length scores))).
  { unfold ranked, Py.range. rewrite Nat.sub_0_r. apply PyFacts.sorted_perm. }
  rewrite PyMore.slice_to_firstn by exact Hmax.
  set (top := firstn (Z.to_nat max_sentences) ranked).
  pose proof (PyFacts.sorted_perm Nat.ltb top) as Hsorted.
  assert (Hnodup : NoDup top).
  { apply firstn_NoDup, (Permutation_NoDup (Permutation_sym Hperm)), seq_NoDup. }
  cbv zeta. split; [| split].
  - apply BackendSpec.increasing_of_distinct; [apply PyMore.sorted_ascending |].
    apply (Permutation_NoDup (Permutation_sym Hsorted) Hnodup).
  - apply (Permutation_Forall (Permutation_sym Hsorted)).
    apply Forall_forall. intros i Hi. apply firstn_In in Hi.
    apply (Permutation_in _ Hperm), in_seq in Hi. lia.
  - rewrite (Permutation_length Hsorted). unfold top.
    rewrite length_firstn, (Permutation_length Hperm), length_seq. reflexivity.
Qed.

Lemma length_score_range (n : nat) :
  0 <= Py.float_min (inject_Z (Z.of_nat n) / 15) 1 <= 1.
Proof.
  unfold Py.float_min.
  destruct (Py.float_ltb 1 (inject_Z (Z.of_nat n) / 15)) eqn:E.
  - split; discriminate.
  - apply BackendSpec.float_ltb_ge in E. split; [| exact E].
    unfold Qle, Qdiv, Qmult, Qinv, inject_Z. simpl. lia.
Qed.

Lemma segment_score_first (sentence : string) : 6 # 10 <= segment_score 0 sentence.
Proof.
  unfold segment_score.
  match goal with
  | |- context [Py.float_min (inject_Z (Z.of_nat ?n) / 15) 1] =>
      pose proof (proj1 (length_score_range n)) as Hl;
      set (l := Py.float_min (inject_Z (Z.of_nat n) / 15) 1) in *
  end.
  change (1 / inject_Z (Z.of_nat 0 + 1)) with 1.
  rewrite Qmult_1_l. rewrite <- (Qplus_0_r (6 # 10)) at 1.
  apply Qplus_le_compat; [apply Qle_refl |].
  apply Qmult_le_0_compat; [exact Hl | discriminate].
Qed.

Lemma segment_score_late (i : nat) (sentence : string) :
  (2 <= i)%nat -> segment_score i sentence <= 6 # 10.
Proof.
  intros Hi. unfold segment_score.
  match goal with
  | |- context [Py.float_min (inject_Z (Z.of_nat ?n) / 15) 1] =>
      pose proof (proj2 (length_score_range n)) as Hl;
      set (l := Py.float_min (inject_Z (Z.of_nat n) / 15) 1) in *
  end.
  assert (Hp : 1 / inject_Z (Z.of_nat i + 1) <= 1 # 3).
  { destruct (Z.of_nat i + 1)%Z as [| p | p] eqn:Ep; try lia.
    unfold Qle, Qdiv, Qmult, Qinv, inject_Z. cbn [Qnum Qden]. lia. }
  apply Qle_trans with ((1 # 3) * (6 # 10) + 1 * (4 # 10)); [| discriminate].
  apply Qplus_le_compat; apply Qmult_le_compat_r;
    [exact Hp | discriminate | exact Hl | discriminate].
Qed.

Lemma enumerate_score (sentences : list string) (i : nat) :
  (i < List.length sentences)%nat ->
  nth i (map (fun item => segment_score (fst item) (snd item))
           (Py.enumerate sentences)) 0
  = segment_score i (nth i sentences "").
Proof.
  intros Hi. unfold Py.enumerate.
  rewrite (nth_indep _ 0 (segment_score (fst (0%nat, "")) (snd (0%nat, ""))))
    by (rewrite length_map, length_combine, length_seq; lia).
  rewrite (map_nth (fun item => segment_score (fst item) (snd item))).
  rewrite combine_nth by apply length_seq.
  now rewrite seq_nth by exact Hi.
Qed.

Lemma all_ones_short (l : list nat) :
  NoDup l -> Forall (fun y => y = 1%nat) l -> (List.length l <= 1)%nat.
Proof.
  intros Hnodup Hall. destruct l as [| a [| b l]]; simpl; try lia.
  inversion Hall as [| ? ? Ha Hall']; subst.
  inversion Hall' as [| ? ? Hb _]; subst.
  inversion Hnodup as [| ? ? Hnot _]; subst.
  exfalso. apply Hnot. now left.
Qed.

Lemma increasing_from_zero (l : list nat) :
  StronglySorted lt l -> In 0%nat l -> exists rest, l = 0%nat :: rest.
Proof.
  intros Hsorted Hin. destruct l as [| a l]; [destruct Hin |].
  destruct Hin as [-> | Hin]; [eauto |].
  inversion Hsorted as [| ? ? _ Hall]; subst.
  rewrite Forall_forall in Hall. specialize (Hall 0%nat Hin). lia.
Qed.

(** The first sentence is outranked by the second one at most. *)
Lemma first_sentence_ranked (sentences : list string) (max_sentences : Z) :
  (2 <= max_sentences)%Z ->
  sentences <> [] ->
  In 0%nat
    (top_indices
       (map (fun item => segment_score (fst item) (snd item)) (Py.enumerate sentences))
       max_sentences).
Proof.
  intros Hmax Hne. unfold top_indices.
  set (scores := map _ (Py.enumerate sentences)).
  assert (Hlen : List.length scores = List.length sentences).
  { unfold scores, Py.enumerate.
    rewrite length_map, length_combine, length_seq. apply Nat.min_id. }
  rewrite Hlen.
  apply (Permutation_in _ (Permutation_sym (PyFacts.sorted_perm Nat.ltb _))).
  rewrite PyMore.slice_to_firstn by lia.
  destruct sentences as [| first others]; [congruence |].
  set (n := List.length others) in *.
  unfold Py.range. cbn [List.length Nat.sub seq Py.sorted fold_right].
  fold n.
  set (before := fun y x : nat => Py.float_ltb (nth x scores 0) (nth y scores 0)).
  fold (Py.sorted before (seq 1 n)).
  destruct (PyMore.insert_sorted_split before 0%nat (Py.sorted before (seq 1 n)))
    as (front & back & -> & Hsplit & Hfront).
  pose proof (PyFacts.sorted_perm before (seq 1 n)) as Hperm.
  rewrite Hsplit in Hperm.
  assert (Hones : Forall (fun y => y = 1%nat) front).
  { apply Forall_forall. intros y Hy.
    rewrite Forall_forall in Hfront. specialize (Hfront y Hy).
    assert (Hrange : In y (seq 1 n)).
    { apply (Permutation_in _ Hperm), in_or_app. now left. }
    apply in_seq in Hrange.
    destruct (Nat.eq_dec y 1) as [-> | Hy1]; [reflexivity | exfalso].
    unfold before in Hfront. apply BackendSpec.float_ltb_lt in Hfront.
    unfold scores in Hfront.
    rewrite !enumerate_score in Hfront by (simpl; fold n; lia).
    apply (Qlt_not_le _ _ Hfront).
    apply Qle_trans with (6 # 10);
      [apply segment_score_late; lia | apply segment_score_first]. }
  assert (Hshort : (List.length front <= 1)%nat).
  { apply all_ones_short; [| exact Hones].
    apply (NoDup_app_remove_r front back).
    apply (Permutation_NoDup (Permutation_sym Hperm)), seq_NoDup. }
  rewrite firstn_app. apply in_or_app. right.
  destruct (Z.to_nat max_sentences - List.length front)%nat as [| k] eqn:Ek; [lia |].
  now left.
Qed.

(** X4.  [summarize_segment] returns a text of at most [max_sentences]
    sentences as it is; of a longer text it returns exactly
    [max_sentences] sentences, taken at increasing positions and joined by
    blanks. *)
Theorem summarize_segment_count (text : string) (max_sentences : Z) :
  (0 <= max_sentences)%Z ->
  let sentences := sent_tokenize text in
  ((Z.of_nat (List.length sentences) <= max_sentences)%Z ->
   summarize_segment text max_sentences = text)
  /\ ((max_sentences < Z.of_nat (List.length sentences))%Z ->
      exists indices,
        StronglySorted lt indices
        /\ Forall (fun i => (i < List.length sentences)%nat) indices
        /\ List.length indices = Z.to_nat max_sentences
        /\ summarize_segment text max_sentences
           = Py.join " " (map (fun i => nth i sentences "") indices)).
Proof.
  intros Hmax sentences. unfold summarize_segment. fold sentences. split.
  - intros Hfew. now rewrite (proj2 (Z.leb_le _ _)) by exact Hfew.
  - intros Hmore. rewrite (proj2 (Z.leb_gt _ _)) by exact Hmore.
    set (scores := map _ (Py.enumerate sentences)).
    assert (Hlen : List.length scores = List.length sentences).
    { unfold scores, Py.enumerate.
      rewrite length_map, length_combine, length_seq. apply Nat.min_id. }
    destruct (top_indices_increasing scores max_sentences Hmax) as (H1 & H2 & H3).
    exists (top_indices scores max_sentences).
    rewrite Hlen in H2, H3.
    repeat split; [exact H1 | exact H2 | lia].
Qed.

(** X5.  Asked for two sentences or more, [summarize_segment] keeps the
    first sentence of a longer text: the summary begins with it. *)
Theorem summarize_segment_keeps_first (text : string) (max_sentences : Z) :
  (2 <= max_sentences)%Z ->
  let sentences := sent_tokenize text in
  (max_sentences < Z.of_nat (List.length sentences))%Z ->
  exists others,
    summarize_segment text max_sentences
    = Py.join " " (nth 0 sentences "" :: others)
    /\ Forall (fun s => In s sentences) others
    /\ List.length others = Z.to_nat (max_sentences - 1).
Proof.
  intros Hmax sentences Hmore. unfold summarize_segment. fold sentences.
  rewrite (proj2 (Z.leb_gt _ _)) by exact Hmore.
  set (scores := map _ (Py.enumerate sentences)).
  assert (Hlen : List.length scores = List.length sentences).
  { unfold scores, Py.enumerate.
    rewrite length_map, length_combine, length_seq. apply Nat.min_id. }
  destruct (top_indices_increasing scores max_sentences ltac:(lia))
    as (Hsorted & Hbound & Hcount).
  assert (Hne : sentences <> []).
  { intros E. rewrite E in Hmore. simpl in Hmore. lia. }
  destruct (increasing_from_zero _ Hsorted
              (first_sentence_ranked sentences max_sentences Hmax Hne))
    as (rest & Hrest).
  fold scores in Hrest. rewrite Hrest in *.
  exists (map (fun i => nth i sentences "") rest).
  split; [reflexivity |]. split.
  - apply Forall_forall. intros s Hs. apply in_map_iff in Hs.
    destruct Hs as (i & <- & Hi). apply nth_In.
    inversion Hbound as [| ? ? _ Hb]; subst.
    rewrite Forall_forall in Hb. specialize (Hb i Hi). lia.
  - rewrite length_map. simpl in Hcount. lia.
Qed.

End Summaries.

Lemma summarize_segment_keeps_first_witness :
  exists others,
    @summarize_segment Examples.simple_nltk
      "Short. This second sentence is the long one of the three. Last one." 2
    = Py.join " " ("Short." :: others).
Proof.
  destruct (@summarize_segment_keeps_first Examples.simple_nltk
              "Short. This second sentence is the long one of the three. Last one." 2
              ltac:(lia) ltac:(vm_compute; reflexivity)) as (others & H & _).
  exists others. exact H.
Defined.

Lemma summarize_segment_count_witness :
  @summarize_segment Examples.simple_nltk "One two three. Four five." 2
  = "One two three. Four five.".
Proof.
  refine (proj1 (@summarize_segment_count Examples.simple_nltk
                   "One two three. Four five." 2 _) _).
  - lia.
  - vm_compute. discriminate.
Defined.

(** ** The whole pipeline *)

(** [get_youtube_transcript] returns a transcript or a message that is
    not empty, never both and never neither. *)
Lemma get_youtube_transcript_outcome {re_group : ReGroup} {youtube : Youtube}
    (url : string) :
  (exists id transcript,
     extract_video_id url = Some id
     /\ get_transcript id = Transcript transcript
     /\ get_youtube_transcript url = (Some transcript, None))
  \/ (exists message,
        get_youtube_transcript url = (None, Some message)
        /\ Py.truthy (Some message) = true).
Proof.
  unfold get_youtube_transcript.
  destruct (extract_video_id url) as [id |] eqn:Eid; cbn [Py.truthy negb].
  2:{ right. eexists. split; reflexivity. }
  destruct (String.eqb id "") eqn:Eempty; cbn [negb].
  { right. eexists. split; reflexivity. }
  destruct (get_transcript id) as [transcript | | | message] eqn:Eget.
  - left. now exists id, transcript.
  - right. eexists. split; reflexivity.
  - right. eexists. split; reflexivity.
  - right. eexists. split; reflexivity.
Qed.

Lemma create_segments_of_detected {sklearn : Sklearn} (transcript : list entry) :
  transcript <> [] ->
  exists segments,
    create_segments_with_topics transcript
      (detect_topic_changes transcript 5 (35 # 100)) = Some segments.
Proof.
  intros Hne.
  assert (Hlen : (0 < List.length transcript)%nat).
  { destruct transcript; [congruence | simpl; lia]. }
  destruct (VideoSpec.detect_topic_changes_indices transcript 5 (35 # 100))
    as [_ Hbound].
  unfold create_segments_with_topics.
  rewrite (VideoSpec.segments_loop_slices transcript _ 0 [] Hlen Hbound).
  eauto.
Qed.

Lemma create_segments_count (transcript : list entry) (indices : list nat)
    (segments : list segment) :
  create_segments_with_topics transcript indices = Some segments ->
  (List.length segments <= List.length indices + 1)%nat.
Proof.
  intros Hrun. unfold create_segments_with_topics in Hrun.
  destruct (segments_loop_well_formed (fun _ => True) transcript
              (fun _ _ _ _ => I) _ _ _ _ (Forall_nil _) Hrun) as [_ H].
  rewrite length_app in H. simpl in H. lia.
Qed.

(** X6.  [summarize_video_with_timestamps] raises no exception.  It
    returns a result exactly when the video id is found and the API
    delivers a transcript that is not empty; the result then counts its
    segments, which are at most one more than the topic changes detected.
    In every other case it returns an error message that is not empty,
    and no result. *)
Theorem video_summary_outcome {nltk : Nltk} {sklearn : Sklearn}
    {re_group : ReGroup} {youtube : Youtube} (url : string) :
  (exists id transcript result,
     extract_video_id url = Some id
     /\ get_transcript id = Transcript transcript
     /\ transcript <> []
     /\ summarize_video_with_timestamps url = Some (Some result, None)
     /\ total_segments result = List.length (segments result)
     /\ (List.length (segments result)
         <= List.length (detect_topic_changes transcript 5 (35 # 100)) + 1)%nat
     /\ full_summary result = Py.join " " (map summary (segments result)))
  \/ (exists message,
        summarize_video_with_timestamps url = Some (None, Some message)
        /\ message <> ""
        /\ forall id transcript,
             extract_video_id url = Some id ->
             id <> "" ->
             get_transcript id = Transcript transcript ->
             transcript = []).
Proof.
  unfold summarize_video_with_timestamps.
  destruct (get_youtube_transcript_outcome url)
    as [(id & transcript & Hid & Hget & Heq) | (message & Heq & Htruthy)];
    rewrite Heq.
  - cbn [Py.truthy].
    destruct transcript as [| first rest] eqn:Et.
    + right. exists "Empty transcript". split; [reflexivity |].
      split; [discriminate |].
      intros id' transcript' Hid' _ Hget'. congruence.
    + rewrite <- Et in *.
      assert (Hne : transcript <> []) by (rewrite Et; discriminate).
      replace (List.length transcript =? 0)%nat with false
        by (rewrite Et; reflexivity).
      destruct (create_segments_of_detected transcript Hne) as (segs & Hsegs).
      rewrite Hsegs.
      destruct (nth_error transcript (List.length transcript - 1))
        as [last_entry |] eqn:El.
      2:{ apply nth_error_None in El. rewrite Et in El. simpl in El. lia. }
      left. eexists id, transcript, _.
      split; [exact Hid |]. split; [exact Hget |]. split; [exact Hne |].
      split; [reflexivity |]. cbn [total_segments segments full_summary].
      split; [reflexivity |]. split; [| reflexivity].
      rewrite length_map. exact (create_segments_count _ _ _ Hsegs).
  - rewrite Htruthy. right. exists message. split; [reflexivity |].
    split.
    + intros ->. discriminate.
    + intros id transcript Hid Hne Hget. exfalso.
      unfold get_youtube_transcript in Heq. rewrite Hid in Heq.
      cbn [Py.truthy] in Heq.
      apply String.eqb_neq in Hne. rewrite Hne in Heq. cbn [negb] in Heq.
      rewrite Hget in Heq. discriminate.
Qed.

End VideoExtra.
(** * More properties of backend_api.py *)

Module BackendExtra.

Import Lib backend_api.

Local Open Scope Q_scope.

(** ** The scorer and the summarizers *)

Lemma endswith_dot (s : string) : Py.endswith (s ++ ".") "." = true.
Proof.
  unfold Py.endswith.
  assert (Hlen : String.length (s ++ ".") = S (String.length s)).
  { induction s; simpl; congruence. }
  rewrite Hlen. cbn [String.length Nat.leb andb Nat.sub].
  rewrite Nat.sub_0_r.
  assert (Hsub : String.substring (String.length s) 1 (s ++ ".") = ".").
  { induction s; simpl; auto. }
  now rewrite Hsub.
Qed.

Lemma firstn_words (k : nat) (ws : list string) :
  Forall Py.is_word ws -> Forall Py.is_word (firstn k ws).
Proof.
  intros H. apply Forall_forall. intros w Hw.
  rewrite Forall_forall in H. apply H.
  rewrite <- (firstn_skipn k ws). apply in_or_app. now left.
Qed.

Section Summarizers.

Context {nltk : Nltk} {re : Re} {sklearn : Sklearn} {set_order : SetOrder}
        {transformers : Transformers}.

(** X7.  [calculate_sentence_importance] raises on the empty list (the
    maximum of an empty matrix) and on no other: for [n >= 1] sentences it
    returns exactly one score for each of the keys [0 .. n - 1], in this
    order. *)
Theorem scorer_edge_cases (sentences stop_words : list string) :
  (sentences = [] -> calculate_sentence_importance sentences stop_words = None)
  /\ (sentences <> [] ->
      exists scores,
        calculate_sentence_importance sentences stop_words = Some scores
        /\ map fst scores = seq 0 (List.length sentences)
        /\ List.length scores = List.length sentences).
Proof.
  split.
  - intros ->. reflexivity.
  - intros Hne.
    destruct (BackendSpec.calculate_sentence_importance_keys sentences stop_words Hne)
      as (scores & Hscores & Hkeys).
    exists scores. repeat split; [exact Hscores | exact Hkeys |].
    rewrite <- (length_map fst), Hkeys. apply length_seq.
Qed.

(** X8.  [textrank_summarize] raises no exception, whatever the text and
    whatever [max_sentences], negative values included; a text without a
    candidate sentence gives the fixed message. *)
Theorem textrank_summarize_total (text : string) (max_sentences : option Z) :
  (exists summary, textrank_summarize text max_sentences = Some summary)
  /\ (candidates text = [] ->
      textrank_summarize text max_sentences = Some "Unable to generate summary.").
Proof.
  unfold textrank_summarize.
  fold (target_length text max_sentences). fold (candidates text).
  split.
  - destruct (List.length (candidates text) =? 0)%nat eqn:E; [eauto |].
    destruct (Z.of_nat (List.length (candidates text))
              <=? target_length text max_sentences)%Z; [eauto |].
    destruct (BackendSpec.calculate_sentence_importance_keys (candidates text)
                (Py.set_of stopwords_english)) as (scores & -> & _); [| eauto].
    intros H. now rewrite H in E.
  - intros ->. reflexivity.
Qed.

Lemma model_input_words (text : string) (max_sentences : Z) (input : string) :
  model_input text max_sentences = Some input ->
  (List.length (Py.split input) <= 1024)%nat.
Proof.
  unfold model_input. generalize 1024%nat. intros capacity.
  set (extracted := if (capacity <? List.length (Py.split text))%nat then _ else _).
  assert (Hinv : forall t ws, extracted = Some (t, ws) -> ws = Py.split t).
  { unfold extracted. intros t ws.
    destruct (capacity <? List.length (Py.split text))%nat; [| now intros [= <- <-]].
    destruct (max_sentences * 3 <? _)%Z; [| now intros [= <- <-]].
    destruct (calculate_sentence_importance _ _); [| discriminate].
    now intros [= <- <-]. }
  destruct extracted as [[t ws] |]; [| discriminate].
  specialize (Hinv t ws eq_refl). subst ws. intros [= <-].
  destruct (capacity <? List.length (Py.split t))%nat eqn:E.
  - rewrite PyMore.split_join_words
      by apply firstn_words, PyMore.split_gives_words.
    rewrite length_firstn. lia.
  - apply Nat.ltb_ge in E. exact E.
Qed.

Lemma generation_lengths_range (max_sentences : Z) (input_length : nat) :
  let '(max_length, min_length) := generation_lengths max_sentences input_length in
  (50 <= max_length <= 500 /\ 30 <= min_length <= max_length - 20)%Z.
Proof. unfold generation_lengths. lia. Qed.

(** X9.  Whenever [transformer_summarize] returns a summary, the model was
    called with a text of at most 1024 words, a [max_length] between 50
    and 500 and a [min_length] between 30 and [max_length - 20]; the
    summary is the stripped output of the model, closed by a period when
    it had none, so that it always ends with a period. *)
Theorem transformer_call_bounds (text : string) (max_sentences : option Z)
    (summary : string) :
  transformer_summarize text max_sentences = Some summary ->
  exists input max_length min_length output,
    summarizer input max_length min_length = Some output
    /\ (List.length (Py.split input) <= 1024)%nat
    /\ (50 <= max_length <= 500)%Z
    /\ (30 <= min_length <= max_length - 20)%Z
    /\ (summary = Py.strip output \/ summary = Py.strip output ++ ".")
    /\ Py.endswith summary "." = true.
Proof.
  unfold transformer_summarize.
  pose proof (generation_lengths_range
                (effective_max_sentences (Py.strip text) max_sentences)
                (List.length (Py.split (Py.strip text)))) as Hrange.
  destruct (generation_lengths _ _) as [max_length min_length].
  destruct (model_input _ _) as [input |] eqn:Einput; [| discriminate].
  destruct (summarizer input max_length min_length) as [output |] eqn:Eout;
    [| discriminate].
  intros [= <-].
  exists input, max_length, min_length, output.
  split; [exact Eout |].
  split; [exact (model_input_words _ _ _ Einput) |].
  split; [apply Hrange |]. split; [apply Hrange |].
  destruct (Py.endswith (Py.strip output) ".") eqn:E; cbn [negb].
  - split; [now left | exact E].
  - split; [now right | apply endswith_dot].
Qed.

End Summarizers.

Lemma scorer_edge_cases_witness :
  @calculate_sentence_importance Examples.simple_nltk Examples.simple_re
    Examples.simple_sklearn Examples.left_to_right [] [] = None.
Proof.
  exact (proj1 (@scorer_edge_cases Examples.simple_nltk Examples.simple_re
                  Examples.simple_sklearn Examples.left_to_right [] []) eq_refl).
Defined.

(** A model for the examples: it echoes its input. *)
Lemma transformer_call_bounds_witness :
  let echo := {| summarizer := fun text _ _ => Some text |} in
  @transformer_summarize Examples.simple_nltk Examples.simple_re
    Examples.simple_sklearn Examples.left_to_right echo
    " The cat sat on the mat " (Some 2%Z)
  = Some "The cat sat on the mat.".
Proof.
  intros echo.
  destruct (@transformer_call_bounds Examples.simple_nltk Examples.simple_re
              Examples.simple_sklearn Examples.left_to_right echo
              " The cat sat on the mat " (Some 2%Z) "The cat sat on the mat."
              eq_refl) as (_ & _ & _ & _ & _ & _ & _ & _ & _ & _).
  reflexivity.
Defined.

(** ** Duplicates *)




Section Duplicates.

Context {nltk : Nltk} {re : Re}.



End Duplicates.

Example unique_sentences_example :
  unique_sentences ["The cat sat. "; "Dogs bark."; " the CAT sat."]
  = ["The cat sat."; "Dogs bark."].
Proof. reflexivity. Qed.

(** ** What the selection keeps *)

Lemma gtb_true (a b : R) : Np.gtb a b = true <-> (b < a)%R.
Proof.
  unfold Np.gtb. destruct (Rlt_dec b a); split; intros; auto; discriminate.
Qed.

Lemma gtb_false (a b : R) : Np.gtb a b = false <-> (a <= b)%R.
Proof.
  unfold Np.gtb. destruct (Rlt_dec b a) as [H | H]; split; intros H'; auto.
  - discriminate.
  - exfalso. apply (Rlt_irrefl b). now apply Rlt_le_trans with a.
  - now apply Rnot_lt_le.
Qed.

Lemma insert_by_score_descending (x : nat * R) (l : list (nat * R)) :
  StronglySorted (fun p q => (snd q <= snd p)%R) l ->
  StronglySorted (fun p q => (snd q <= snd p)%R)
    (Py.insert_sorted (fun y x => Np.gtb (snd y) (snd x)) x l).
Proof.
  induction l as [| y l IH]; intros Hsorted; cbn [Py.insert_sorted].
  - repeat constructor.
  - inversion Hsorted as [| ? ? Hrest Hall]; subst.
    destruct (Np.gtb (snd y) (snd x)) eqn:E.
    + apply gtb_true in E. constructor; [now apply IH |].
      apply (Permutation_Forall
               (Permutation_sym (PyFacts.insert_sorted_perm _ x l))).
      constructor; [now apply Rlt_le | exact Hall].
    + apply gtb_false in E. constructor; [exact Hsorted |].
      constructor; [exact E |].
      eapply Forall_impl; [| exact Hall].
      intros p Hp. simpl in *. now apply Rle_trans with (snd y).
Qed.

(** The ranking lists the scores from the highest to the lowest. *)
Lemma rank_descending (sentence_scores : list (nat * R)) :
  StronglySorted (fun p q => (snd q <= snd p)%R) (rank sentence_scores).
Proof.
  unfold rank. induction sentence_scores as [| x l IH]; [constructor |].
  cbn [Py.sorted fold_right]. now apply insert_by_score_descending.
Qed.

Section Kept.

Context {nltk : Nltk}.

Lemma select_extends_strict (filtered : list string) (sentence_scores : list (nat * R))
    (max_sentences : Z) :
  map fst sentence_scores = seq 0 (List.length filtered) ->
  (0 <= max_sentences)%Z ->
  incl (fst (strict_pass filtered max_sentences (rank sentence_scores) ([], [])))
       (fst (select filtered sentence_scores max_sentences)).
Proof.
  intros Hkeys Hmax. unfold select.
  pose proof (BackendSpec.rank_keys sentence_scores) as Hperm. rewrite Hkeys in Hperm.
  set (ranked := rank sentence_scores) in *.
  assert (Hnodup : NoDup (map fst ranked)).
  { apply (Permutation_NoDup (Permutation_sym Hperm)), seq_NoDup. }
  destruct (BackendSpec.strict_pass_bounded filtered max_sentences ranked ([], []))
    as (S1 & _ & S3); [exact Hnodup | simpl; lia |].
  pose proof (BackendSpec.strict_pass_sentences filtered max_sentences ranked
                ([], []) eq_refl) as S4.
  destruct (Z.of_nat _ <? max_sentences)%Z; [| apply incl_refl].
  now destruct (BackendSpec.backfill_bounded filtered max_sentences ranked _ S1 S3 S4)
    as (_ & _ & B3 & _).
Qed.

Lemma strict_pass_extends (filtered : list string) (max_sentences : Z)
    (ranked : list (nat * R)) :
  forall state : selection,
  incl (fst state) (fst (strict_pass filtered max_sentences ranked state)).
Proof.
  induction ranked as [| [idx score] ranked IH]; intros [sel sents];
    [apply incl_refl |].
  cbn [strict_pass].
  destruct (Z.of_nat (List.length sel) >=? max_sentences)%Z; [apply incl_refl |].
  destruct (is_redundant filtered (nth idx filtered "") sel); [apply IH |].
  intros x Hx. apply (IH (sel ++ [idx], sents ++ [nth idx filtered ""])%list).
  cbn [fst] in *. apply in_or_app. now left.
Qed.

(** X11.  With a target of at least one, a sentence of highest score is
    always part of the summary: the first candidate of the ranking is
    never rejected and never displaced. *)
Theorem best_sentence_selected (filtered : list string)
    (sentence_scores : list (nat * R)) (max_sentences : Z) :
  map fst sentence_scores = seq 0 (List.length filtered) ->
  (1 <= max_sentences < Z.of_nat (List.length filtered))%Z ->
  exists idx score,
    In (idx, score) sentence_scores
    /\ (forall item, In item sentence_scores -> (snd item <= score)%R)
    /\ In idx (fst (select filtered sentence_scores max_sentences))
    /\ In (nth idx filtered "")
         (final_sentences (select filtered sentence_scores max_sentences)).
Proof.
  intros Hkeys Hmax.
  pose proof (PyFacts.sorted_perm (fun y x => Np.gtb (snd y) (snd x)) sentence_scores)
    as Hperm.
  fold (rank sentence_scores) in Hperm.
  pose proof (rank_descending sentence_scores) as Hsorted.
  destruct (rank sentence_scores) as [| [idx score] rest] eqn:Erank.
  { apply Permutation_length in Hperm. simpl in Hperm.
    rewrite <- (length_map fst), Hkeys, length_seq in Hperm. lia. }
  assert (Hselected : In idx (fst (select filtered sentence_scores max_sentences))).
  { apply (select_extends_strict filtered sentence_scores max_sentences Hkeys);
      [lia |].
    rewrite Erank. cbn [strict_pass List.length].
    rewrite Z.geb_leb, (proj2 (Z.leb_gt _ _)) by (simpl; lia).
    cbn [is_redundant existsb app].
    apply strict_pass_extends. now left. }
  exists idx, score. split; [| split; [| split; [exact Hselected |]]].
  - apply (Permutation_in _ Hperm). now left.
  - intros item Hitem. apply (Permutation_in _ (Permutation_sym Hperm)) in Hitem.
    destruct Hitem as [<- | Hitem]; [apply Rle_refl |].
    inversion Hsorted as [| ? ? _ Hall]; subst.
    rewrite Forall_forall in Hall. now apply (Hall item).
  - destruct (BackendSpec.select_count filtered sentence_scores max_sentences Hkeys
                ltac:(lia)) as (_ & Hdistinct & Hsnd & _).
    destruct (BackendSpec.final_sentences_in_order filtered _ Hdistinct Hsnd)
      as (indices & Hp & _ & ->).
    apply in_map_iff. exists idx. split; [reflexivity |].
    now apply (Permutation_in _ (Permutation_sym Hp)).
Qed.

Lemma strict_pass_all_apart (filtered : list string) (max_sentences : Z)
    (ranked : list (nat * R)) :
  (forall i j,
     (i < List.length filtered)%nat -> (j < List.length filtered)%nat -> i <> j ->
     are_sentences_similar (nth i filtered "") (nth j filtered "") (1 # 2) = false) ->
  forall state : selection,
  NoDup (fst state ++ map fst ranked) ->
  Forall (fun i => (i < List.length filtered)%nat) (fst state ++ map fst ranked) ->
  (Z.of_nat (List.length (fst state)) <= max_sentences)%Z ->
  fst (strict_pass filtered max_sentences ranked state)
  = (fst state
     ++ firstn (Z.to_nat (max_sentences - Z.of_nat (List.length (fst state))))
          (map fst ranked))%list.
Proof.
  intros Hapart.
  induction ranked as [| [idx score] ranked IH]; intros [sel sents] Hnodup Hbound Hlen.
  - cbn [strict_pass map fst]. now rewrite firstn_nil, app_nil_r.
  - cbn [strict_pass map fst] in *.
    destruct (Z.of_nat (List.length sel) >=? max_sentences)%Z eqn:Efull.
    + rewrite Z.geb_leb in Efull. apply Z.leb_le in Efull.
      replace (max_sentences - Z.of_nat (List.length sel))%Z with 0%Z by lia.
      cbn [Z.to_nat firstn fst]. now rewrite app_nil_r.
    + rewrite Z.geb_leb in Efull. apply Z.leb_gt in Efull.
      assert (Hred : is_redundant filtered (nth idx filtered "") sel = false).
      { unfold is_redundant. apply not_true_is_false. intros H.
        apply existsb_exists in H. destruct H as (j & Hj & Hsim).
        rewrite Forall_forall in Hbound.
        rewrite Hapart in Hsim; [discriminate | | |].
        - apply Hbound, in_or_app. right. now left.
        - apply Hbound, in_or_app. now left.
        - intros ->. apply NoDup_remove_2 in Hnodup. apply Hnodup.
          apply in_or_app. now left. }
      rewrite Hred, IH.
      * cbn [fst]. rewrite length_app, <- app_assoc. cbn [List.length app].
        replace (Z.to_nat (max_sentences - Z.of_nat (List.length sel)))
          with (S (Z.to_nat (max_sentences - Z.of_nat (List.length sel + 1))))
          by lia.
        reflexivity.
      * cbn [fst]. now rewrite <- app_assoc.
      * cbn [fst]. now rewrite <- app_assoc.
      * cbn [fst]. rewrite length_app. simpl. lia.
Qed.

(** X12.  When no two candidates are similar, nothing is rejected: the
    selection is made of the [max_sentences] first candidates of the
    ranking, in the order of the ranking, and the backfill has nothing to
    add. *)
Theorem selection_without_redundancy (filtered : list string)
    (sentence_scores : list (nat * R)) (max_sentences : Z) :
  map fst sentence_scores = seq 0 (List.length filtered) ->
  (0 <= max_sentences < Z.of_nat (List.length filtered))%Z ->
  (forall i j,
     (i < List.length filtered)%nat -> (j < List.length filtered)%nat -> i <> j ->
     are_sentences_similar (nth i filtered "") (nth j filtered "") (1 # 2) = false) ->
  select filtered sentence_scores max_sentences
  = strict_pass filtered max_sentences (rank sentence_scores) ([], [])
  /\ fst (select filtered sentence_scores max_sentences)
     = firstn (Z.to_nat max_sentences) (map fst (rank sentence_scores)).
Proof.
  intros Hkeys Hmax Hapart.
  pose proof (BackendSpec.rank_keys sentence_scores) as Hperm. rewrite Hkeys in Hperm.
  assert (Hnodup : NoDup (map fst (rank sentence_scores))).
  { apply (Permutation_NoDup (Permutation_sym Hperm)), seq_NoDup. }
  assert (Hbound : Forall (fun i => (i < List.length filtered)%nat)
                     (map fst (rank sentence_scores))).
  { apply (Permutation_Forall (Permutation_sym Hperm)).
    apply Forall_forall. intros i Hi. apply in_seq in Hi. lia. }
  pose proof (strict_pass_all_apart filtered max_sentences (rank sentence_scores)
                Hapart ([], []) Hnodup Hbound ltac:(simpl; lia)) as Hstrict.
  cbn [fst List.length app] in Hstrict. rewrite Z.sub_0_r in Hstrict.
  assert (Hselect : select filtered sentence_scores max_sentences
                    = strict_pass filtered max_sentences (rank sentence_scores) ([], [])).
  { unfold select. rewrite Hstrict, length_firstn.
    rewrite (Permutation_length Hperm), length_seq.
    now rewrite (proj2 (Z.ltb_ge _ _)) by lia. }
  split; [exact Hselect |]. now rewrite Hselect.
Qed.

End Kept.

Lemma best_sentence_selected_witness :
  let filtered := ["the cat sat on the mat"; "dogs bark loudly"; "birds sing"] in
  exists idx,
    In idx (fst (@select Examples.simple_nltk filtered
                   [(0%nat, 1%R); (1%nat, 3%R); (2%nat, 2%R)] 1)).
Proof.
  intros filtered.
  destruct (@best_sentence_selected Examples.simple_nltk filtered
              [(0%nat, 1%R); (1%nat, 3%R); (2%nat, 2%R)] 1 eq_refl
              ltac:(simpl; lia)) as (idx & _ & _ & _ & H & _).
  exists idx. exact H.
Defined.

Lemma selection_without_redundancy_witness :
  let filtered := ["the cat sat on the mat"; "dogs bark loudly"; "birds sing"] in
  List.length (fst (@select Examples.simple_nltk filtered
                      [(0%nat, 1%R); (1%nat, 3%R); (2%nat, 2%R)] 2)) = 2%nat.
Proof.
  intros filtered.
  assert (Hapart : forall i j,
            (i < List.length filtered)%nat -> (j < List.length filtered)%nat ->
            i <> j ->
            @are_sentences_similar Examples.simple_nltk
              (nth i filtered "") (nth j filtered "") (1 # 2) = false).
  { intros i j Hi Hj Hij. simpl in Hi, Hj.
    destruct i as [| [| [| i]]]; destruct j as [| [| [| j]]];
      try lia; try congruence; vm_compute; reflexivity. }
  rewrite (proj2 (@selection_without_redundancy Examples.simple_nltk filtered
                    [(0%nat, 1%R); (1%nat, 3%R); (2%nat, 2%R)] 2 eq_refl
                    ltac:(simpl; lia) Hapart)).
  rewrite length_firstn, (Permutation_length (BackendSpec.rank_keys _)).
  reflexivity.
Defined.

(** ** The lexical similarity *)

Lemma dot_comm (u v : list nat) : Np.dot u v = Np.dot v u.
Proof.
  revert v. induction u as [| x u IH]; intros [| y v]; simpl; auto.
  rewrite IH. lia.
Qed.

Lemma cauchy_step (x y S A B : Z) :
  (0 <= x -> 0 <= y -> 0 <= S -> 0 <= A -> 0 <= B ->
   S * S <= A * B -> (x * y + S) * (x * y + S) <= (x * x + A) * (y * y + B))%Z.
Proof.
  intros Hx Hy HS HA HB H.
  assert (H2 : (2 * (x * y * S) <= x * x * B + y * y * A)%Z).
  { set (P := (x * x * B)%Z). set (Q := (y * y * A)%Z). set (T := (x * y * S)%Z).
    assert (HP : (0 <= P)%Z) by (unfold P; nia).
    assert (HQ : (0 <= Q)%Z) by (unfold Q; nia).
    assert (HT : (0 <= T)%Z) by (unfold T; nia).
    assert (HTT : (T * T <= P * Q)%Z).
    { unfold T, P, Q.
      replace (x * y * S * (x * y * S))%Z with ((x * x * (y * y)) * (S * S))%Z by ring.
      replace (x * x * B * (y * y * A))%Z with ((x * x * (y * y)) * (A * B))%Z by ring.
      apply Z.mul_le_mono_nonneg_l; [nia | exact H]. }
    pose proof (Z.square_nonneg (P - Q)) as Hsq.
    destruct (Z_le_gt_dec (2 * T) (P + Q)) as [Hle | Hgt]; [exact Hle | exfalso].
    assert ((P + Q) * (P + Q) < (2 * T) * (2 * T))%Z by nia.
    nia. }
  nia.
Qed.

(** The inequality of Cauchy and Schwarz for vectors of counts. *)
Lemma dot_cauchy (u v : list nat) :
  (Np.dot u v * Np.dot u v <= Np.dot u u * Np.dot v v)%nat.
Proof.
  revert v. induction u as [| x u IH]; intros [| y v]; simpl; try lia.
  specialize (IH v).
  pose proof (cauchy_step (Z.of_nat x) (Z.of_nat y) (Z.of_nat (Np.dot u v))
                (Z.of_nat (Np.dot u u)) (Z.of_nat (Np.dot v v))) as H.
  lia.
Qed.

Lemma cosine_distance_comm (u v : list nat) :
  cosine_distance u v = cosine_distance v u.
Proof.
  unfold cosine_distance.
  now rewrite (dot_comm v u), (Rmult_comm (sqrt (INR (Np.dot v v)))).
Qed.

Lemma cosine_distance_value (u v : list nat) (d : R) :
  cosine_distance u v = Some d ->
  (sqrt (INR (Np.dot u u)) * sqrt (INR (Np.dot v v)) <> 0
   /\ d = 1 - INR (Np.dot u v) / (sqrt (INR (Np.dot u u)) * sqrt (INR (Np.dot v v))))%R.
Proof.
  unfold cosine_distance. destruct (Req_dec_T _ 0%R); [discriminate |].
  intros [= <-]. now split.
Qed.

(** One minus the cosine distance of two vectors of counts lies between
    zero and one. *)
Lemma cosine_similarity_range (u v : list nat) (d : R) :
  cosine_distance u v = Some d -> (0 <= 1 - d <= 1)%R.
Proof.
  intros H. apply cosine_distance_value in H. destruct H as [Hden ->].
  set (a := INR (Np.dot u v)).
  set (den := (sqrt (INR (Np.dot u u)) * sqrt (INR (Np.dot v v)))%R) in *.
  assert (Ha : (0 <= a)%R) by apply pos_INR.
  assert (Hpos : (0 < den)%R).
  { assert (Hge : (0 <= den)%R)
      by (apply Rmult_le_pos; apply sqrt_pos).
    destruct Hge as [Hlt | Heq]; [exact Hlt | congruence]. }
  assert (Hle : (a <= den)%R).
  { unfold den. rewrite <- sqrt_mult by apply pos_INR.
    rewrite <- (sqrt_square a Ha).
    apply sqrt_le_1_alt. unfold a. rewrite <- !mult_INR.
    apply le_INR, dot_cauchy. }
  assert (Hq : (0 <= a / den <= 1)%R).
  { split.
    - unfold Rdiv. apply Rmult_le_pos; [exact Ha |].
      left. now apply Rinv_0_lt_compat.
    - apply Rmult_le_reg_r with den; [exact Hpos |].
      unfold Rdiv. rewrite Rmult_assoc, Rinv_l, Rmult_1_r, Rmult_1_l; auto. }
  lra.
Qed.

Lemma list_sum_zero (l : list nat) :
  Forall (fun x => x = 0%nat) l -> list_sum l = 0%nat.
Proof. induction 1; simpl; lia. Qed.

Section Lexical.

Context {set_order : SetOrder}.

(** The two term-frequency vectors of [sentence_similarity]: the counts of
    the words of the vocabulary in each filtered sentence. *)
Lemma sentence_similarity_counts (sent1 sent2 stopwords : list string) :
  let words1 := filter (fun word => negb (Py.mem word stopwords)) sent1 in
  let words2 := filter (fun word => negb (Py.mem word stopwords)) sent2 in
  let all_words := list_of_set (words1 ++ words2)%list in
  let vector1 := map (fun x => (0 + count_occ string_dec words1 x)%nat) all_words in
  let vector2 := map (fun x => (0 + count_occ string_dec words2 x)%nat) all_words in
  sentence_similarity sent1 sent2 stopwords
  = (if (list_sum vector1 =? 0)%nat || (list_sum vector2 =? 0)%nat then Some 0%R
     else option_map (fun d => (1 - d)%R) (cosine_distance vector1 vector2))
  /\ list_sum vector1 = List.length words1
  /\ list_sum vector2 = List.length words2.
Proof.
  intros words1 words2 all_words vector1 vector2.
  assert (Hvec : forall words, incl words (words1 ++ words2) ->
             count_words all_words words (repeat 0%nat (List.length all_words))
             = map (fun x => (0 + count_occ string_dec words x)%nat) all_words).
  { intros words Hincl. rewrite BackendSpec.repeat_map_const.
    apply BackendSpec.count_words_counts; [apply list_of_set_NoDup |].
    intros x Hx. apply list_of_set_In. now apply Hincl. }
  assert (Hsum : forall words, incl words (words1 ++ words2) ->
             list_sum (map (fun x => (0 + count_occ string_dec words x)%nat) all_words)
             = List.length words).
  { intros words Hincl. rewrite <- Hvec by exact Hincl.
    rewrite BackendSpec.count_words_sum.
    - now rewrite BackendSpec.list_sum_repeat_zero.
    - intros x Hx. apply list_of_set_In. now apply Hincl.
    - apply repeat_length. }
  split; [| split].
  - unfold sentence_similarity. fold words1 words2 all_words.
    rewrite (Hvec words1), (Hvec words2)
      by (try apply incl_appl, incl_refl; apply incl_appr, incl_refl).
    reflexivity.
  - apply Hsum, incl_appl, incl_refl.
  - apply Hsum, incl_appr, incl_refl.
Qed.

Lemma sentence_similarity_comm (sent1 sent2 stopwords : list string) :
  sentence_similarity sent1 sent2 stopwords
  = sentence_similarity sent2 sent1 stopwords.
Proof.
  destruct (sentence_similarity_counts sent1 sent2 stopwords) as (-> & H1 & H2).
  destruct (sentence_similarity_counts sent2 sent1 stopwords) as (-> & H3 & H4).
  set (words1 := filter (fun word => negb (Py.mem word stopwords)) sent1) in *.
  set (words2 := filter (fun word => negb (Py.mem word stopwords)) sent2) in *.
  assert (Hperm : Permutation (list_of_set (words1 ++ words2))
                    (list_of_set (words2 ++ words1))).
  { apply NoDup_Permutation; try apply list_of_set_NoDup.
    intros x. rewrite !list_of_set_In, !in_app_iff. tauto. }
  rewrite H1, H2, H3, H4, (orb_comm (List.length words2 =? 0)%nat).
  destruct ((List.length words1 =? 0)%nat || (List.length words2 =? 0)%nat);
    [reflexivity |].
  f_equal. rewrite (cosine_distance_comm (map _ (list_of_set (words2 ++ words1)))).
  unfold cosine_distance. rewrite !BackendSpec.dot_map.
  now rewrite !(BackendSpec.list_sum_map_perm _ _ _ Hperm).
Qed.

Lemma sentence_similarity_range (sent1 sent2 stopwords : list string) (r : R) :
  sentence_similarity sent1 sent2 stopwords = Some r -> (0 <= r <= 1)%R.
Proof.
  destruct (sentence_similarity_counts sent1 sent2 stopwords) as (-> & _ & _).
  destruct (_ || _).
  - intros [= <-]. lra.
  - destruct (cosine_distance _ _) as [d |] eqn:E; [| discriminate].
    intros [= <-]. now apply cosine_similarity_range in E.
Qed.

(** X13.  [sentence_similarity] does not depend on the order of its two
    sentences, and its value, in real arithmetic, lies between 0 and 1. *)
Theorem sentence_similarity_symmetric (sent1 sent2 stopwords : list string) :
  sentence_similarity sent1 sent2 stopwords
  = sentence_similarity sent2 sent1 stopwords
  /\ exists r, sentence_similarity sent1 sent2 stopwords = Some r
               /\ (0 <= r <= 1)%R.
Proof.
  split; [apply sentence_similarity_comm |].
  destruct (BackendSpec.sentence_similarity_defined sent1 sent2 stopwords) as (r & Hr).
  exists r. split; [exact Hr | now apply sentence_similarity_range in Hr].
Qed.

(** X14.  The two ends of the scale, in real arithmetic: a sentence with a
    word that is not a stop word has similarity 1 with itself, and two
    sentences that share no such word have similarity 0. *)
Theorem sentence_similarity_extremes (sent1 sent2 stopwords : list string) :
  let words1 := filter (fun word => negb (Py.mem word stopwords)) sent1 in
  let words2 := filter (fun word => negb (Py.mem word stopwords)) sent2 in
  (words1 <> [] -> sentence_similarity sent1 sent1 stopwords = Some 1%R)
  /\ ((forall x, In x words1 -> ~ In x words2) ->
      sentence_similarity sent1 sent2 stopwords = Some 0%R).
Proof.
  intros words1 words2. split.
  - intros Hne.
    destruct (sentence_similarity_counts sent1 sent1 stopwords) as (-> & H1 & _).
    fold words1 in H1 |- *. rewrite H1.
    replace (List.length words1 =? 0)%nat with false
      by (destruct words1; [congruence | reflexivity]).
    cbn [orb].
    match goal with
    | |- option_map _ (cosine_distance ?u ?u) = _ =>
        assert (Hu : list_sum u <> 0%nat)
          by (rewrite H1; destruct words1; [congruence | discriminate]);
        destruct (BackendSpec.cosine_distance_defined u u Hu Hu) as (d & Hd);
        rewrite Hd; apply cosine_distance_value in Hd;
        set (x := INR (Np.dot u u)) in *
    end.
    destruct Hd as [Hden ->]. cbn [option_map]. f_equal.
    assert (Hx : (0 <= x)%R) by apply pos_INR.
    rewrite sqrt_sqrt in * by exact Hx. field. exact Hden.
  - intros Hdisjoint.
    destruct (sentence_similarity_counts sent1 sent2 stopwords) as (-> & _ & _).
    fold words1 words2.
    destruct (_ || _) eqn:Hguard; [reflexivity |].
    apply orb_false_iff in Hguard. destruct Hguard as [Hs1 Hs2].
    apply Nat.eqb_neq in Hs1, Hs2.
    destruct (BackendSpec.cosine_distance_defined _ _ Hs1 Hs2) as (d & E).
    rewrite E. apply cosine_distance_value in E. destruct E as [_ ->].
    cbn [option_map]. f_equal.
    rewrite BackendSpec.dot_map, list_sum_zero.
    + simpl INR. unfold Rdiv. rewrite Rmult_0_l. ring.
    + apply Forall_forall. intros n Hn. apply in_map_iff in Hn.
      destruct Hn as (x & <- & _). cbn [Nat.add].
      destruct (count_occ string_dec words1 x) eqn:E1; [reflexivity |].
      assert (Hin : In x words1).
      { apply (count_occ_In string_dec). lia. }
      apply Hdisjoint in Hin.
      apply (count_occ_not_In string_dec) in Hin. rewrite Hin. lia.
Qed.

Lemma cell_set_cell_same (n : nat) (m : list (list R)) (i j : nat) (x : R) :
  List.length m = n /\ Forall (fun row => List.length row = n) m ->
  (i < n)%nat -> (j < n)%nat -> Np.cell (Np.set_cell m i j x) i j = x.
Proof.
  intros [Hlen Hrows] Hi Hj. unfold Np.cell, Np.set_cell.
  rewrite PyFacts.nth_list_set_same by lia.
  apply PyFacts.nth_list_set_same.
  rewrite Forall_forall in Hrows. rewrite (Hrows (nth i m [])); [exact Hj |].
  apply nth_In. lia.
Qed.

(** The inner loop of [build_similarity_matrix] for row [i]: the cells
    [(i, j)] of the columns visited hold the similarity, the other cells
    are left alone. *)
Lemma matrix_row_loop (sentences : list (list string)) (stop_words : list string)
    (i : nat) (columns : list nat) (m : list (list R)) :
  let n := List.length sentences in
  let shape (m : list (list R)) :=
    List.length m = n /\ Forall (fun row => List.length row = n) m in
  shape m ->
  exists m',
    fold_left
      (fun acc j =>
         match acc with
         | None => None
         | Some similarity_matrix =>
             if negb (i =? j)%nat then
               match sentence_similarity (nth i sentences []) (nth j sentences [])
                       stop_words with
               | Some x => Some (Np.set_cell similarity_matrix i j x)
               | None => None
               end
             else Some similarity_matrix
         end) columns (Some m) = Some m'
    /\ shape m'
    /\ (forall b, In b columns -> i <> b -> (i < n)%nat -> (b < n)%nat ->
        Some (Np.cell m' i b)
        = sentence_similarity (nth i sentences []) (nth b sentences []) stop_words)
    /\ (forall a b, ~ (a = i /\ In b columns) -> Np.cell m' a b = Np.cell m a b).
Proof.
  intros n shape. revert m.
  induction columns as [| j columns IH]; intros m Hm.
  - exists m. simpl. repeat split; try apply Hm; tauto.
  - cbn [fold_left].
    destruct (BackendSpec.sentence_similarity_defined
                (nth i sentences []) (nth j sentences []) stop_words) as (x & Hx).
    set (m1 := if negb (i =? j)%nat then Np.set_cell m i j x else m).
    assert (Hm1 : shape m1).
    { unfold m1. destruct (negb _); [| exact Hm]. now apply BackendSpec.set_cell_shape. }
    destruct (IH m1 Hm1) as (m' & Hrun & Hshape & Hrow & Hrest).
    exists m'. split; [| split; [exact Hshape | split]].
    + rewrite <- Hrun. f_equal. unfold m1. rewrite Hx. now destruct (negb _).
    + intros b Hb Hib Hi Hbn.
      destruct (in_dec Nat.eq_dec b columns) as [Hin | Hout];
        [now apply Hrow |].
      destruct Hb as [<- | Hb]; [| contradiction].
      rewrite Hrest by tauto. unfold m1.
      replace (negb (i =? j)%nat) with true
        by (symmetry; apply negb_true_iff, Nat.eqb_neq, Hib).
      rewrite (cell_set_cell_same n) by assumption. now symmetry.
    + intros a b Hab. rewrite Hrest by (simpl in Hab; tauto).
      unfold m1. destruct (negb _); [| reflexivity].
      apply BackendSpec.cell_set_cell_other.
      destruct (Nat.eq_dec a i) as [-> | Ha]; [| now left].
      right. intros ->. apply Hab. simpl. tauto.
Qed.

(** The outer loop: every row visited is filled by the inner loop. *)
Lemma matrix_loop (sentences : list (list string)) (stop_words : list string)
    (rows columns : list nat) (m : list (list R)) :
  let n := List.length sentences in
  let shape (m : list (list R)) :=
    List.length m = n /\ Forall (fun row => List.length row = n) m in
  shape m ->
  exists m',
    fold_left
      (fun acc i =>
         fold_left
           (fun acc j =>
              match acc with
              | None => None
              | Some similarity_matrix =>
                  if negb (i =? j)%nat then
                    match sentence_similarity (nth i sentences []) (nth j sentences [])
                            stop_words with
                    | Some x => Some (Np.set_cell similarity_matrix i j x)
                    | None => None
                    end
                  else Some similarity_matrix
              end) columns acc) rows (Some m) = Some m'
    /\ shape m'
    /\ (forall a b, In a rows -> In b columns -> a <> b -> (a < n)%nat -> (b < n)%nat ->
        Some (Np.cell m' a b)
        = sentence_similarity (nth a sentences []) (nth b sentences []) stop_words).
Proof.
  intros n shape.
  enough (H : shape m ->
    exists m',
      fold_left
        (fun acc i =>
           fold_left
             (fun acc j =>
                match acc with
                | None => None
                | Some similarity_matrix =>
                    if negb (i =? j)%nat then
                      match sentence_similarity (nth i sentences []) (nth j sentences [])
                              stop_words with
                      | Some x => Some (Np.set_cell similarity_matrix i j x)
                      | None => None
                      end
                    else Some similarity_matrix
                end) columns acc) rows (Some m) = Some m'
      /\ shape m'
      /\ (forall a b, In a rows -> In b columns -> a <> b -> (a < n)%nat -> (b < n)%nat ->
          Some (Np.cell m' a b)
          = sentence_similarity (nth a sentences []) (nth b sentences []) stop_words)
      /\ (forall a b, ~ In a rows -> Np.cell m' a b = Np.cell m a b)).
  { intros Hm. destruct (H Hm) as (m' & H1 & H2 & H3 & _). now exists m'. }
  revert m. induction rows as [| i rows IH]; intros m Hm.
  - exists m. simpl. repeat split; try apply Hm; tauto.
  - cbn [fold_left].
    destruct (matrix_row_loop sentences stop_words i columns m Hm)
      as (m1 & Hrun1 & Hm1 & Hrow & Hrest1).
    rewrite Hrun1.
    destruct (IH m1 Hm1) as (m' & Hrun & Hshape & Hcells & Hrest).
    exists m'. split; [exact Hrun | split; [exact Hshape | split]].
    + intros a b Ha Hb Hab Han Hbn.
      destruct (in_dec Nat.eq_dec a rows) as [Hin | Hout];
        [now apply Hcells |].
      destruct Ha as [<- | Ha]; [| contradiction].
      rewrite Hrest by exact Hout. now apply Hrow.
    + intros a b Ha. rewrite Hrest by (simpl in Ha; tauto).
      apply Hrest1. simpl in Ha. intros [-> _]. tauto.
Qed.

(** The matrix of [build_similarity_matrix]: square, zero on the diagonal,
    and the similarity of the two sentences in every other cell. *)
Lemma similarity_matrix_cells (sentences : list (list string))
    (stop_words : list string) :
  let n := List.length sentences in
  exists m,
    build_similarity_matrix sentences stop_words = Some m
    /\ List.length m = n
    /\ Forall (fun row => List.length row = n) m
    /\ (forall k, Np.cell m k k = 0%R)
    /\ forall i j, (i < n)%nat -> (j < n)%nat -> i <> j ->
         Some (Np.cell m i j)
         = sentence_similarity (nth i sentences []) (nth j sentences []) stop_words.
Proof.
  intros n.
  destruct (BackendSpec.build_similarity_matrix_shape sentences stop_words)
    as (m & Hm & Hlen & Hrows & Hdiag).
  exists m. repeat (split; [assumption |]).
  assert (Hzero : List.length (Np.zeros2 n n) = n
                  /\ Forall (fun row => List.length row = n) (Np.zeros2 n n)).
  { unfold Np.zeros2, Np.zeros. rewrite repeat_length. split; [reflexivity |].
    apply Forall_forall. intros row Hrow. apply repeat_spec in Hrow.
    subst row. apply repeat_length. }
  destruct (matrix_loop sentences stop_words (Py.range 0 n) (Py.range 0 n)
              (Np.zeros2 n n) Hzero) as (m' & Hrun & _ & Hcells).
  unfold build_similarity_matrix in Hm. fold n in Hm.
  rewrite Hrun in Hm. injection Hm as ->.
  assert (Hin : forall k, (k < n)%nat -> In k (Py.range 0 n)).
  { intros k Hk. unfold Py.range. apply in_seq. lia. }
  intros i j Hi Hj Hij. apply Hcells; auto.
Qed.

Lemma similarity_matrix_cell_range (sentences : list (list string))
    (stop_words : list string) (m : list (list R)) (i j : nat) :
  build_similarity_matrix sentences stop_words = Some m ->
  (i < List.length sentences)%nat -> (j < List.length sentences)%nat ->
  (0 <= Np.cell m i j <= 1)%R.
Proof.
  intros Hm Hi Hj.
  destruct (similarity_matrix_cells sentences stop_words)
    as (m' & Hm' & _ & _ & Hdiag & Hoff).
  rewrite Hm in Hm'. injection Hm' as <-.
  destruct (Nat.eq_dec i j) as [-> | Hij]; [rewrite Hdiag; lra |].
  apply (sentence_similarity_range (nth i sentences []) (nth j sentences [])
           stop_words).
  symmetry. now apply Hoff.
Qed.


End Lexical.

Lemma sentence_similarity_extremes_witness :
  @sentence_similarity Examples.left_to_right ["the"; "cat"] ["the"; "cat"] ["the"]
  = Some 1%R.
Proof.
  apply (proj1 (@sentence_similarity_extremes Examples.left_to_right
                  ["the"; "cat"] ["the"; "cat"] ["the"])).
  discriminate.
Defined.

(** ** The redundancy check *)

Lemma lower_char_idempotent (c : ascii) :
  Py.lower_char (Py.lower_char c) = Py.lower_char c.
Proof. destruct c as [[] [] [] [] [] [] [] []]; reflexivity. Qed.

Lemma lower_idempotent (s : string) : Py.lower (Py.lower s) = Py.lower s.
Proof.
  induction s as [| c s IH]; [reflexivity |].
  cbn [Py.lower]. now rewrite lower_char_idempotent, IH.
Qed.

Lemma intersection_self (a : list string) : Py.intersection a a = a.
Proof.
  unfold Py.intersection. apply forallb_filter_id, forallb_forall.
  intros x Hx. now apply BackendSpec.mem_In.
Qed.

Lemma filter_none {A : Type} (f : A -> bool) (l : list A) :
  (forall x, In x l -> f x = false) -> filter f l = [].
Proof.
  induction l as [| x l IH]; intros H; [reflexivity |].
  cbn [filter]. rewrite (H x) by now left.
  apply IH. intros y Hy. apply H. now right.
Qed.

Lemma filter_length_bound {A : Type} (f : A -> bool) (l : list A) :
  (List.length (filter f l) <= List.length l)%nat.
Proof.
  induction l as [| x l IH]; [reflexivity |].
  cbn [filter]. destruct (f x); simpl; lia.
Qed.

Lemma union_self (a : list string) : Py.union a a = a.
Proof.
  unfold Py.union. rewrite filter_none; [apply app_nil_r |].
  intros x Hx. apply negb_false_iff. now apply BackendSpec.mem_In.
Qed.

Lemma intersection_within_union (a b : list string) :
  (List.length (Py.intersection a b) <= List.length (Py.union a b))%nat.
Proof.
  unfold Py.intersection, Py.union. rewrite length_app.
  pose proof (filter_length_bound (fun x => Py.mem x b) a). lia.
Qed.

Lemma ratio_at_most_one (i u : nat) :
  (i <= u)%nat -> (0 < u)%nat ->
  inject_Z (Z.of_nat i) / inject_Z (Z.of_nat u) <= 1.
Proof.
  intros Hiu Hu. apply Qle_shift_div_r.
  - change 0 with (inject_Z 0). rewrite <- Zlt_Qlt. lia.
  - rewrite Qmult_1_l. rewrite <- Zle_Qle. lia.
Qed.

Section Redundant.

Context {nltk : Nltk}.

(** X16.  The redundancy check [are_sentences_similar] treats its two
    sentences alike, ignores case, calls every sentence with a token
    similar to itself at a threshold below 1, and calls nothing similar
    at a threshold of 1 or more. *)
Theorem are_sentences_similar_relation (sent1 sent2 : string) (threshold : Q) :
  are_sentences_similar sent1 sent2 threshold
  = are_sentences_similar sent2 sent1 threshold
  /\ are_sentences_similar (Py.lower sent1) sent2 threshold
     = are_sentences_similar sent1 sent2 threshold
  /\ (word_tokenize (Py.lower sent1) <> [] -> threshold < 1 ->
      are_sentences_similar sent1 sent1 threshold = true)
  /\ (1 <= threshold -> are_sentences_similar sent1 sent2 threshold = false).
Proof.
  split; [| split; [| split]].
  - unfold are_sentences_similar, Py.set_of.
    rewrite (BackendSpec.intersection_length_comm _ _
               (NoDup_nodup _ (word_tokenize (Py.lower sent1)))
               (NoDup_nodup _ (word_tokenize (Py.lower sent2)))).
    rewrite (BackendSpec.union_length_comm _ _
               (NoDup_nodup _ (word_tokenize (Py.lower sent1)))
               (NoDup_nodup _ (word_tokenize (Py.lower sent2)))).
    now rewrite orb_comm.
  - unfold are_sentences_similar. now rewrite lower_idempotent.
  - intros Hne Hlt. unfold are_sentences_similar.
    rewrite intersection_self, union_self.
    set (words := Py.set_of (word_tokenize (Py.lower sent1))).
    assert (Hlen : (0 < List.length words)%nat).
    { destruct (word_tokenize (Py.lower sent1)) as [| w l] eqn:E; [congruence |].
      assert (Hin : In w words) by (apply nodup_In; now left).
      destruct words; [contradiction | simpl; lia]. }
    replace (List.length words =? 0)%nat with false
      by (symmetry; apply Nat.eqb_neq; lia).
    replace (0 <? List.length words)%nat with true
      by (symmetry; apply Nat.ltb_lt; lia).
    cbn [orb]. apply BackendSpec.float_ltb_lt.
    assert (Hone : inject_Z (Z.of_nat (List.length words))
                   / inject_Z (Z.of_nat (List.length words)) == 1).
    { apply Qmult_inv_r. change 0 with (inject_Z 0). rewrite inject_Z_injective. lia. }
    now rewrite Hone.
  - intros Hge. unfold are_sentences_similar.
    destruct (_ || _); [reflexivity |].
    apply BackendSpec.float_ltb_ge.
    destruct (0 <? _)%nat eqn:Hu.
    + apply Nat.ltb_lt in Hu.
      apply Qle_trans with 1; [| exact Hge].
      apply ratio_at_most_one; [apply intersection_within_union | exact Hu].
    + apply Qle_trans with 1; [discriminate | exact Hge].
Qed.

End Redundant.

(** ** The feature sub-scores *)

Lemma bonus_step (lo hi s inc cap : Q) (b : bool) :
  lo <= s <= hi -> 0 <= inc <= cap ->
  lo <= (if b then s + inc else s) <= hi + cap.
Proof.
  intros [Hlo Hhi] [Hinc Hcap]. destruct b; split.
  - rewrite <- (Qplus_0_r lo). now apply Qplus_le_compat.
  - now apply Qplus_le_compat.
  - exact Hlo.
  - rewrite <- (Qplus_0_r s). apply Qplus_le_compat; [exact Hhi |].
    now apply Qle_trans with inc.
Qed.

Lemma capped_bonus (k : nat) (c cap : Q) :
  0 <= c -> 0 <= cap ->
  0 <= Py.float_min (inject_Z (Z.of_nat k) * c) cap <= cap.
Proof.
  intros Hc Hcap. unfold Py.float_min.
  destruct (Py.float_ltb _ _) eqn:E.
  - split; [exact Hcap | apply Qle_refl].
  - apply BackendSpec.float_ltb_ge in E. split; [| exact E].
    apply Qmult_le_0_compat; [| exact Hc].
    change 0 with (inject_Z 0). rewrite <- Zle_Qle. lia.
Qed.

Section Features.

Context {nltk : Nltk} {re : Re}.

Lemma position_score_range (n_sentences i : nat) :
  1 <= position_score n_sentences i <= 3
  /\ (position_score n_sentences i == 3 <-> i = 0%nat).
Proof.
  unfold position_score.
  destruct i as [| [| i]]; cbn [Nat.eqb].
  - repeat split; discriminate.
  - repeat split; discriminate.
  - repeat match goal with
           | |- context [if ?b then _ else _] => destruct b
           end;
      (split; [split; discriminate | split; discriminate]).
Qed.

Lemma sentence_length_score_range (sentence : string) :
  (1 # 2) <= length_score sentence <= 2.
Proof.
  unfold length_score.
  repeat match goal with
         | |- context [if ?b then _ else _] => destruct b
         end; split; discriminate.
Qed.

Lemma keyword_score_range (sentence : string) :
  1 <= keyword_score sentence <= 39 # 10.
Proof.
  unfold keyword_score. cbv zeta.
  assert (H : 1 <= 1 <= 1) by (split; apply Qle_refl).
  match goal with
  | |- _ <= ?score <= _ =>
      assert (Hall : 1 <= score
                     <= 1 + (9 # 10) + (6 # 10) + (4 # 10) + (5 # 10)
                        + (3 # 10) + (2 # 10))
  end.
  { repeat apply bonus_step; try exact H;
      try (apply capped_bonus; discriminate);
      split; discriminate. }
  split; [apply Hall |].
  apply Qle_trans with (1 := proj2 Hall). discriminate.
Qed.

(** X17.  The ranges of the three rule-based sub-scores of
    [calculate_sentence_importance], in exact arithmetic: the position
    score lies between 1 and 3 and only the first sentence reaches 3, the
    length score lies between 0.5 and 2, and the keyword score between 1
    and 3.9. *)
Theorem feature_scores_ranges (sentence : string) (n_sentences i : nat) :
  (1 <= position_score n_sentences i <= 3
   /\ (position_score n_sentences i == 3 <-> i = 0%nat))
  /\ (1 # 2) <= length_score sentence <= 2
  /\ 1 <= keyword_score sentence <= 39 # 10.
Proof.
  split; [apply position_score_range | split].
  - apply sentence_length_score_range.
  - apply keyword_score_range.
Qed.

End Features.

(** ** The centrality sub-score *)

Lemma fold_left_Rmax_spec (v : list R) (x : R) :
  (fold_left Rmax v x = x \/ In (fold_left Rmax v x) v)
  /\ (x <= fold_left Rmax v x)%R
  /\ Forall (fun y => (y <= fold_left Rmax v x)%R) v.
Proof.
  revert x. induction v as [| y v IH]; intros x; cbn [fold_left].
  - repeat split; [now left | lra | constructor].
  - destruct (IH (Rmax x y)) as (Hin & Hle & Hall).
    pose proof (Rmax_l x y). pose proof (Rmax_r x y).
    split; [| split].
    + destruct Hin as [Heq | Hin]; [| right; now right].
      rewrite Heq. unfold Rmax. destruct (Rle_dec x y); [right; now left | now left].
    + lra.
    + constructor; [lra | exact Hall].
Qed.

(** [a.max()] is an element of the array and bounds the others. *)
Lemma max_spec (v : list R) (top : R) :
  Np.max v = Some top -> In top v /\ Forall (fun y => (y <= top)%R) v.
Proof.
  destruct v as [| x v]; [discriminate |]. intros [= <-].
  destruct (fold_left_Rmax_spec v x) as (Hin & Hle & Hall).
  split; [| now constructor].
  destruct Hin as [Heq | Hin]; [left; now symmetry | now right].
Qed.

Lemma sum_nonneg (v : list R) :
  Forall (fun x => (0 <= x)%R) v -> (0 <= Np.sum v)%R.
Proof. induction 1; simpl; lra. Qed.

Lemma nth_Forall {A : Type} (P : A -> Prop) (l : list A) (d : A) (i : nat) :
  Forall P l -> P d -> P (nth i l d).
Proof.
  intros Hl Hd. destruct (nth_in_or_default i l d) as [Hin | ->]; [| exact Hd].
  rewrite Forall_forall in Hl. now apply Hl.
Qed.

Lemma cell_nonneg (m : list (list R)) (i j : nat) :
  Forall (Forall (fun x => (0 <= x)%R)) m -> (0 <= Np.cell m i j)%R.
Proof.
  intros Hm. unfold Np.cell.
  apply (nth_Forall (fun x => (0 <= x)%R)); [| lra].
  apply (nth_Forall (Forall (fun x => (0 <= x)%R))); [exact Hm | constructor].
Qed.

(** Dividing every row by its sum, or by 1 when the sum is zero, keeps
    the entries non-negative. *)
Lemma norm_matrix_nonneg (m : list (list R)) :
  Forall (Forall (fun x => (0 <= x)%R)) m ->
  Forall (Forall (fun x => (0 <= x)%R))
    (map (fun row_sum : list R * R => map (fun x => (x / snd row_sum)%R) (fst row_sum))
       (combine m (map (fun s => if Req_dec_T s 0%R then 1%R else s) (map Np.sum m)))).
Proof.
  intros Hm. apply Forall_forall. intros row Hrow.
  apply in_map_iff in Hrow. destruct Hrow as ((r & s) & <- & Hin).
  cbn [fst snd].
  pose proof (in_combine_l _ _ _ _ Hin) as Hr.
  pose proof (in_combine_r _ _ _ _ Hin) as Hs.
  rewrite Forall_forall in Hm.
  assert (Hpos : (0 < s)%R).
  { apply in_map_iff in Hs. destruct Hs as (t & <- & Ht).
    apply in_map_iff in Ht. destruct Ht as (r' & <- & Hr').
    pose proof (sum_nonneg r' (Hm r' Hr')).
    destruct (Req_dec_T _ 0%R); lra. }
  apply Forall_forall. intros y Hy.
  apply in_map_iff in Hy. destruct Hy as (x & <- & Hx).
  pose proof (Hm r Hr) as Hrow. rewrite Forall_forall in Hrow.
  specialize (Hrow x Hx).
  unfold Rdiv. apply Rmult_le_pos; [exact Hrow |].
  left. now apply Rinv_0_lt_compat.
Qed.

(** One step of the power iteration gives [n] values, each at least
    [0.15 / n]. *)
Lemma power_step (n : nat) (norm_matrix : list (list R)) (centrality : list R) :
  (0 < n)%nat ->
  Forall (Forall (fun x => (0 <= x)%R)) norm_matrix ->
  Forall (fun x => (0 <= x)%R) centrality ->
  let next := map (fun x => (0.85 * x + 0.15 / INR n)%R)
                (Np.transpose_dot n norm_matrix centrality) in
  List.length next = n /\ Forall (fun x => (0 < x)%R) next.
Proof.
  intros Hn Hm Hc next. unfold next, Np.transpose_dot.
  split; [now rewrite !length_map, length_seq |].
  assert (Hinv : (0 < 0.15 / INR n)%R).
  { unfold Rdiv. apply Rmult_lt_0_compat; [lra |].
    apply Rinv_0_lt_compat, lt_0_INR, Hn. }
  apply Forall_forall. intros y Hy.
  apply in_map_iff in Hy. destruct Hy as (x & <- & Hx).
  apply in_map_iff in Hx. destruct Hx as (j & <- & _).
  match goal with
  | |- (0 < 0.85 * Np.sum ?v + _)%R =>
      assert (Hsum : (0 <= Np.sum v)%R)
  end.
  { apply sum_nonneg, Forall_forall. intros z Hz.
    apply in_map_iff in Hz. destruct Hz as (i & <- & _).
    apply Rmult_le_pos; [now apply cell_nonneg |].
    apply (nth_Forall (fun x => (0 <= x)%R)); [exact Hc | lra]. }
  lra.
Qed.

Lemma positive_true (x : R) : Np.positive x = true <-> (0 < x)%R.
Proof. unfold Np.positive. destruct (Rlt_dec 0 x); split; intros; auto; discriminate. Qed.

Lemma positive_false (x : R) : Np.positive x = false <-> (x <= 0)%R.
Proof.
  unfold Np.positive. destruct (Rlt_dec 0 x); split; intros; auto;
    try discriminate; lra.
Qed.

(** Dividing positive values by their maximum gives values in (0, 1],
    one of them 1. *)
Lemma normalised_by_max (v : list R) (top : R) :
  Np.max v = Some top -> Forall (fun x => (0 < x)%R) v ->
  Np.positive top = true
  /\ Forall (fun x => (0 < x <= 1)%R) (map (fun x => (x / top)%R) v)
  /\ In 1%R (map (fun x => (x / top)%R) v).
Proof.
  intros Hmax Hpos. apply max_spec in Hmax. destruct Hmax as [Hin Hle].
  rewrite Forall_forall in Hpos, Hle.
  assert (Htop : (0 < top)%R) by now apply Hpos.
  split; [now apply positive_true | split].
  - apply Forall_forall. intros y Hy.
    apply in_map_iff in Hy. destruct Hy as (x & <- & Hx).
    specialize (Hpos x Hx). specialize (Hle x Hx). cbv beta in Hle.
    split.
    + unfold Rdiv. apply Rmult_lt_0_compat; [exact Hpos |].
      now apply Rinv_0_lt_compat.
    + apply Rmult_le_reg_r with top; [exact Htop |].
      unfold Rdiv. rewrite Rmult_assoc, Rinv_l, Rmult_1_r, Rmult_1_l; lra.
  - apply in_map_iff. exists top. split; [| exact Hin].
    unfold Rdiv. apply Rinv_r. lra.
Qed.

Section Centrality.

Context {nltk : Nltk} {set_order : SetOrder}.

Lemma similarity_matrix_nonneg (sentences : list (list string))
    (stop_words : list string) (m : list (list R)) :
  build_similarity_matrix sentences stop_words = Some m ->
  Forall (Forall (fun x => (0 <= x <= 1)%R)) m.
Proof.
  intros Hm.
  destruct (similarity_matrix_cells sentences stop_words)
    as (m' & Hm' & Hlen & Hrows & _).
  rewrite Hm in Hm'. injection Hm' as <-.
  apply Forall_forall. intros row Hrow.
  destruct (In_nth _ _ [] Hrow) as (i & Hi & <-).
  apply Forall_forall. intros x Hx.
  destruct (In_nth _ _ 0%R Hx) as (j & Hj & <-).
  rewrite Forall_forall in Hrows.
  rewrite (Hrows (nth i m [])) in Hj by (apply nth_In, Hi).
  apply (similarity_matrix_cell_range sentences stop_words m i j Hm); lia.
Qed.

(** The centrality scores: all zero when the matrix has no positive
    entry, and otherwise positive values whose maximum is 1. *)
Lemma centrality_scores_cases (sentences stop_words : list string) :
  sentences <> [] ->
  exists m largest c,
    build_similarity_matrix (map (fun s => word_tokenize (Py.lower s)) sentences)
      stop_words = Some m
    /\ Np.max (List.concat m) = Some largest
    /\ centrality_scores sentences stop_words = Some c
    /\ List.length c = List.length sentences
    /\ (if Np.positive largest
        then Forall (fun x => (0 < x <= 1)%R) c /\ In 1%R c
        else c = Np.zeros (List.length sentences)).
Proof.
  intros Hne. unfold centrality_scores.
  destruct (BackendSpec.build_similarity_matrix_shape
              (map (fun s => word_tokenize (Py.lower s)) sentences) stop_words)
    as (m & Hm & Hlen & Hrows & _).
  pose proof (similarity_matrix_nonneg _ _ _ Hm) as Hunit.
  rewrite Hm. rewrite length_map in Hlen, Hrows.
  assert (Hn : (0 < List.length sentences)%nat).
  { destruct sentences; [congruence | simpl; lia]. }
  destruct (BackendSpec.max_defined (List.concat m)) as (largest & Hlargest).
  { destruct m as [| row m]; [simpl in Hlen; lia |].
    inversion Hrows as [| ? ? Hrow _]; subst.
    destruct row; [simpl in Hrow; lia | discriminate]. }
  rewrite Hlargest. exists m, largest.
  destruct (Np.positive largest).
  2:{ exists (Np.zeros (List.length sentences)).
      repeat split; [exact Hlargest | apply repeat_length]. }
  assert (Hnonneg : Forall (Forall (fun x => (0 <= x)%R)) m).
  { eapply Forall_impl; [| exact Hunit]. intros row Hrow.
    eapply Forall_impl; [| exact Hrow]. cbv beta. intros x Hx. lra. }
  apply norm_matrix_nonneg in Hnonneg.
  set (norm_matrix := map _ (combine m _)) in *.
  set (n := List.length sentences) in *.
  set (step := fun centrality : list R =>
                 map (fun x => (0.85 * x + 0.15 / INR n)%R)
                   (Np.transpose_dot n norm_matrix centrality)).
  set (start := map (fun x => (x / INR n)%R) (Np.ones n)).
  assert (Hstart : Forall (fun x => (0 <= x)%R) start).
  { unfold start, Np.ones. apply Forall_forall. intros y Hy.
    apply in_map_iff in Hy. destruct Hy as (x & <- & Hx).
    apply repeat_spec in Hx. subst x.
    unfold Rdiv. apply Rmult_le_pos; [lra |].
    left. apply Rinv_0_lt_compat, lt_0_INR, Hn. }
  assert (Hiter : forall k, Forall (fun x => (0 <= x)%R) (Nat.iter k step start)).
  { induction k as [| k IH]; [exact Hstart |].
    cbn [Nat.iter nat_rect].
    destruct (power_step n norm_matrix (Nat.iter k step start) Hn Hnonneg IH)
      as [_ Hpos].
    eapply Forall_impl; [| exact Hpos]. cbv beta. intros x Hx. lra. }
  change (Nat.iter 10 step start) with (step (Nat.iter 9 step start)).
  destruct (power_step n norm_matrix (Nat.iter 9 step start) Hn Hnonneg (Hiter 9%nat))
    as [Hlength Hpos].
  fold (step (Nat.iter 9 step start)) in Hlength, Hpos.
  set (centrality := step (Nat.iter 9 step start)) in *.
  destruct (BackendSpec.max_defined centrality) as (top & Htop).
  { destruct centrality; [simpl in Hlength; lia | discriminate]. }
  rewrite Htop.
  destruct (normalised_by_max centrality top Htop Hpos) as (-> & Hrange & Hone).
  exists (map (fun x => (x / top)%R) centrality).
  split; [reflexivity | split; [exact Hlargest | split; [reflexivity |]]].
  split; [now rewrite length_map | now split].
Qed.

(** X18.  The centrality sub-scores of a text that is not empty: one per
    sentence; all zero when every two different sentences have similarity
    0, and otherwise, when some pair has a positive similarity, positive
    values of which the largest is 1. *)
Theorem centrality_scores_range (sentences stop_words : list string) :
  sentences <> [] ->
  let processed := map (fun s => word_tokenize (Py.lower s)) sentences in
  let n := List.length sentences in
  let similarity i j :=
    sentence_similarity (nth i processed []) (nth j processed []) stop_words in
  exists c,
    centrality_scores sentences stop_words = Some c
    /\ List.length c = n
    /\ (((forall i j, (i < n)%nat -> (j < n)%nat -> i <> j ->
          similarity i j = Some 0%R)
         /\ c = Np.zeros n)
        \/ ((exists i j r, (i < n)%nat /\ (j < n)%nat /\ i <> j
                           /\ similarity i j = Some r /\ (0 < r)%R)
            /\ Forall (fun x => (0 < x <= 1)%R) c /\ In 1%R c)).
Proof.
  intros Hne processed n similarity.
  destruct (centrality_scores_cases sentences stop_words Hne)
    as (m & largest & c & Hm & Hlargest & Hc & Hlength & Hcases).
  exists c. split; [exact Hc | split; [exact Hlength |]].
  destruct (similarity_matrix_cells processed stop_words)
    as (m' & Hm' & Hlen & Hrows & Hdiag & Hoff).
  fold processed in Hm. rewrite Hm in Hm'. injection Hm' as <-.
  unfold processed in Hlen, Hrows, Hoff. rewrite length_map in Hlen, Hrows, Hoff.
  fold processed n in Hlen, Hrows, Hoff.
  apply max_spec in Hlargest. destruct Hlargest as [Hin Hle].
  rewrite Forall_forall in Hrows, Hle.
  destruct (Np.positive largest) eqn:Hpos.
  - right. split; [| exact Hcases].
    apply positive_true in Hpos.
    apply in_concat in Hin. destruct Hin as (row & Hrow & Hin).
    destruct (In_nth _ _ [] Hrow) as (i & Hi & <-).
    destruct (In_nth _ _ 0%R Hin) as (j & Hj & Hcell).
    rewrite (Hrows (nth i m [])) in Hj by (apply nth_In, Hi).
    fold (Np.cell m i j) in Hcell.
    assert (Hij : i <> j).
    { intros ->. rewrite Hdiag in Hcell. lra. }
    exists i, j, largest. repeat split; try lia; [| exact Hpos].
    unfold similarity. rewrite <- Hoff by lia. now rewrite Hcell.
  - left. split; [| exact Hcases].
    apply positive_false in Hpos.
    intros i j Hi Hj Hij. unfold similarity. rewrite <- Hoff by assumption.
    f_equal.
    assert (Hrow : In (nth i m []) m) by (apply nth_In; lia).
    assert (Hcell : In (Np.cell m i j) (List.concat m)).
    { apply in_concat. exists (nth i m []). split; [exact Hrow |].
      apply nth_In. rewrite (Hrows _ Hrow). exact Hj. }
    apply Hle in Hcell. cbv beta in Hcell.
    assert (Hrange : (0 <= Np.cell m i j <= 1)%R).
    { apply (similarity_matrix_cell_range processed stop_words m i j Hm);
        unfold processed; now rewrite length_map. }
    lra.
Qed.


End Centrality.

Lemma centrality_scores_range_witness :
  exists c,
    @centrality_scores Examples.simple_nltk Examples.left_to_right
      ["The cat sat."; "The dog sat."] [] = Some c
    /\ List.length c = 2%nat.
Proof.
  destruct (@centrality_scores_range Examples.simple_nltk Examples.left_to_right
              ["The cat sat."; "The dog sat."] [] ltac:(discriminate))
    as (c & Hc & Hlen & _).
  exists c. split; [exact Hc | exact Hlen].
Defined.

(** ** The combined score *)



Section Combined.

Context {nltk : Nltk} {re : Re} {sklearn : Sklearn} {set_order : SetOrder}.



End Combined.


End BackendExtra.
